(** * twofactor: TOTP generation, validation and state codec (totp.go)

    A shallow embedding of [totp.go] and the properties of its token
    engine, its validation state machine and its binary codec.

    Conventions of the embedding:
    - Go's [int], [int64], [uint64], [uint32] and [byte] values are integers
      in [Z]; every operation that can leave the range of its Go type is
      followed by the wrap-around of that type.  [int] is taken to be 64 bits
      wide, as on the platforms Go is usually built for.
    - a [[]byte] is a [list byte]; a Go [string] is a [string] whose
      characters are its bytes.
    - a run-time panic is an explicit result, [Panics].
    - [time.Time] is the instant in nanoseconds since the Unix epoch; the
      successive readings of [time.Now()] are the values of a function
      [clock] at 0, 1, 2, ...
    - the clock, the HMAC of [crypto/hmac] and [sha256.Sum256] are the fields
      of an environment, [Env]; the theorems hold in every environment, and
      [crypto_env] is the one in which the digests are computed. *)

From Stdlib Require Import ZArith List String Ascii Bool Lia.
From coqutil Require Import Byte.
Import ListNotations.
Local Open Scope Z_scope.

(** ** Fixed-width integers *)

Definition wrap_uint8 (z : Z) : Z := z mod 2 ^ 8.
Definition wrap_uint32 (z : Z) : Z := z mod 2 ^ 32.
Definition wrap_uint64 (z : Z) : Z := z mod 2 ^ 64.
Definition wrap_int32 (z : Z) : Z := (z + 2 ^ 31) mod 2 ^ 32 - 2 ^ 31.
Definition wrap_int64 (z : Z) : Z := (z + 2 ^ 63) mod 2 ^ 64 - 2 ^ 63.

(** Go's [int]. *)
Definition wrap_int (z : Z) : Z := wrap_int64 z.

Definition in_int32 (z : Z) : Prop := - 2 ^ 31 <= z < 2 ^ 31.
Definition in_int64 (z : Z) : Prop := - 2 ^ 63 <= z < 2 ^ 63.

(** ** Panics and results *)

Inductive panic : Set :=
| IndexOutOfRange
| SliceBoundsOutOfRange
| MakesliceLenOutOfRange
| IntegerDivideByZero.

Inductive outcome (A : Type) : Type :=
| Ret (a : A)
| Panics (p : panic).
Arguments Ret {A} a.
Arguments Panics {A} p.

Definition obind {A B} (m : outcome A) (k : A -> outcome B) : outcome B :=
  match m with
  | Ret a => k a
  | Panics p => Panics p
  end.

Declare Scope outcome_scope.
Delimit Scope outcome_scope with outcome.
Notation "x <- m ;; k" := (obind m (fun x => k))
  (at level 61, m at next level, right associativity) : outcome_scope.
Notation "' p <- m ;; k" := (obind m (fun p => k))
  (at level 61, p pattern, m at next level, right associativity) : outcome_scope.

(** Go's [error] values that [totp.go] produces or passes on. *)
Inductive error : Set :=
| errors_New (msg : string)
| io_EOF.

(** ** Byte slices and arrays *)

Definition len {A} (s : list A) : Z := Z.of_nat (List.length s).

(** [s[i]] *)
Definition index (s : list byte) (i : Z) : outcome byte :=
  if (0 <=? i) && (i <? len s)
  then Ret (nth (Z.to_nat i) s Byte.x00)
  else Panics IndexOutOfRange.

(** [s[lo:hi]] on a slice whose capacity is its length. *)
Definition slice (s : list byte) (lo hi : Z) : outcome (list byte) :=
  if (0 <=? lo) && (lo <=? hi) && (hi <=? len s)
  then Ret (firstn (Z.to_nat (hi - lo)) (skipn (Z.to_nat lo) s))
  else Panics SliceBoundsOutOfRange.

(** [make([]byte, n)] *)
Definition make (n : Z) : outcome (list byte) :=
  if 0 <=? n then Ret (repeat Byte.x00 (Z.to_nat n))
  else Panics MakesliceLenOutOfRange.

(** [[4]byte] and [[8]byte] *)
Definition byte4 : Type := (byte * byte * byte * byte)%type.
Definition byte8 : Type :=
  (byte * byte * byte * byte * byte * byte * byte * byte)%type.

Definition bytes_of_byte4 (a : byte4) : list byte :=
  let '(b0, b1, b2, b3) := a in [b0; b1; b2; b3].
Definition bytes_of_byte8 (a : byte8) : list byte :=
  let '(b0, b1, b2, b3, b4, b5, b6, b7) := a in
  [b0; b1; b2; b3; b4; b5; b6; b7].

Definition zero_byte8 : byte8 :=
  (Byte.x00, Byte.x00, Byte.x00, Byte.x00,
   Byte.x00, Byte.x00, Byte.x00, Byte.x00).

(** [[4]byte{b[0], b[1], b[2], b[3]}] *)
Definition array4 (b : list byte) : outcome byte4 :=
  (b0 <- index b 0;; b1 <- index b 1;; b2 <- index b 2;; b3 <- index b 3;;
   Ret (b0, b1, b2, b3))%outcome.

(** [[8]byte{b[0], ..., b[7]}] *)
Definition array8 (b : list byte) : outcome byte8 :=
  (b0 <- index b 0;; b1 <- index b 1;; b2 <- index b 2;; b3 <- index b 3;;
   b4 <- index b 4;; b5 <- index b 5;; b6 <- index b 6;; b7 <- index b 7;;
   Ret (b0, b1, b2, b3, b4, b5, b6, b7))%outcome.

(** ** The conversion helpers

    [totp.go] calls [bigEndianInt], [intFromBigEndian], [bigEndianUint64],
    [uint64FromBigEndian] and [round], which the package defines in another
    file. *)

(** Modelled from the spec: [bigEndianInt] is not in [totp.go]; the codec
    layout gives every [int] field 4 bytes, "all integers big-endian". *)
Definition bigEndianInt (n : Z) : byte4 :=
  (byte.of_Z (Z.shiftr n 24), byte.of_Z (Z.shiftr n 16),
   byte.of_Z (Z.shiftr n 8), byte.of_Z n).

(** Modelled from the spec: [intFromBigEndian] is not in [totp.go]; it reads
    a 4-byte big-endian field back into an [int].  The spec has signed fields
    ([clientOffset]) and speaks of negative declared lengths, so the field is
    read as a two's complement number. *)
Definition intFromBigEndian (d : byte4) : Z :=
  let '(b0, b1, b2, b3) := d in
  wrap_int32
    (Z.lor (Z.lor (Z.lor (Z.shiftl (byte.unsigned b0) 24)
                         (Z.shiftl (byte.unsigned b1) 16))
                  (Z.shiftl (byte.unsigned b2) 8))
           (byte.unsigned b3)).

(** Modelled from the spec: [bigEndianUint64] is not in [totp.go]; the
    counter and the verification time are "8-byte unsigned big-endian". *)
Definition bigEndianUint64 (n : Z) : byte8 :=
  (byte.of_Z (Z.shiftr n 56), byte.of_Z (Z.shiftr n 48),
   byte.of_Z (Z.shiftr n 40), byte.of_Z (Z.shiftr n 32),
   byte.of_Z (Z.shiftr n 24), byte.of_Z (Z.shiftr n 16),
   byte.of_Z (Z.shiftr n 8), byte.of_Z n).

(** Modelled from the spec: [uint64FromBigEndian] is not in [totp.go]; it is
    the reading of an "8-byte unsigned big-endian value". *)
Definition uint64FromBigEndian (d : byte8) : Z :=
  let '(b0, b1, b2, b3, b4, b5, b6, b7) := d in
  Z.lor (Z.lor (Z.lor (Z.lor (Z.lor (Z.lor (Z.lor
    (Z.shiftl (byte.unsigned b0) 56)
    (Z.shiftl (byte.unsigned b1) 48))
    (Z.shiftl (byte.unsigned b2) 40))
    (Z.shiftl (byte.unsigned b3) 32))
    (Z.shiftl (byte.unsigned b4) 24))
    (Z.shiftl (byte.unsigned b5) 16))
    (Z.shiftl (byte.unsigned b6) 8))
    (byte.unsigned b7).

(** [float64(q)] for an [int64] [q], as the integer the resulting double
    stands for: exact below 2^53 in magnitude, otherwise rounded to 53
    significant bits, ties to even. *)
Definition float64_of_int64 (q : Z) : Z :=
  let a := Z.abs q in
  if a <? 2 ^ 53 then q
  else
    let e := Z.log2 a - 52 in
    let m := a / 2 ^ e in
    let r := a mod 2 ^ e in
    let half := 2 ^ (e - 1) in
    let m' := if r <? half then m
              else if half <? r then m + 1
              else if Z.even m then m else m + 1 in
    Z.sgn q * (m' * 2 ^ e).

(** Modelled from the spec: [round] (float64 to uint64) is not in [totp.go].
    The spec's [counterForStep] is the quotient itself, so [round] leaves an
    integral value as it is; the argument here is always integral, and is
    given as that integer.  The conversion to [uint64] wraps. *)
Definition round (T : Z) : Z := wrap_uint64 T.

(** ** Time *)

(** [time.Time]: nanoseconds since the Unix epoch.  [UTC()] changes the
    location a time is printed in and not the instant, so it is not written
    in what follows. *)
Definition Time : Type := Z.
(** [time.Duration] *)
Definition Duration : Type := Z.

Definition time_Second : Duration := 1000000000.
Definition time_Minute : Duration := 60 * time_Second.

(** [t.Add(d)]; times are far from the ends of the range of [time.Time],
    where [Add] would saturate. *)
Definition time_Add (t : Time) (d : Duration) : Time := t + d.
(** [t.After(u)] *)
Definition time_After (t u : Time) : bool := u <? t.
(** [t.Unix()] *)
Definition time_Unix_of (t : Time) : Z := t / time_Second.
(** [time.Unix(sec, 0)] *)
Definition time_Unix (sec : Z) : Time := sec * time_Second.
(** [time.Time{}], January 1 of year 1. *)
Definition time_zero : Time := time_Unix (-62135596800).

(** ** The environment: the clock and the digests of the crypto packages *)

(** [sha1.New], [sha256.New], [sha512.New] *)
Inductive hash_New : Set := sha1_New | sha256_New | sha512_New.

Definition digest_Size (a : hash_New) : Z :=
  match a with
  | sha1_New => 20
  | sha256_New => 32
  | sha512_New => 64
  end.

Class Env : Type := {
  (** the [k]-th reading of [time.Now()] *)
  clock : nat -> Time;
  (** the HMAC of a message under a key, for [hmac.New(a, key)] *)
  hmac_digest : hash_New -> list byte -> list byte -> list byte;
  (** [sha256.Sum256] *)
  sha256_Sum256 : list byte -> list byte
}.

(** An HMAC has the size of its digest. *)
Definition hmac_sized (E : Env) : Prop :=
  forall a key msg, len (hmac_digest a key msg) = digest_Size a.

(** [hash.Hash]: what has been written, and the digest of it. *)
Record hash_Hash : Type := {
  digest_of : list byte -> list byte;
  Size : Z;
  written : list byte
}.

Definition Write (h : hash_Hash) (p : list byte) : hash_Hash :=
  {| digest_of := digest_of h; Size := Size h; written := written h ++ p |}.

Definition Sum (h : hash_Hash) (b : list byte) : list byte :=
  b ++ digest_of h (written h).

Definition hmac_New `{Env} (a : hash_New) (key : list byte) : hash_Hash :=
  {| digest_of := hmac_digest a key; Size := digest_Size a; written := [] |}.

(** [crypto.Hash] is an unsigned integer; these are its constants. *)
Definition crypto_Hash : Type := Z.
Definition crypto_MD5 : crypto_Hash := 2.
Definition crypto_SHA1 : crypto_Hash := 3.
Definition crypto_SHA256 : crypto_Hash := 5.
Definition crypto_SHA512 : crypto_Hash := 7.

(** ** Formatting *)

Definition digit_char (d : Z) : ascii := ascii_of_nat (48 + Z.to_nat d).

Fixpoint format_uint (fuel : nat) (n : Z) (acc : string) : string :=
  match fuel with
  | O => acc
  | S fuel' =>
      let acc' := String (digit_char (n mod 10)) acc in
      if n <? 10 then acc' else format_uint fuel' (n / 10) acc'
  end.

(** The decimal digits of a [uint64], which has at most 20 of them. *)
Definition FormatUint (n : Z) : string := format_uint 20 n "".

Fixpoint replicate (n : nat) (c : ascii) : string :=
  match n with
  | O => EmptyString
  | S n' => String c (replicate n' c)
  end.

(** [fmt.Sprintf(fmt.Sprintf("%%0%dd", digits), n)]: the verb is [%0<digits>d].
    A width that is not negative pads with zeros on the left; a negative
    [digits] makes the minus sign a flag, which pads with spaces on the
    right.  ([fmt] refuses widths above a million; they are not modelled.) *)
Definition Sprintf_0d (digits : Z) (n : Z) : string :=
  let s := FormatUint n in
  let pad := (Z.to_nat (Z.abs digits) - String.length s)%nat in
  if 0 <=? digits then (replicate pad "0" ++ s)%string
  else (s ++ replicate pad " ")%string.

Definition hex_digit (d : Z) : ascii :=
  if d <? 10 then ascii_of_nat (48 + Z.to_nat d)
  else ascii_of_nat (87 + Z.to_nat d).

(** [hex.EncodeToString] *)
Fixpoint hex_EncodeToString (src : list byte) : string :=
  match src with
  | [] => EmptyString
  | b :: rest =>
      String (hex_digit (Z.shiftr (byte.unsigned b) 4))
        (String (hex_digit (Z.land (byte.unsigned b) 15))
           (hex_EncodeToString rest))
  end.

(** ** The credential *)

Record totp : Type := {
  key : list byte;
  counter : byte8;
  digits : Z;
  issuer : string;
  account : string;
  stepSize : Z;
  clientOffset : Z;
  totalVerificationFailures : Z;
  lastVerificationTime : Time;
  hashFunction : crypto_Hash
}.

Definition BACKOFF_MINUTES : Z := 5.
Definition MAX_FAILURES : Z := 3.
Definition COUNTER_SIZE : Z := 8.

(** [new(totp)] *)
Definition new_totp : totp :=
  {| key := []; counter := zero_byte8; digits := 0; issuer := "";
     account := ""; stepSize := 0; clientOffset := 0;
     totalVerificationFailures := 0; lastVerificationTime := time_zero;
     hashFunction := 0 |}.

Definition set_counter (otp : totp) (c : byte8) : totp :=
  {| key := key otp; counter := c; digits := digits otp;
     issuer := issuer otp; account := account otp; stepSize := stepSize otp;
     clientOffset := clientOffset otp;
     totalVerificationFailures := totalVerificationFailures otp;
     lastVerificationTime := lastVerificationTime otp;
     hashFunction := hashFunction otp |}.

Definition set_clientOffset (otp : totp) (o : Z) : totp :=
  {| key := key otp; counter := counter otp; digits := digits otp;
     issuer := issuer otp; account := account otp; stepSize := stepSize otp;
     clientOffset := o;
     totalVerificationFailures := totalVerificationFailures otp;
     lastVerificationTime := lastVerificationTime otp;
     hashFunction := hashFunction otp |}.

Definition set_totalVerificationFailures (otp : totp) (n : Z) : totp :=
  {| key := key otp; counter := counter otp; digits := digits otp;
     issuer := issuer otp; account := account otp; stepSize := stepSize otp;
     clientOffset := clientOffset otp;
     totalVerificationFailures := n;
     lastVerificationTime := lastVerificationTime otp;
     hashFunction := hashFunction otp |}.

Definition set_lastVerificationTime (otp : totp) (t : Time) : totp :=
  {| key := key otp; counter := counter otp; digits := digits otp;
     issuer := issuer otp; account := account otp; stepSize := stepSize otp;
     clientOffset := clientOffset otp;
     totalVerificationFailures := totalVerificationFailures otp;
     lastVerificationTime := t;
     hashFunction := hashFunction otp |}.

(** [makeTOTP] *)
Definition makeTOTP (key : list byte) (account issuer : string)
    (hash : crypto_Hash) (digits : Z) : totp * option error :=
  ({| key := key; counter := zero_byte8; digits := digits; issuer := issuer;
      account := account; stepSize := 30; clientOffset := 0;
      totalVerificationFailures := 0; lastVerificationTime := time_zero;
      hashFunction := hash |}, None).

(** [getIntCounter] *)
Definition getIntCounter (otp : totp) : Z := uint64FromBigEndian (counter otp).

(** ** The token engine *)

(** [truncateHash] *)
Definition truncateHash (hmac_result : list byte) (size : Z) : outcome Z :=
  (last <- index hmac_result (size - 1);;
   let offset := Z.land (byte.unsigned last) 15 in
   b0 <- index hmac_result offset;;
   b1 <- index hmac_result (wrap_uint8 (offset + 1));;
   b2 <- index hmac_result (wrap_uint8 (offset + 2));;
   b3 <- index hmac_result (wrap_uint8 (offset + 3));;
   let bin_code :=
     Z.lor (Z.lor (Z.lor
       (wrap_uint32 (Z.shiftl (Z.land (byte.unsigned b0) 127) 24))
       (wrap_uint32 (Z.shiftl (Z.land (byte.unsigned b1) 255) 16)))
       (wrap_uint32 (Z.shiftl (Z.land (byte.unsigned b2) 255) 8)))
       (Z.land (byte.unsigned b3) 255) in
   Ret bin_code)%outcome.

(** [calculateToken] *)
Definition calculateToken (counter : list byte) (digits : Z) (h : hash_Hash)
    : outcome string :=
  (let h := Write h counter in
   let hashResult := Sum h [] in
   result <- truncateHash hashResult (Size h);;
   let mod_ := 0 in
   let mod_ := if digits =? 8 then wrap_uint64 (Z.rem result 100000000)
               else mod_ in
   let mod_ := if digits =? 7 then wrap_uint64 (Z.rem result 10000000)
               else mod_ in
   let mod_ := if digits =? 6 then wrap_uint64 (Z.rem result 1000000)
               else mod_ in
   Ret (Sprintf_0d digits mod_))%outcome.

(** [increment]: the division is Go's, which truncates and panics on a zero
    divisor. *)
Definition increment (ts stepSize : Z) : outcome Z :=
  if stepSize =? 0 then Panics IntegerDivideByZero
  else
    let T := float64_of_int64 (wrap_int64 (Z.quot ts stepSize)) in
    let n := round T in
    Ret n.

(** ** Methods of a credential

    A method runs on a credential and on the number of clock readings taken
    so far; it returns its result with both, or panics. *)

Record World : Type := {
  cred : totp;
  reads : nat
}.

Definition M (A : Type) : Type := World -> outcome (A * World).

Definition mret {A} (a : A) : M A := fun w => Ret (a, w).

Definition mbind {A B} (m : M A) (k : A -> M B) : M B :=
  fun w => match m w with
           | Ret (a, w') => k a w'
           | Panics p => Panics p
           end.

Declare Scope method_scope.
Delimit Scope method_scope with method.
Notation "x <- m ;; k" := (mbind m (fun x => k))
  (at level 61, m at next level, right associativity) : method_scope.
Notation "m ;;; k" := (mbind m (fun _ => k))
  (at level 61, right associativity) : method_scope.

(** the receiver *)
Definition this : M totp := fun w => Ret (cred w, w).

Definition assign (f : totp -> totp) : M unit :=
  fun w => Ret (tt, {| cred := f (cred w); reads := reads w |}).

Definition lift {A} (o : outcome A) : M A :=
  fun w => match o with
           | Ret a => Ret (a, w)
           | Panics p => Panics p
           end.

(** [time.Now()] *)
Definition time_Now `{Env} : M Time :=
  fun w => Ret (clock (reads w), {| cred := cred w; reads := S (reads w) |}).

(** [synchronizeCounter] *)
Definition synchronizeCounter (offset : Z) : M unit :=
  assign (fun otp => set_clientOffset otp offset).

(** [validBackoffTime] *)
Definition validBackoffTime `{Env} (lastVerification : Time) : M bool :=
  (let diff := time_Add lastVerification
                 (wrap_int64 (BACKOFF_MINUTES * time_Minute)) in
   now <- time_Now;;
   mret (time_After now diff))%method.

(** [incrementCounter] *)
Definition incrementCounter `{Env} (index : Z) : M unit :=
  (otp <- this;;
   let counterOffset :=
     wrap_int64 (wrap_int (index * stepSize otp) * time_Second) in
   let clientOffset :=
     wrap_int64 (wrap_int (clientOffset otp * stepSize otp) * time_Second) in
   t <- time_Now;;
   let now := time_Unix_of (time_Add (time_Add t counterOffset) clientOffset) in
   n <- lift (increment now (stepSize otp));;
   assign (fun otp => set_counter otp (bigEndianUint64 n)))%method.

(** [calculateTOTP] *)
Definition calculateTOTP `{Env} (index : Z) : M string :=
  (otp <- this;;
   let h :=
     if hashFunction otp =? crypto_SHA256 then hmac_New sha256_New (key otp)
     else if hashFunction otp =? crypto_SHA512
          then hmac_New sha512_New (key otp)
          else hmac_New sha1_New (key otp) in
   incrementCounter index;;;
   otp <- this;;
   lift (calculateToken (bytes_of_byte8 (counter otp)) (digits otp) h))%method.

(** [OTP] *)
Definition OTP `{Env} : M string := calculateTOTP 0.

Definition err_empty : error := errors_New "User provided token is empty".
Definition err_locked : error :=
  errors_New "The verification is locked down, because of too many trials.".
Definition err_mismatch : error := errors_New "Tokens mismatch.".

(** The digest that [Validate] compares: the hexadecimal form of the SHA-256
    of a code. *)
Definition token_hash `{Env} (code : string) : string :=
  hex_EncodeToString (sha256_Sum256 (list_byte_of_string code)).

(** [Validate], from the computation of the three tokens to its end. *)
Definition compare_tokens `{Env} (userCode : string) : M (option error) :=
  (let userToken := token_hash userCode in
   c0 <- calculateTOTP (-1);;
   let token0Hash := token_hash c0 in
   c1 <- calculateTOTP 0;;
   let token1Hash := token_hash c1 in
   c2 <- calculateTOTP 1;;
   let token2Hash := token_hash c2 in
   if String.eqb token1Hash userToken then mret None
   else if String.eqb token0Hash userToken
        then synchronizeCounter (-1);;; mret None
   else if String.eqb token2Hash userToken
        then synchronizeCounter 1;;; mret None
   else
     assign (fun otp => set_totalVerificationFailures otp
                          (wrap_int (totalVerificationFailures otp + 1)));;;
     now <- time_Now;;
     assign (fun otp => set_lastVerificationTime otp now);;;
     mret (Some err_mismatch))%method.

(** [Validate].  [&&] does not evaluate its right operand, and so does not
    read the clock, when the left one is false. *)
Definition Validate `{Env} (userCode : string) : M (option error) :=
  (if String.eqb userCode "" then mret (Some err_empty)
   else
     otp <- this;;
     locked <-
       (if MAX_FAILURES <=? totalVerificationFailures otp
        then valid <- validBackoffTime (lastVerificationTime otp);;
             mret (negb valid)
        else mret false);;
     if locked then mret (Some err_locked)
     else
       otp <- this;;
       expired <-
         (if MAX_FAILURES <=? totalVerificationFailures otp
          then validBackoffTime (lastVerificationTime otp)
          else mret false);;
       (if expired
        then assign (fun otp => set_totalVerificationFailures otp 0)
        else mret tt);;;
       compare_tokens userCode)%method.

(** ** The codec *)

(** [bytes.Buffer]: its contents.  [Write] and [WriteString] append and
    return the number of bytes written with a nil error.  (A buffer that
    cannot grow panics; a list always can.) *)
Definition Buffer : Type := list byte.

Definition Buffer_Write (b : Buffer) (p : list byte)
    : Buffer * (Z * option error) :=
  (b ++ p, (len p, None)).

Definition Buffer_WriteString (b : Buffer) (s : string)
    : Buffer * (Z * option error) :=
  (b ++ list_byte_of_string s, (len (list_byte_of_string s), None)).

(** [if _, err := w; err != nil { return nil, err }], then the rest. *)
Definition or_return (w : Buffer * (Z * option error))
    (k : Buffer -> list byte * option error) : list byte * option error :=
  match snd (snd w) with
  | Some err => ([], Some err)
  | None => k (fst w)
  end.

Notation "'try' b <- w ;; k" := (or_return w (fun b => k))
  (at level 61, b name, w at next level, right associativity).

(** [ToBytes] *)
Definition ToBytes (otp : totp) : list byte * option error :=
  let buffer : Buffer := [] in
  let keySize := len (key otp) in
  let keySizeBytes := bigEndianInt keySize in
  let issuerSize := len (list_byte_of_string (issuer otp)) in
  let issuerSizeBytes := bigEndianInt issuerSize in
  let accountSize := len (list_byte_of_string (account otp)) in
  let accountSizeBytes := bigEndianInt accountSize in
  let totalSize :=
    wrap_int (4 + 4 + keySize + 8 + 4 + 4 + issuerSize + 4 + accountSize
              + 4 + 4 + 4 + 8 + 4) in
  let totalSizeBytes := bigEndianInt totalSize in
  try buffer <- Buffer_Write buffer (bytes_of_byte4 totalSizeBytes);;
  try buffer <- Buffer_Write buffer (bytes_of_byte4 keySizeBytes);;
  try buffer <- Buffer_Write buffer (key otp);;
  let counterBytes := bigEndianUint64 (getIntCounter otp) in
  try buffer <- Buffer_Write buffer (bytes_of_byte8 counterBytes);;
  let digitBytes := bigEndianInt (digits otp) in
  try buffer <- Buffer_Write buffer (bytes_of_byte4 digitBytes);;
  try buffer <- Buffer_Write buffer (bytes_of_byte4 issuerSizeBytes);;
  try buffer <- Buffer_WriteString buffer (issuer otp);;
  try buffer <- Buffer_Write buffer (bytes_of_byte4 accountSizeBytes);;
  try buffer <- Buffer_WriteString buffer (account otp);;
  let stepsBytes := bigEndianInt (stepSize otp) in
  try buffer <- Buffer_Write buffer (bytes_of_byte4 stepsBytes);;
  let offsetBytes := bigEndianInt (clientOffset otp) in
  try buffer <- Buffer_Write buffer (bytes_of_byte4 offsetBytes);;
  let totalFailuresBytes := bigEndianInt (totalVerificationFailures otp) in
  try buffer <- Buffer_Write buffer (bytes_of_byte4 totalFailuresBytes);;
  let verificationTimeBytes :=
    bigEndianUint64
      (wrap_uint64 (time_Unix_of (lastVerificationTime otp))) in
  try buffer <- Buffer_Write buffer (bytes_of_byte8 verificationTimeBytes);;
  try buffer <-
    (if hashFunction otp =? crypto_SHA256
     then Buffer_Write buffer (bytes_of_byte4 (bigEndianInt 1))
     else if hashFunction otp =? crypto_SHA512
          then Buffer_Write buffer (bytes_of_byte4 (bigEndianInt 2))
          else Buffer_Write buffer (bytes_of_byte4 (bigEndianInt 0)));;
  (buffer, None).

(** [bytes.Reader]: the bytes and the reading position. *)
Record Reader : Type := {
  r_s : list byte;
  r_i : Z
}.

Definition bytes_NewReader (b : list byte) : Reader := {| r_s := b; r_i := 0 |}.

(** [r.Read(b)]: at the end of the data it returns [io.EOF]; otherwise it
    copies what fits over the start of [b].  (Older versions of Go return a
    nil error for an empty [b] even at the end of the data; [TOTPFromBytes]
    reads into an empty buffer only when the next slice panics.) *)
Definition Reader_Read (r : Reader) (b : list byte)
    : Reader * list byte * (Z * option error) :=
  if len (r_s r) <=? r_i r then (r, b, (0, Some io_EOF))
  else
    let src := skipn (Z.to_nat (r_i r)) (r_s r) in
    let n := Z.min (len b) (len src) in
    ({| r_s := r_s r; r_i := r_i r + n |},
     firstn (Z.to_nat n) src ++ skipn (Z.to_nat n) b,
     (n, None)).

(** [err != nil && err != io.EOF] *)
Definition is_other_error (err : option error) : bool :=
  match err with
  | Some (errors_New _) => true
  | Some io_EOF => false
  | None => false
  end.

(** [TOTPFromBytes], from the first slice of the working buffer to its end;
    [err] is what the second read returned. *)
Definition read_fields (buffer : list byte) (err : option error)
    : outcome (totp * option error) :=
  (let startOffset := 0 in
   let endOffset := startOffset + 4 in
   keyBytes <- slice buffer startOffset endOffset;;
   k <- array4 keyBytes;;
   let keySize := intFromBigEndian k in
   let startOffset := endOffset in
   let endOffset := startOffset + keySize in
   otp_key <- slice buffer startOffset endOffset;;
   let startOffset := endOffset in
   let endOffset := startOffset + 8 in
   b <- slice buffer startOffset endOffset;;
   otp_counter <- array8 b;;
   let startOffset := endOffset in
   let endOffset := startOffset + 4 in
   b <- slice buffer startOffset endOffset;;
   a <- array4 b;;
   let otp_digits := intFromBigEndian a in
   let startOffset := endOffset in
   let endOffset := startOffset + 4 in
   b <- slice buffer startOffset endOffset;;
   a <- array4 b;;
   let issuerSize := intFromBigEndian a in
   let startOffset := endOffset in
   let endOffset := startOffset + issuerSize in
   issuerBytes <- slice buffer startOffset endOffset;;
   let otp_issuer := string_of_list_byte issuerBytes in
   let startOffset := endOffset in
   let endOffset := startOffset + 4 in
   b <- slice buffer startOffset endOffset;;
   a <- array4 b;;
   let accountSize := intFromBigEndian a in
   let startOffset := endOffset in
   let endOffset := startOffset + accountSize in
   accountBytes <- slice buffer startOffset endOffset;;
   let otp_account := string_of_list_byte accountBytes in
   let startOffset := endOffset in
   let endOffset := startOffset + 4 in
   b <- slice buffer startOffset endOffset;;
   a <- array4 b;;
   let otp_stepSize := intFromBigEndian a in
   let startOffset := endOffset in
   let endOffset := startOffset + 4 in
   b <- slice buffer startOffset endOffset;;
   a <- array4 b;;
   let otp_clientOffset := intFromBigEndian a in
   let startOffset := endOffset in
   let endOffset := startOffset + 4 in
   b <- slice buffer startOffset endOffset;;
   a <- array4 b;;
   let otp_totalVerificationFailures := intFromBigEndian a in
   let startOffset := endOffset in
   let endOffset := startOffset + 8 in
   b <- slice buffer startOffset endOffset;;
   a <- array8 b;;
   let ts := uint64FromBigEndian a in
   let otp_lastVerificationTime := time_Unix (wrap_int64 ts) in
   let startOffset := endOffset in
   let endOffset := startOffset + 4 in
   b <- slice buffer startOffset endOffset;;
   a <- array4 b;;
   let hashType := intFromBigEndian a in
   let otp_hashFunction :=
     if hashType =? 1 then crypto_SHA256
     else if hashType =? 2 then crypto_SHA512
          else crypto_SHA1 in
   Ret ({| key := otp_key; counter := otp_counter; digits := otp_digits;
           issuer := otp_issuer; account := otp_account;
           stepSize := otp_stepSize; clientOffset := otp_clientOffset;
           totalVerificationFailures := otp_totalVerificationFailures;
           lastVerificationTime := otp_lastVerificationTime;
           hashFunction := otp_hashFunction |}, err))%outcome.

(** [TOTPFromBytes]: the two reads, then the fields. *)
Definition TOTPFromBytes (data : list byte) : outcome (totp * option error) :=
  (let reader := bytes_NewReader data in
   let otp := new_totp in
   lenght <- make 4;;
   let '(reader, lenght, (_, err)) := Reader_Read reader lenght in
   if is_other_error err then Ret (otp, err) else
   l <- array4 lenght;;
   let totalSize := intFromBigEndian l in
   buffer <- make (totalSize - 4);;
   let '(reader, buffer, (_, err)) := Reader_Read reader buffer in
   if is_other_error err then Ret (otp, err) else
   read_fields buffer err)%outcome.

(** ** The specification's side

    What the specification says in its own words, to compare the code
    with. *)

(** The byte of a digest at a position, as a number. *)
Definition byte_at (mac : list byte) (i : Z) : Z :=
  byte.unsigned (nth (Z.to_nat i) mac Byte.x00).

(** RFC 4226, dynamic truncation: the offset is the low nibble of the last
    byte. *)
Definition rfc4226_offset (mac : list byte) : Z :=
  byte_at mac (len mac - 1) mod 16.

(** RFC 4226, dynamic truncation: the 31-bit big-endian number at the
    offset, without the top bit of its first byte. *)
Definition rfc4226_value (mac : list byte) : Z :=
  let o := rfc4226_offset mac in
  (byte_at mac o mod 128) * 2 ^ 24 + byte_at mac (o + 1) * 2 ^ 16
  + byte_at mac (o + 2) * 2 ^ 8 + byte_at mac (o + 3).

Definition digit_of_ascii (c : ascii) : option Z :=
  let n := Z.of_nat (nat_of_ascii c) in
  if (48 <=? n) && (n <=? 57) then Some (n - 48) else None.

(** The number a string of decimal digits stands for, after [acc]. *)
Fixpoint decimal_value_from (acc : Z) (s : string) : option Z :=
  match s with
  | EmptyString => Some acc
  | String c rest =>
      match digit_of_ascii c with
      | Some d => decimal_value_from (10 * acc + d) rest
      | None => None
      end
  end.

Definition decimal_value (s : string) : option Z := decimal_value_from 0 s.

(** The backoff window, five minutes. *)
Definition backoff : Duration := BACKOFF_MINUTES * time_Minute.

(** What a call may do to the client offset: keep it, or succeed and set it
    to -1 or to 1. *)
Definition offset_kept_or_resynchronized (w : World)
    (res : option error * World) : Prop :=
  clientOffset (cred (snd res)) = clientOffset (cred w)
  \/ (fst res = None
      /\ (clientOffset (cred (snd res)) = -1
          \/ clientOffset (cred (snd res)) = 1)).

(** The tag of the hash on the wire: "0 = SHA-1, 1 = SHA-256, 2 = SHA-512". *)
Definition hashType_of (h : crypto_Hash) : Z :=
  if h =? crypto_SHA256 then 1 else if h =? crypto_SHA512 then 2 else 0.

(** The layout of a record, field after field: the total size is the length
    of the whole record, 52 bytes of fixed fields and the key, the issuer and
    the account. *)
Definition layout (otp : totp) : list byte :=
  let issuerBytes := list_byte_of_string (issuer otp) in
  let accountBytes := list_byte_of_string (account otp) in
  bytes_of_byte4
    (bigEndianInt (52 + len (key otp) + len issuerBytes + len accountBytes))
  ++ bytes_of_byte4 (bigEndianInt (len (key otp)))
  ++ key otp
  ++ bytes_of_byte8 (counter otp)
  ++ bytes_of_byte4 (bigEndianInt (digits otp))
  ++ bytes_of_byte4 (bigEndianInt (len issuerBytes))
  ++ issuerBytes
  ++ bytes_of_byte4 (bigEndianInt (len accountBytes))
  ++ accountBytes
  ++ bytes_of_byte4 (bigEndianInt (stepSize otp))
  ++ bytes_of_byte4 (bigEndianInt (clientOffset otp))
  ++ bytes_of_byte4 (bigEndianInt (totalVerificationFailures otp))
  ++ bytes_of_byte8
       (bigEndianUint64 (wrap_uint64 (time_Unix_of (lastVerificationTime otp))))
  ++ bytes_of_byte4 (bigEndianInt (hashType_of (hashFunction otp))).

(** The credentials whose fields the wire format can hold: the four [int]
    fields and the total size fit a signed 4-byte field, the time is a Unix
    time in [int64], and the hash is one of the three that have a tag. *)
Definition wire_encodable (x : totp) : Prop :=
  in_int32 (digits x) /\ in_int32 (stepSize x) /\ in_int32 (clientOffset x)
  /\ in_int32 (totalVerificationFailures x)
  /\ 52 + len (key x) + len (list_byte_of_string (issuer x))
     + len (list_byte_of_string (account x)) < 2 ^ 31
  /\ in_int64 (time_Unix_of (lastVerificationTime x))
  /\ (hashFunction x = crypto_SHA1 \/ hashFunction x = crypto_SHA256
      \/ hashFunction x = crypto_SHA512).

(** A time without its fraction of a second. *)
Definition to_the_second (t : Time) : Time := time_Unix (time_Unix_of t).

(** The 4-byte field of an input at an offset; the bytes past the end of the
    input read as zero. *)
Definition bytes4_at (data : list byte) (off : Z) : byte4 :=
  (nth (Z.to_nat off) data Byte.x00, nth (Z.to_nat (off + 1)) data Byte.x00,
   nth (Z.to_nat (off + 2)) data Byte.x00,
   nth (Z.to_nat (off + 3)) data Byte.x00).

Definition field32 (data : list byte) (off : Z) : Z :=
  intFromBigEndian (bytes4_at data off).

(** The sizes that the bytes from [base] on declare, at the places the
    layout gives them after the total size. *)
Definition keySize_at (data : list byte) (base : Z) : Z := field32 data base.
Definition issuerSize_at (data : list byte) (base : Z) : Z :=
  field32 data (base + 4 + keySize_at data base + 8 + 4).
Definition accountSize_at (data : list byte) (base : Z) : Z :=
  field32 data
    (base + 4 + keySize_at data base + 8 + 4 + 4 + issuerSize_at data base).

(** No declared size is negative, and the fields, which start at [base],
    end within [total] bytes. *)
Definition fits_at (data : list byte) (base total : Z) : Prop :=
  0 <= keySize_at data base /\ 0 <= issuerSize_at data base
  /\ 0 <= accountSize_at data base
  /\ base + 48 + keySize_at data base + issuerSize_at data base
     + accountSize_at data base <= total.

(** The total size an input declares, and whether its fields fit it. *)
Definition declared_totalSize (data : list byte) : Z := field32 data 0.
Definition sizes_fit (data : list byte) : Prop :=
  fits_at data 4 (declared_totalSize data).

(** A decoding that returns when the sizes fit, with the error of the read,
    and panics on a slice when they do not. *)
Definition returns_iff (fit : Prop) (err : option error)
    (o : outcome (totp * option error)) : Prop :=
  (fit -> exists otp, o = Ret (otp, err))
  /\ (~ fit -> o = Panics SliceBoundsOutOfRange).

(** ** The digests of the crypto packages

    SHA-1 (FIPS 180-4, 6.1), SHA-256 and SHA-512 (6.2, 6.4) and HMAC
    (RFC 2104), to have an environment in which the tokens of RFC 6238 can be
    computed.  The round constants of SHA-2 are computed as FIPS 180-4
    defines them, from the square and cube roots of the first primes. *)

Module Crypto.

Definition add (w x y : Z) : Z := (x + y) mod 2 ^ w.
Definition rotl (w x n : Z) : Z :=
  Z.lor (Z.shiftl x n mod 2 ^ w) (Z.shiftr x (w - n)).
Definition rotr (w x n : Z) : Z :=
  Z.lor (Z.shiftr x n) (Z.shiftl x (w - n) mod 2 ^ w).
Definition compl (w x : Z) : Z := Z.lxor x (Z.ones w).

(** Big-endian bytes of a number, and back. *)
Fixpoint be_bytes (n : nat) (x : Z) : list byte :=
  match n with
  | O => []
  | S n' => be_bytes n' (Z.shiftr x 8) ++ [byte.of_Z x]
  end.

Definition be_word (bs : list byte) : Z :=
  fold_left (fun acc b => acc * 256 + byte.unsigned b) bs 0.

(** Cutting a list into pieces of [n] elements. *)
Fixpoint chunks_fuel {A} (fuel n : nat) (l : list A) : list (list A) :=
  match fuel with
  | O => []
  | S fuel' =>
      match l with
      | [] => []
      | _ => firstn n l :: chunks_fuel fuel' n (skipn n l)
      end
  end.

Definition chunks {A} (n : nat) (l : list A) : list (list A) :=
  chunks_fuel (List.length l) n l.

(** The padding: a one bit, zeros, and the length in bits. *)
Definition pad (block lenbytes : nat) (msg : list byte) : list byte :=
  let used := (List.length msg + 1 + lenbytes)%nat in
  let zeros := ((block - used mod block) mod block)%nat in
  msg ++ [Byte.x80] ++ repeat Byte.x00 zeros
  ++ be_bytes lenbytes (8 * Z.of_nat (List.length msg)).

(** The message schedule, latest word first. *)
Fixpoint schedule (n : nat) (next : list Z -> Z) (ws : list Z) : list Z :=
  match n with
  | O => ws
  | S n' => schedule n' next (next ws :: ws)
  end.

(** *** SHA-1 *)

Definition sha1_state : Type := (Z * Z * Z * Z * Z)%type.

Definition sha1_init : sha1_state :=
  (0x67452301, 0xEFCDAB89, 0x98BADCFE, 0x10325476, 0xC3D2E1F0).

Definition sha1_next (ws : list Z) : Z :=
  rotl 32 (Z.lxor (Z.lxor (Z.lxor (nth 2 ws 0) (nth 7 ws 0)) (nth 13 ws 0))
                  (nth 15 ws 0)) 1.

Definition sha1_round (s : sha1_state) (tw : nat * Z) : sha1_state :=
  let '(a, b, c, d, e) := s in
  let '(t, wt) := tw in
  let '(f, k) :=
    if (t <? 20)%nat
    then (Z.lor (Z.land b c) (Z.land (compl 32 b) d), 0x5A827999)
    else if (t <? 40)%nat
    then (Z.lxor (Z.lxor b c) d, 0x6ED9EBA1)
    else if (t <? 60)%nat
    then (Z.lor (Z.lor (Z.land b c) (Z.land b d)) (Z.land c d), 0x8F1BBCDC)
    else (Z.lxor (Z.lxor b c) d, 0xCA62C1D6) in
  let temp := add 32 (add 32 (add 32 (add 32 (rotl 32 a 5) f) e) k) wt in
  (temp, a, rotl 32 b 30, c, d).

Definition sha1_block (s : sha1_state) (block : list byte) : sha1_state :=
  let w16 := map be_word (chunks 4 block) in
  let ws := rev (schedule 64 sha1_next (rev w16)) in
  let '(a, b, c, d, e) := fold_left sha1_round (combine (seq 0 80) ws) s in
  let '(h0, h1, h2, h3, h4) := s in
  (add 32 h0 a, add 32 h1 b, add 32 h2 c, add 32 h3 d, add 32 h4 e).

Definition sha1 (msg : list byte) : list byte :=
  let '(h0, h1, h2, h3, h4) :=
    fold_left sha1_block (chunks 64 (pad 64 8 msg)) sha1_init in
  be_bytes 4 h0 ++ be_bytes 4 h1 ++ be_bytes 4 h2 ++ be_bytes 4 h3
  ++ be_bytes 4 h4.

(** *** SHA-2 *)

Definition is_prime (n : nat) : bool :=
  (1 <? n)%nat
  && forallb (fun d => negb (n mod d =? 0)%nat) (seq 2 (n - 2)).

Definition primes : list Z :=
  map Z.of_nat (filter is_prime (seq 2 408)).

(** The integer cube root, bit by bit from [2^bits] down. *)
Fixpoint cbrt_bits (bits : nat) (n r : Z) : Z :=
  match bits with
  | O => r
  | S b =>
      let r' := r + 2 ^ Z.of_nat b in
      if r' * r' * r' <=? n then cbrt_bits b n r' else cbrt_bits b n r
  end.

(** The first [w] bits of the fractional part of a square or cube root. *)
Definition frac_sqrt (w p : Z) : Z := Z.sqrt (p * 2 ^ (2 * w)) mod 2 ^ w.
Definition frac_cbrt (w p : Z) : Z :=
  cbrt_bits 70 (p * 2 ^ (3 * w)) 0 mod 2 ^ w.

Record sha2_params : Type := {
  wbits : Z; wbytes : nat; rounds : nat;
  Sigma0 : Z * Z * Z; Sigma1 : Z * Z * Z;
  sigma0 : Z * Z * Z; sigma1 : Z * Z * Z;
  sha2_init : Z * Z * Z * Z * Z * Z * Z * Z;
  sha2_K : list Z
}.

Definition sha2_state : Type := (Z * Z * Z * Z * Z * Z * Z * Z)%type.

(** The initial state: the square roots of the first eight primes. *)
Definition roots_init (w : Z) : sha2_state :=
  match map (frac_sqrt w) (firstn 8 primes) with
  | [a; b; c; d; e; f; g; h] => (a, b, c, d, e, f, g, h)
  | _ => (0, 0, 0, 0, 0, 0, 0, 0)
  end.

(** The round constants: the cube roots of the first primes. *)
Definition roots_K (w : Z) (n : nat) : list Z :=
  map (frac_cbrt w) (firstn n primes).

Definition sha256_init : sha2_state := Eval vm_compute in roots_init 32.
Definition sha256_K : list Z := Eval vm_compute in roots_K 32 64.
Definition sha512_init : sha2_state := Eval vm_compute in roots_init 64.
Definition sha512_K : list Z := Eval vm_compute in roots_K 64 80.

Definition sha256_params : sha2_params :=
  {| wbits := 32; wbytes := 4; rounds := 64;
     Sigma0 := (2, 13, 22); Sigma1 := (6, 11, 25);
     sigma0 := (7, 18, 3); sigma1 := (17, 19, 10);
     sha2_init := sha256_init; sha2_K := sha256_K |}.

Definition sha512_params : sha2_params :=
  {| wbits := 64; wbytes := 8; rounds := 80;
     Sigma0 := (28, 34, 39); Sigma1 := (14, 18, 41);
     sigma0 := (1, 8, 7); sigma1 := (19, 61, 6);
     sha2_init := sha512_init; sha2_K := sha512_K |}.

Definition big_sigma (w : Z) (r : Z * Z * Z) (x : Z) : Z :=
  let '(r1, r2, r3) := r in
  Z.lxor (Z.lxor (rotr w x r1) (rotr w x r2)) (rotr w x r3).

Definition small_sigma (w : Z) (r : Z * Z * Z) (x : Z) : Z :=
  let '(r1, r2, s) := r in
  Z.lxor (Z.lxor (rotr w x r1) (rotr w x r2)) (Z.shiftr x s).

Definition sha2_next (p : sha2_params) (ws : list Z) : Z :=
  let w := wbits p in
  add w (add w (add w (small_sigma w (sigma1 p) (nth 1 ws 0)) (nth 6 ws 0))
               (small_sigma w (sigma0 p) (nth 14 ws 0)))
        (nth 15 ws 0).

Definition sha2_round (p : sha2_params) (s : sha2_state) (kw : Z * Z)
    : sha2_state :=
  let w := wbits p in
  let '(a, b, c, d, e, f, g, h) := s in
  let '(kt, wt) := kw in
  let ch := Z.lxor (Z.land e f) (Z.land (compl w e) g) in
  let maj := Z.lxor (Z.lxor (Z.land a b) (Z.land a c)) (Z.land b c) in
  let t1 := add w (add w (add w (add w h (big_sigma w (Sigma1 p) e)) ch) kt) wt in
  let t2 := add w (big_sigma w (Sigma0 p) a) maj in
  (add w t1 t2, a, b, c, add w d t1, e, f, g).

Definition sha2_block (p : sha2_params) (K : list Z) (s : sha2_state)
    (block : list byte) : sha2_state :=
  let w := wbits p in
  let w16 := map be_word (chunks (wbytes p) block) in
  let ws := rev (schedule (rounds p - 16) (sha2_next p) (rev w16)) in
  let '(a, b, c, d, e, f, g, h) :=
    fold_left (sha2_round p) (combine K ws) s in
  let '(h0, h1, h2, h3, h4, h5, h6, h7) := s in
  (add w h0 a, add w h1 b, add w h2 c, add w h3 d,
   add w h4 e, add w h5 f, add w h6 g, add w h7 h).

Definition sha2 (p : sha2_params) (msg : list byte) : list byte :=
  let n := wbytes p in
  let '(h0, h1, h2, h3, h4, h5, h6, h7) :=
    fold_left (sha2_block p (sha2_K p))
      (chunks (16 * n) (pad (16 * n) (2 * n) msg)) (sha2_init p : sha2_state) in
  be_bytes n h0 ++ be_bytes n h1 ++ be_bytes n h2 ++ be_bytes n h3
  ++ be_bytes n h4 ++ be_bytes n h5 ++ be_bytes n h6 ++ be_bytes n h7.

Definition sha256 : list byte -> list byte := sha2 sha256_params.
Definition sha512 : list byte -> list byte := sha2 sha512_params.

(** *** HMAC *)

Definition xor_with (c : Z) (bs : list byte) : list byte :=
  map (fun b => byte.of_Z (Z.lxor (byte.unsigned b) c)) bs.

Definition hmac (H : list byte -> list byte) (block : nat)
    (key msg : list byte) : list byte :=
  let key0 := if (block <? List.length key)%nat then H key else key in
  let key0 := key0 ++ repeat Byte.x00 (block - List.length key0) in
  H (xor_with 0x5c key0 ++ H (xor_with 0x36 key0 ++ msg)).

Definition digest (a : hash_New) : list byte -> list byte :=
  match a with
  | sha1_New => sha1
  | sha256_New => sha256
  | sha512_New => sha512
  end.

Definition block_size (a : hash_New) : nat :=
  match a with
  | sha1_New => 64
  | sha256_New => 64
  | sha512_New => 128
  end.

End Crypto.

(** The environment of a clock with these digests. *)
Definition crypto_env (clk : nat -> Time) : Env :=
  {| clock := clk;
     hmac_digest := fun a k msg =>
       Crypto.hmac (Crypto.digest a) (Crypto.block_size a) k msg;
     sha256_Sum256 := Crypto.sha256 |}.

(** ** Sample data

    The key and the credential of the package's tests (the SHA-1 key of
    RFC 6238), and clocks that stand still. *)

Definition sha1Key : list byte := list_byte_of_string "12345678901234567890".
Definition sha256Key : list byte :=
  list_byte_of_string "12345678901234567890123456789012".
Definition sha512Key : list byte :=
  list_byte_of_string
    "1234567890123456789012345678901234567890123456789012345678901234".

Definition test_totp : totp :=
  fst (makeTOTP sha1Key "no-reply@sec51.com" "Sec51" crypto_SHA1 8).

(** The test credential after three failures, the last at time 0. *)
Definition failed_totp : totp :=
  set_lastVerificationTime (set_totalVerificationFailures test_totp 3)
    (time_Unix 0).

(** A clock that reads [sec] seconds after the epoch at every reading. *)
Definition clock_at (sec : Z) : nat -> Time := fun _ => time_Unix sec.

Definition env_at (sec : Z) : Env := crypto_env (clock_at sec).

Definition start (otp : totp) : World := {| cred := otp; reads := 0 |}.

(** A credential after the computation of a token: its counter is [n], and
    the clock has been read [k] times. *)
Definition counted (otp : totp) (n : Z) (k : nat) : World :=
  {| cred := set_counter otp (bigEndianUint64 n); reads := k |}.

(** A credential whose step size does not fit 4 bytes. *)
Definition wide_step_totp : totp :=
  {| key := [Byte.x31; Byte.x32; Byte.x33; Byte.x34];
     counter := zero_byte8; digits := 6; issuer := "Sec51";
     account := "info@sec51.com"; stepSize := 2 ^ 32 + 30; clientOffset := 0;
     totalVerificationFailures := 0;
     lastVerificationTime := time_Unix 1438601387;
     hashFunction := crypto_SHA1 |}.

(** ** More of the package *)

(** [strconv.Itoa] and the verb [%d], for an [int]. *)
Definition FormatInt (n : Z) : string :=
  if n <? 0 then String "-" (FormatUint (- n)) else FormatUint n.

(** What [NewTOTP] takes from the platform: [rand.Read] of [crypto/rand],
    which fills a slice and returns the number of bytes and an error, and
    [Size] of a [crypto.Hash], which panics on a hash that is not registered
    ([None]). *)
Class Platform : Type := {
  rand_Read : list byte -> list byte * (Z * option error);
  Hash_Size : crypto_Hash -> option Z
}.

(** [NewTOTP]; the result is [None] when [hash.Size()] panics, and a nil
    credential is [None]. *)
Definition NewTOTP `{Platform} (account issuer : string) (hash : crypto_Hash)
    (digits : Z) : option (outcome (option totp * option error)) :=
  match Hash_Size hash with
  | None => None
  | Some keySize =>
      Some
        (key <- make keySize;;
         let '(key, (total, err)) := rand_Read key in
         match err with
         | Some _ =>
             Ret (None,
                  Some (errors_New
                          ("TOTP failed to create because there is not enough entropy, we got only "
                           ++ FormatInt total ++ " random bytes")))
         | None =>
             let digits :=
               if (digits <? 6) || (8 <? digits) then 8 else digits in
             let '(otp, err) := makeTOTP key account issuer hash digits in
             Ret (Some otp, err)
         end)%outcome
  end.

(** A loop of the tests: [Validate] on one code after the other, with the
    errors it returns. *)
Fixpoint Validate_each `{Env} (codes : list string) : M (list (option error)) :=
  match codes with
  | [] => mret []
  | code :: rest =>
      (err <- Validate code;;
       errs <- Validate_each rest;;
       mret (err :: errs))%method
  end.

(** *** Words for the properties *)

(** The Unix time that [incrementCounter] divides: a reading of the clock
    moved by [index] steps and by the client offset. *)
Definition shifted_Unix (otp : totp) (index : Z) (t : Time) : Z :=
  time_Unix_of
    (time_Add
       (time_Add t (wrap_int64 (wrap_int (index * stepSize otp) * time_Second)))
       (wrap_int64 (wrap_int (clientOffset otp * stepSize otp) * time_Second))).

(** The time step of a reading of the clock: the quotient that [increment]
    takes for the current token. *)
Definition time_step (otp : totp) (t : Time) : Z :=
  Z.quot (shifted_Unix otp 0 t) (stepSize otp).

(** The HMAC that [calculateTOTP] makes for a credential. *)
Definition hash_of `{Env} (otp : totp) : hash_Hash :=
  if hashFunction otp =? crypto_SHA256 then hmac_New sha256_New (key otp)
  else if hashFunction otp =? crypto_SHA512
       then hmac_New sha512_New (key otp)
       else hmac_New sha1_New (key otp).

(** The token of a credential at a counter. *)
Definition token_of `{Env} (otp : totp) (n : Z) : outcome string :=
  calculateToken (bytes_of_byte8 (bigEndianUint64 n)) (digits otp) (hash_of otp).

(** The token of a credential at a reading of the clock, [index] steps
    away. *)
Definition totp_at `{Env} (otp : totp) (index : Z) (t : Time) : outcome string :=
  (n <- increment (shifted_Unix otp index t) (stepSize otp);;
   token_of otp n)%outcome.

(** The fields of a credential that no method writes. *)
Definition same_configuration (a b : totp) : Prop :=
  key a = key b /\ digits a = digits b /\ issuer a = issuer b
  /\ account a = account b /\ stepSize a = stepSize b
  /\ hashFunction a = hashFunction b.

(** The errors of [Validate]. *)
Definition Validate_error (e : option error) : Prop :=
  e = None \/ e = Some err_empty \/ e = Some err_locked
  \/ e = Some err_mismatch.

(** The code of a token computation, without the credential it leaves. *)
Definition code_of (o : outcome (string * World)) : outcome string :=
  (p <- o;; Ret (fst p))%outcome.

(** *** More sample data *)

(** A clock that starts at [sec] seconds after the epoch and moves on by one
    second at every reading. *)
Definition ticking_from (sec : Z) : nat -> Time :=
  fun k => time_Unix (sec + Z.of_nat k).

(** A clock that goes back: 301 seconds after the epoch at its first
    reading, 300 seconds from then on. *)
Definition clock_back : nat -> Time :=
  fun k => match k with O => time_Unix 301 | S _ => time_Unix 300 end.

(** The sizes of the hashes that [crypto] registers, by their number. *)
Definition digestSizes : list Z :=
  [16; 16; 20; 28; 32; 48; 64; 36; 20; 28; 32; 48; 64; 28; 32; 32; 32; 48; 64].

(** A platform whose generator returns the byte 42 for every byte asked. *)
Definition sample_platform : Platform :=
  {| rand_Read := fun b => (map (fun _ => Byte.x2a) b, (len b, None));
     Hash_Size := fun h =>
       if (0 <? h) && (h <? 20) then nth_error digestSizes (Z.to_nat (h - 1))
       else None |}.

(** A platform without entropy: its generator fails after 3 bytes. *)
Definition dry_platform : Platform :=
  {| rand_Read := fun b =>
       (firstn 3 (map (fun _ => Byte.x2a) b) ++ skipn 3 b,
        (3, Some (errors_New "unexpected EOF")));
     Hash_Size := Hash_Size (Platform := sample_platform) |}.

(** The test credential with 5 digits, as [makeTOTP] and a decoded record
    can have them. *)
Definition five_digits_totp : totp :=
  fst (makeTOTP sha1Key "no-reply@sec51.com" "Sec51" crypto_SHA1 5).

(** The test credential after three mismatches 59 seconds after the epoch,
    at the twelfth reading of the clock. *)
Definition thrice_failed : World :=
  {| cred :=
       set_lastVerificationTime
         (set_totalVerificationFailures
            (set_counter test_totp (bigEndianUint64 2)) 3)
         (time_Unix 59);
     reads := 12 |}.

(** * Properties *)

(** ** Bytes and fixed-width integers *)

Lemma unsigned_byte_range (b : byte) : 0 <= byte.unsigned b < 256.
Proof. exact (byte.unsigned_range b). Qed.

Lemma unsigned_of_Z_mod (z : Z) : byte.unsigned (byte.of_Z z) = z mod 256.
Proof. rewrite byte.unsigned_of_Z. reflexivity. Qed.

Lemma of_Z_unsigned_id (b : byte) : byte.of_Z (byte.unsigned b) = b.
Proof. apply byte.of_Z_unsigned. Qed.

(** A number below [2^k] fills only bits that a multiple of [2^k] leaves
    empty, so [lor] adds them. *)
Lemma lor_low_bits (X y k : Z) :
  0 <= k -> X mod 2 ^ k = 0 -> 0 <= y < 2 ^ k -> Z.lor X y = X + y.
Proof.
  intros Hk HX Hy.
  assert (Hland : Z.land X y = 0); [| now rewrite <- Z.lxor_lor, Z.add_nocarry_lxor].
  apply Z.bits_inj'. intros n Hn.
  rewrite Z.land_spec, Z.bits_0.
  destruct (Z.ltb_spec n k) as [Hlt | Hge].
  - rewrite <- (Z.mod_pow2_bits_low X k n) by lia.
    rewrite HX, Z.bits_0. reflexivity.
  - rewrite <- (Z.mod_small y (2 ^ k)) by lia.
    rewrite Z.mod_pow2_bits_high by lia.
    apply andb_false_r.
Qed.

Lemma wrap_uint32_small (z : Z) : 0 <= z < 2 ^ 32 -> wrap_uint32 z = z.
Proof. intros. unfold wrap_uint32. apply Z.mod_small. lia. Qed.

Lemma wrap_uint64_small (z : Z) : 0 <= z < 2 ^ 64 -> wrap_uint64 z = z.
Proof. intros. unfold wrap_uint64. apply Z.mod_small. lia. Qed.

Lemma wrap_uint8_small (z : Z) : 0 <= z < 2 ^ 8 -> wrap_uint8 z = z.
Proof. intros. unfold wrap_uint8. apply Z.mod_small. lia. Qed.

Lemma wrap_int32_small (z : Z) : in_int32 z -> wrap_int32 z = z.
Proof.
  unfold in_int32, wrap_int32. intros. rewrite Z.mod_small; lia.
Qed.

Lemma wrap_int64_small (z : Z) : in_int64 z -> wrap_int64 z = z.
Proof.
  unfold in_int64, wrap_int64. intros. rewrite Z.mod_small; lia.
Qed.

Lemma wrap_int32_range (z : Z) : in_int32 (wrap_int32 z).
Proof.
  unfold in_int32, wrap_int32.
  pose proof (Z.mod_pos_bound (z + 2 ^ 31) (2 ^ 32)). lia.
Qed.

(** What the four bytes of a field add up to. *)
Lemma be32_sum (b0 b1 b2 b3 : byte) :
  Z.lor (Z.lor (Z.lor (Z.shiftl (byte.unsigned b0) 24)
                      (Z.shiftl (byte.unsigned b1) 16))
               (Z.shiftl (byte.unsigned b2) 8))
        (byte.unsigned b3)
  = byte.unsigned b0 * 2 ^ 24 + byte.unsigned b1 * 2 ^ 16
    + byte.unsigned b2 * 2 ^ 8 + byte.unsigned b3.
Proof.
  pose proof (unsigned_byte_range b0). pose proof (unsigned_byte_range b1).
  pose proof (unsigned_byte_range b2). pose proof (unsigned_byte_range b3).
  rewrite !Z.shiftl_mul_pow2 by lia.
  rewrite (lor_low_bits _ (byte.unsigned b1 * 2 ^ 16) 24); try lia.
  2: apply Z.mod_mul; lia.
  rewrite (lor_low_bits _ (byte.unsigned b2 * 2 ^ 8) 16); try lia.
  2: { change (2 ^ 24) with (2 ^ 8 * 2 ^ 16). rewrite Z.mul_assoc, <- Z.mul_add_distr_r.
       apply Z.mod_mul; lia. }
  rewrite (lor_low_bits _ (byte.unsigned b3) 8); try lia.
  change (2 ^ 24) with (2 ^ 16 * 2 ^ 8). change (2 ^ 16) with (2 ^ 8 * 2 ^ 8) at 2.
  rewrite !Z.mul_assoc, <- !Z.mul_add_distr_r.
  apply Z.mod_mul; lia.
Qed.

Lemma intFromBigEndian_bigEndianInt (n : Z) :
  intFromBigEndian (bigEndianInt n) = wrap_int32 n.
Proof.
  unfold intFromBigEndian, bigEndianInt.
  rewrite be32_sum, !unsigned_of_Z_mod, !Z.shiftr_div_pow2 by lia.
  unfold wrap_int32. f_equal.
  rewrite <- (Zplus_mod_idemp_l n).
  f_equal. f_equal.
  change (2 ^ 32) with (2 ^ 24 * 2 ^ 8) at 1.
  Z.div_mod_to_equations. lia.
Qed.

Lemma intFromBigEndian_range (d : byte4) : in_int32 (intFromBigEndian d).
Proof.
  destruct d as [[[b0 b1] b2] b3]. unfold intFromBigEndian.
  apply wrap_int32_range.
Qed.

Lemma of_Z_eq (z : Z) (b : byte) : z mod 256 = byte.unsigned b -> byte.of_Z z = b.
Proof.
  intros Hz. apply byte.unsigned_inj. rewrite unsigned_of_Z_mod. exact Hz.
Qed.

Lemma of_Z_congr (a b : Z) : a mod 256 = b mod 256 -> byte.of_Z a = byte.of_Z b.
Proof.
  intros Hab. apply of_Z_eq. rewrite unsigned_of_Z_mod. exact Hab.
Qed.

Ltac byte_ranges :=
  repeat match goal with
         | b : Init.Byte.byte |- _ =>
             lazymatch goal with
             | _ : 0 <= byte.unsigned b < 256 |- _ => fail
             | _ => pose proof (unsigned_byte_range b)
             end
         end.

Lemma be64_sum (b0 b1 b2 b3 b4 b5 b6 b7 : byte) :
  uint64FromBigEndian (b0, b1, b2, b3, b4, b5, b6, b7)
  = byte.unsigned b0 * 2 ^ 56 + byte.unsigned b1 * 2 ^ 48
    + byte.unsigned b2 * 2 ^ 40 + byte.unsigned b3 * 2 ^ 32
    + byte.unsigned b4 * 2 ^ 24 + byte.unsigned b5 * 2 ^ 16
    + byte.unsigned b6 * 2 ^ 8 + byte.unsigned b7.
Proof.
  byte_ranges. unfold uint64FromBigEndian.
  rewrite !Z.shiftl_mul_pow2 by lia.
  rewrite (lor_low_bits _ (byte.unsigned b1 * 2 ^ 48) 56);
    [| lia | Z.div_mod_to_equations; lia | lia].
  rewrite (lor_low_bits _ (byte.unsigned b2 * 2 ^ 40) 48);
    [| lia | Z.div_mod_to_equations; lia | lia].
  rewrite (lor_low_bits _ (byte.unsigned b3 * 2 ^ 32) 40);
    [| lia | Z.div_mod_to_equations; lia | lia].
  rewrite (lor_low_bits _ (byte.unsigned b4 * 2 ^ 24) 32);
    [| lia | Z.div_mod_to_equations; lia | lia].
  rewrite (lor_low_bits _ (byte.unsigned b5 * 2 ^ 16) 24);
    [| lia | Z.div_mod_to_equations; lia | lia].
  rewrite (lor_low_bits _ (byte.unsigned b6 * 2 ^ 8) 16);
    [| lia | Z.div_mod_to_equations; lia | lia].
  rewrite (lor_low_bits _ (byte.unsigned b7) 8);
    [| lia | Z.div_mod_to_equations; lia | lia].
  reflexivity.
Qed.

Lemma uint64FromBigEndian_range (d : byte8) : 0 <= uint64FromBigEndian d < 2 ^ 64.
Proof.
  destruct d as [[[[[[[b0 b1] b2] b3] b4] b5] b6] b7].
  rewrite be64_sum. byte_ranges. lia.
Qed.

Lemma uint64FromBigEndian_bigEndianUint64 (n : Z) :
  uint64FromBigEndian (bigEndianUint64 n) = wrap_uint64 n.
Proof.
  unfold bigEndianUint64. rewrite be64_sum, !unsigned_of_Z_mod.
  rewrite !Z.shiftr_div_pow2 by lia. unfold wrap_uint64.
  Z.div_mod_to_equations. lia.
Qed.

Lemma bigEndianUint64_uint64FromBigEndian (d : byte8) :
  bigEndianUint64 (uint64FromBigEndian d) = d.
Proof.
  destruct d as [[[[[[[b0 b1] b2] b3] b4] b5] b6] b7].
  rewrite be64_sum. unfold bigEndianUint64. byte_ranges.
  rewrite !Z.shiftr_div_pow2 by lia.
  repeat match goal with |- (_, _) = (_, _) => f_equal end;
    apply of_Z_eq; Z.div_mod_to_equations; lia.
Qed.

(** A 4-byte field holds the low 32 bits: the wrap-around of [int] does not
    show in it. *)
Lemma bigEndianInt_wrap_int (n : Z) : bigEndianInt (wrap_int n) = bigEndianInt n.
Proof.
  unfold bigEndianInt, wrap_int, wrap_int64.
  rewrite !Z.shiftr_div_pow2 by lia.
  repeat match goal with |- (_, _) = (_, _) => f_equal end;
    apply of_Z_congr; Z.div_mod_to_equations; lia.
Qed.

(** ** Indexing and slicing *)

Lemma len_nonneg {A} (s : list A) : 0 <= len s.
Proof. unfold len. lia. Qed.

Lemma len_app {A} (s t : list A) : len (s ++ t) = len s + len t.
Proof. unfold len. rewrite length_app. lia. Qed.

Lemma index_in_range (s : list byte) (i : Z) :
  0 <= i < len s -> index s i = Ret (nth (Z.to_nat i) s Byte.x00).
Proof.
  intros Hi. unfold index.
  destruct (Z.leb_spec 0 i); [| lia].
  destruct (Z.ltb_spec i (len s)); [| lia]. reflexivity.
Qed.

Lemma index_out_of_range (s : list byte) (i : Z) :
  i < 0 \/ len s <= i -> index s i = Panics IndexOutOfRange.
Proof.
  intros Hi. unfold index.
  destruct (Z.leb_spec 0 i); [| reflexivity].
  destruct (Z.ltb_spec i (len s)); [lia | reflexivity].
Qed.

(** ** The token engine *)

Lemma land_15_mod (z : Z) : Z.land z 15 = z mod 16.
Proof. change 15 with (Z.ones 4). rewrite Z.land_ones by lia. reflexivity. Qed.

Lemma land_127_mod (z : Z) : Z.land z 127 = z mod 128.
Proof. change 127 with (Z.ones 7). rewrite Z.land_ones by lia. reflexivity. Qed.

Lemma land_255_byte (b : byte) : Z.land (byte.unsigned b) 255 = byte.unsigned b.
Proof.
  change 255 with (Z.ones 8). rewrite Z.land_ones by lia.
  apply Z.mod_small. apply unsigned_byte_range.
Qed.

Lemma rfc4226_offset_range (mac : list byte) : 0 <= rfc4226_offset mac < 16.
Proof. unfold rfc4226_offset. apply Z.mod_pos_bound. lia. Qed.

Lemma rfc4226_value_range (mac : list byte) : 0 <= rfc4226_value mac < 2 ^ 31.
Proof.
  unfold rfc4226_value, byte_at.
  set (o := rfc4226_offset mac).
  pose proof (unsigned_byte_range (nth (Z.to_nat o) mac Byte.x00)).
  pose proof (unsigned_byte_range (nth (Z.to_nat (o + 1)) mac Byte.x00)).
  pose proof (unsigned_byte_range (nth (Z.to_nat (o + 2)) mac Byte.x00)).
  pose proof (unsigned_byte_range (nth (Z.to_nat (o + 3)) mac Byte.x00)).
  pose proof (Z.mod_pos_bound
                (byte.unsigned (nth (Z.to_nat o) mac Byte.x00)) 128).
  lia.
Qed.

(** On a digest of at least 19 bytes [truncateHash] does not panic, and what
    its shifts and masks build is the dynamic truncation of RFC 4226. *)
Lemma truncateHash_rfc4226 (mac : list byte) :
  19 <= len mac -> truncateHash mac (len mac) = Ret (rfc4226_value mac).
Proof.
  intros Hlen. unfold truncateHash.
  rewrite index_in_range by lia. cbn [obind].
  rewrite land_15_mod.
  fold (byte_at mac (len mac - 1)). fold (rfc4226_offset mac).
  pose proof (rfc4226_offset_range mac) as Ho.
  set (o := rfc4226_offset mac) in *.
  rewrite !wrap_uint8_small by lia.
  rewrite !index_in_range by lia. cbn [obind].
  f_equal. unfold rfc4226_value. fold o. unfold byte_at.
  set (b0 := nth (Z.to_nat o) mac Byte.x00).
  set (b1 := nth (Z.to_nat (o + 1)) mac Byte.x00).
  set (b2 := nth (Z.to_nat (o + 2)) mac Byte.x00).
  set (b3 := nth (Z.to_nat (o + 3)) mac Byte.x00).
  rewrite land_127_mod, !land_255_byte.
  pose proof (unsigned_byte_range b0). pose proof (unsigned_byte_range b1).
  pose proof (unsigned_byte_range b2). pose proof (unsigned_byte_range b3).
  pose proof (Z.mod_pos_bound (byte.unsigned b0) 128).
  rewrite !Z.shiftl_mul_pow2 by lia.
  rewrite !wrap_uint32_small by lia.
  rewrite (lor_low_bits _ (byte.unsigned b1 * 2 ^ 16) 24);
    [| lia | Z.div_mod_to_equations; lia | lia].
  rewrite (lor_low_bits _ (byte.unsigned b2 * 2 ^ 8) 16);
    [| lia | Z.div_mod_to_equations; lia | lia].
  rewrite (lor_low_bits _ (byte.unsigned b3) 8);
    [| lia | Z.div_mod_to_equations; lia | lia].
  reflexivity.
Qed.

(** ** Formatting *)

Lemma string_length_append (s t : string) :
  String.length (s ++ t) = (String.length s + String.length t)%nat.
Proof. induction s as [| c s IH]; cbn; [reflexivity | now rewrite IH]. Qed.

Lemma string_append_assoc (s t u : string) :
  ((s ++ t) ++ u = s ++ (t ++ u))%string.
Proof. induction s as [| c s IH]; cbn; [reflexivity | now rewrite IH]. Qed.

Lemma length_replicate (n : nat) (c : ascii) : String.length (replicate n c) = n.
Proof. induction n as [| n IH]; cbn; [reflexivity | now rewrite IH]. Qed.

Lemma digit_of_digit_char (d : Z) :
  0 <= d < 10 -> digit_of_ascii (digit_char d) = Some d.
Proof.
  intros Hd. unfold digit_of_ascii, digit_char.
  rewrite nat_ascii_embedding by lia.
  destruct (Z.leb_spec 48 (Z.of_nat (48 + Z.to_nat d))); [| lia].
  destruct (Z.leb_spec (Z.of_nat (48 + Z.to_nat d)) 57); [| lia].
  cbn [andb]. f_equal. lia.
Qed.

Lemma decimal_value_from_app (s t : string) (a : Z) :
  decimal_value_from a (s ++ t)
  = match decimal_value_from a s with
    | Some v => decimal_value_from v t
    | None => None
    end.
Proof.
  revert a. induction s as [| c s IH]; intros a; cbn; [reflexivity |].
  destruct (digit_of_ascii c); [apply IH | reflexivity].
Qed.

Lemma decimal_value_from_zeros (k : nat) (s : string) :
  decimal_value_from 0 (replicate k "0" ++ s) = decimal_value_from 0 s.
Proof. induction k as [| k IH]; cbn; [reflexivity | exact IH]. Qed.

(** With enough fuel for its digits, [format_uint] puts the digits of [n]
    before [acc]: at most [d] of them when [n < 10^d], and they read back
    as [n]. *)
Lemma format_uint_digits (fuel : nat) :
  forall (n : Z) (acc : string) (d : nat),
    (1 <= d <= fuel)%nat -> 0 <= n < 10 ^ Z.of_nat d ->
    exists s, format_uint fuel n acc = (s ++ acc)%string
              /\ (1 <= String.length s <= d)%nat
              /\ forall a, decimal_value_from a s
                           = Some (a * 10 ^ Z.of_nat (String.length s) + n).
Proof.
  induction fuel as [| fuel IH]; intros n acc d Hd Hn; [lia |].
  cbn [format_uint]. destruct (Z.ltb_spec n 10) as [Hlt | Hge].
  - exists (String (digit_char (n mod 10)) EmptyString).
    rewrite Z.mod_small by lia. cbn [append String.length].
    repeat split; try lia.
    intros a. cbn [decimal_value_from].
    rewrite digit_of_digit_char by lia. f_equal. lia.
  - destruct d as [| [| d]]; try lia.
    destruct (IH (n / 10) (String (digit_char (n mod 10)) acc) (S d))
      as (s & Hs & Hlen & Hval).
    + lia.
    + replace (Z.of_nat (S (S d))) with (Z.of_nat (S d) + 1) in Hn by lia.
      rewrite Z.pow_add_r in Hn by lia.
      split; [apply Z.div_pos; lia |].
      apply Z.div_lt_upper_bound; lia.
    + exists (s ++ String (digit_char (n mod 10)) EmptyString)%string.
      rewrite Hs, string_append_assoc. cbn [append].
      rewrite string_length_append. cbn [String.length].
      repeat split; try lia.
      intros a. rewrite decimal_value_from_app, Hval.
      cbn [decimal_value_from].
      pose proof (Z.mod_pos_bound n 10).
      rewrite digit_of_digit_char by lia. f_equal.
      replace (Z.of_nat (String.length s + 1)) with (Z.of_nat (String.length s) + 1) by lia.
      rewrite Z.pow_add_r by lia.
      pose proof (Z.div_mod n 10). lia.
Qed.

(** [%0<digits>d] of a number that has no more than [digits] digits is
    exactly [digits] characters long and reads back as the number. *)
Lemma Sprintf_0d_exact (digits n : Z) :
  1 <= digits <= 20 -> 0 <= n < 10 ^ digits ->
  Z.of_nat (String.length (Sprintf_0d digits n)) = digits
  /\ decimal_value (Sprintf_0d digits n) = Some n.
Proof.
  intros Hd Hn. unfold Sprintf_0d, FormatUint.
  destruct (format_uint_digits 20 n "" (Z.to_nat digits)) as (s & Hs & Hlen & Hval).
  - lia.
  - rewrite Z2Nat.id by lia. exact Hn.
  - rewrite Hs. replace (s ++ "")%string with s
      by (clear; induction s as [| c s IH]; cbn; [reflexivity | now rewrite <- IH]).
    destruct (Z.leb_spec 0 digits); [| lia].
    rewrite Z.abs_eq by lia. split.
    + rewrite string_length_append, length_replicate. lia.
    + unfold decimal_value. rewrite decimal_value_from_zeros, Hval. f_equal; lia.
Qed.

Section TokenEngine.
Context {E : Env}.
Hypothesis hmac_size : hmac_sized E.

(** C1: for every key, hash variant, counter and [digits] in 6..8,
    [calculateToken] returns a string of exactly [digits] decimal digits
    that reads as the RFC 4226 dynamic truncation of the HMAC modulo
    [10^digits]; the offset is the low nibble of the last HMAC byte and the
    value the 31-bit big-endian number at that offset. *)
Theorem calculateToken_rfc4226 (a : hash_New) (k counter : list byte) (digits : Z) :
  digits = 6 \/ digits = 7 \/ digits = 8 ->
  let mac := hmac_digest a k counter in
  let value := rfc4226_value mac in
  calculateToken counter digits (hmac_New a k)
  = Ret (Sprintf_0d digits (value mod 10 ^ digits))
  /\ Z.of_nat (String.length (Sprintf_0d digits (value mod 10 ^ digits))) = digits
  /\ decimal_value (Sprintf_0d digits (value mod 10 ^ digits))
     = Some (value mod 10 ^ digits)
  /\ 0 <= value < 2 ^ 31.
Proof.
  intros Hdigits mac value.
  pose proof (rfc4226_value_range mac) as Hrange. fold value in Hrange.
  assert (Hmod : 0 <= value mod 10 ^ digits < 10 ^ digits)
    by (apply Z.mod_pos_bound; destruct Hdigits as [-> | [-> | ->]]; lia).
  split; [| split; [| split]].
  - unfold calculateToken, hmac_New, Write, Sum. cbn [digest_of Size written app].
    rewrite <- (hmac_size a k counter).
    rewrite truncateHash_rfc4226
      by (rewrite hmac_size; destruct a; cbn; lia).
    cbn [obind]. fold mac. fold value. f_equal. f_equal.
    destruct Hdigits as [-> | [-> | ->]]; cbn [Z.eqb Pos.eqb];
      (rewrite Z.rem_mod_nonneg by lia);
      apply wrap_uint64_small; lia.
  - apply Sprintf_0d_exact; lia.
  - apply Sprintf_0d_exact; lia.
  - exact Hrange.
Qed.

End TokenEngine.

(** ** The time-step counter *)

Lemma float64_of_int64_exact (q : Z) : Z.abs q < 2 ^ 53 -> float64_of_int64 q = q.
Proof.
  intros Hq. unfold float64_of_int64.
  destruct (Z.ltb_spec (Z.abs q) (2 ^ 53)); [reflexivity | lia].
Qed.

(** Below 2^52 a [float64] holds the quotient, and its halves, exactly. *)
Lemma increment_quotient (ts stepSize : Z) :
  0 <= ts < 2 ^ 52 -> 0 < stepSize -> increment ts stepSize = Ret (ts / stepSize).
Proof.
  intros Hts Hstep. unfold increment.
  destruct (Z.eqb_spec stepSize 0) as [Hz | _]; [lia |].
  rewrite Z.quot_div_nonneg by lia.
  assert (Hq : 0 <= ts / stepSize < 2 ^ 53).
  { split; [apply Z.div_pos; lia |].
    apply Z.div_lt_upper_bound; [lia |]. nia. }
  rewrite wrap_int64_small by (unfold in_int64; lia).
  rewrite float64_of_int64_exact by lia.
  unfold round. rewrite wrap_uint64_small by lia. reflexivity.
Qed.

(** C5, as the code has it: for a Unix time that is not negative and is
    below 2^52 (where a [float64] holds the quotient and its halves
    exactly), and a positive step size, [increment] is the floor of the
    quotient, and the 8 big-endian bytes of the counter read back as that
    number; it maps (1438601387, 30) to 47953379. *)
Theorem increment_floor (unixSeconds stepSize : Z) :
  0 <= unixSeconds < 2 ^ 52 -> 0 < stepSize ->
  increment unixSeconds stepSize = Ret (unixSeconds / stepSize)
  /\ uint64FromBigEndian (bigEndianUint64 (unixSeconds / stepSize))
     = unixSeconds / stepSize
  /\ increment 1438601387 30 = Ret 47953379.
Proof.
  intros Hts Hstep. split; [| split].
  - apply increment_quotient; assumption.
  - rewrite uint64FromBigEndian_bigEndianUint64. apply wrap_uint64_small.
    split; [apply Z.div_pos; lia |].
    apply Z.div_lt_upper_bound; [lia |]. nia.
  - reflexivity.
Qed.

Lemma increment_floor_witness :
  0 <= 59 < 2 ^ 52 /\ 0 < 30
  /\ increment 59 30 = Ret (59 / 30)
  /\ uint64FromBigEndian (bigEndianUint64 (59 / 30)) = 59 / 30
  /\ increment 1438601387 30 = Ret 47953379.
Proof.
  split; [lia |]. split; [lia |]. apply (increment_floor 59 30); lia.
Defined.

(** C5, as the specification states it, fails before 1970: Go's division
    truncates, so one second before the epoch is in step 0 and not in step -1,
    whose unsigned encoding would be 2^64 - 1. *)
Lemma increment_before_epoch_not_floor :
  increment (-1) 30 = Ret 0
  /\ (-1) / 30 = -1
  /\ increment (-1) 30 <> Ret ((-1) / 30)
  /\ increment (-1) 30 <> Ret (wrap_uint64 ((-1) / 30)).
Proof. repeat split; vm_compute; discriminate. Qed.

(** Above 2^53 the conversion to [float64] rounds the quotient. *)
Example increment_rounds_large_quotient :
  increment (2 ^ 53 + 1) 1 = Ret (2 ^ 53).
Proof. reflexivity. Qed.

(** [incrementCounter] writes the floor of the shifted time over the step
    size, for a time in the range of [increment_quotient]. *)
Lemma incrementCounter_floor {E : Env} (index : Z) (w : World) :
  let otp := cred w in
  let shifted :=
    time_Unix_of
      (time_Add
         (time_Add (clock (reads w))
            (wrap_int64 (wrap_int (index * stepSize otp) * time_Second)))
         (wrap_int64 (wrap_int (clientOffset otp * stepSize otp) * time_Second))) in
  0 <= shifted < 2 ^ 52 -> 0 < stepSize otp ->
  incrementCounter index w
  = Ret (tt, {| cred := set_counter otp (bigEndianUint64 (shifted / stepSize otp));
                reads := S (reads w) |}).
Proof.
  intros otp shifted Hshifted Hstep.
  unfold incrementCounter, mbind, this, time_Now, lift, assign.
  cbn [cred reads]. fold otp. fold shifted.
  rewrite increment_quotient by assumption. reflexivity.
Qed.

(** ** The verification state machine *)

Lemma eqb_empty_false (s : string) : s <> ""%string -> String.eqb s "" = false.
Proof. intros Hs. apply String.eqb_neq. exact Hs. Qed.

Lemma wrap_backoff : wrap_int64 (BACKOFF_MINUTES * time_Minute) = backoff.
Proof. reflexivity. Qed.

Section Validation.
Context {E : Env}.

Lemma Validate_empty (w : World) : Validate "" w = Ret (Some err_empty, w).
Proof. reflexivity. Qed.

Ltac decide_guard :=
  cbv beta iota; cbn [cred reads negb];
  match goal with
  | |- context [Z.leb ?a ?b] => destruct (Z.leb_spec a b); try lia
  | |- context [Z.ltb ?a ?b] => destruct (Z.ltb_spec a b); try lia
  end.

Lemma Validate_open (userCode : string) (w : World) :
  userCode <> ""%string ->
  totalVerificationFailures (cred w) < MAX_FAILURES ->
  Validate userCode w = compare_tokens userCode w.
Proof.
  intros Hcode Hopen. unfold Validate.
  rewrite eqb_empty_false by assumption.
  unfold mbind, this, mret.
  repeat decide_guard. reflexivity.
Qed.

Lemma Validate_locked (userCode : string) (w : World) :
  userCode <> ""%string ->
  MAX_FAILURES <= totalVerificationFailures (cred w) ->
  clock (reads w) <= lastVerificationTime (cred w) + backoff ->
  Validate userCode w
  = Ret (Some err_locked, {| cred := cred w; reads := S (reads w) |}).
Proof.
  intros Hcode Hmax Hnow. unfold Validate.
  rewrite eqb_empty_false by assumption.
  unfold mbind, this, mret, validBackoffTime, time_Now, mbind, mret.
  rewrite wrap_backoff. unfold time_After, time_Add.
  repeat decide_guard. reflexivity.
Qed.

Lemma Validate_expired (userCode : string) (w : World) :
  userCode <> ""%string ->
  MAX_FAILURES <= totalVerificationFailures (cred w) ->
  lastVerificationTime (cred w) + backoff < clock (reads w) ->
  lastVerificationTime (cred w) + backoff < clock (S (reads w)) ->
  Validate userCode w
  = compare_tokens userCode
      {| cred := set_totalVerificationFailures (cred w) 0;
         reads := S (S (reads w)) |}.
Proof.
  intros Hcode Hmax Hnow1 Hnow2. unfold Validate.
  rewrite eqb_empty_false by assumption.
  unfold mbind, this, mret, validBackoffTime, time_Now, mbind, mret, assign.
  rewrite wrap_backoff. unfold time_After, time_Add.
  repeat decide_guard. reflexivity.
Qed.

(** C8: [Validate("")] returns the empty-token error and leaves the
    credential (and the clock) as it was, whatever the credential is. *)
Theorem Validate_empty_code (w : World) :
  Validate "" w = Ret (Some err_empty, w).
Proof. apply Validate_empty. Qed.

(** C10: the empty-input check comes first: a credential that is locked
    (three failures or more, inside the backoff window) answers the empty
    string with the empty-token error, while any other code gets the
    lock-down error. *)
Theorem Validate_empty_before_lockout (w : World) (userCode : string) :
  MAX_FAILURES <= totalVerificationFailures (cred w) ->
  clock (reads w) <= lastVerificationTime (cred w) + backoff ->
  userCode <> ""%string ->
  Validate "" w = Ret (Some err_empty, w)
  /\ Validate userCode w
     = Ret (Some err_locked, {| cred := cred w; reads := S (reads w) |})
  /\ err_empty <> err_locked.
Proof.
  intros Hmax Hnow Hcode. split; [| split].
  - apply Validate_empty.
  - apply Validate_locked; assumption.
  - discriminate.
Qed.

(** C4, as the code has it: with three failures or more, a non-empty code
  is refused with the lock-down error and no field changes while
  [now - lastVerificationTime <= 5 minutes]; once the clock is more than
  5 minutes past the last verification (and has not gone back at the
  second reading that [Validate] takes), the failures are reset to 0 and
  the validation goes on as that of the open credential with no
  failures. *)
Theorem Validate_lockout (w : World) (userCode : string) :
userCode <> ""%string ->
MAX_FAILURES <= totalVerificationFailures (cred w) ->
(clock (reads w) - lastVerificationTime (cred w) <= backoff ->
 Validate userCode w
 = Ret (Some err_locked, {| cred := cred w; reads := S (reads w) |}))
/\ (backoff < clock (reads w) - lastVerificationTime (cred w) ->
    clock (reads w) <= clock (S (reads w)) ->
    let reset := {| cred := set_totalVerificationFailures (cred w) 0;
                    reads := S (S (reads w)) |} in
    Validate userCode w = compare_tokens userCode reset
    /\ Validate userCode w = Validate userCode reset).
Proof.
intros Hcode Hmax. split.
- intros Hnow. apply Validate_locked; [assumption | assumption | lia].
- intros Hnow Hmono reset.
  assert (Hrun : Validate userCode w = compare_tokens userCode reset)
    by (apply Validate_expired; [assumption | assumption | lia | lia]).
  split; [exact Hrun |].
  rewrite Hrun. symmetry. apply Validate_open; [assumption | reflexivity].
Qed.

End Validation.

Section Matching.
Context {E : Env}.
Hypothesis hmac_size : hmac_sized E.

Lemma calculateToken_returns (a : hash_New) (k cnt : list byte) (d : Z) :
  exists code, calculateToken cnt d (hmac_New a k) = Ret code.
Proof.
  unfold calculateToken, hmac_New, Write, Sum.
  cbn [digest_of Size written app].
  rewrite <- (hmac_size a k cnt).
  rewrite truncateHash_rfc4226
    by (rewrite hmac_size; destruct a; cbn; lia).
  cbn [obind]. eexists. reflexivity.
Qed.

(** A credential whose step size is not zero gets its token: the call
    returns, reads the clock once and writes the counter only. *)
Lemma calculateTOTP_returns (i : Z) (w : World) :
  stepSize (cred w) <> 0 ->
  exists code c,
    calculateTOTP i w
    = Ret (code, {| cred := set_counter (cred w) c; reads := S (reads w) |}).
Proof.
  intros Hstep.
  unfold calculateTOTP, incrementCounter, mbind, this, time_Now, lift, assign.
  cbn [cred reads]. unfold increment.
  destruct (Z.eqb_spec (stepSize (cred w)) 0) as [Hz | _]; [contradiction |].
  cbn [cred reads counter set_counter digits].
  match goal with
  | |- context [calculateToken ?cnt ?d (if ?c1 then ?h1 else if ?c2 then ?h2 else ?h3)] =>
      assert (Hret : exists code,
                 calculateToken cnt d (if c1 then h1 else if c2 then h2 else h3)
                 = Ret code)
        by (destruct c1; [| destruct c2]; apply calculateToken_returns)
  end.
  destruct Hret as [code Hcode]. rewrite Hcode.
  eexists. eexists. reflexivity.
Qed.

Lemma set_counter_frame (otp : totp) (c : byte8) :
  clientOffset (set_counter otp c) = clientOffset otp
  /\ totalVerificationFailures (set_counter otp c) = totalVerificationFailures otp
  /\ lastVerificationTime (set_counter otp c) = lastVerificationTime otp
  /\ stepSize (set_counter otp c) = stepSize otp.
Proof. repeat split. Qed.

(** The three tokens of a validation: they are computed at three
    successive readings of the clock, and only the counter is written. *)
Lemma three_tokens (w : World) :
  stepSize (cred w) <> 0 ->
  exists c0 c1 c2 w1 w2 w3,
    calculateTOTP (-1) w = Ret (c0, w1)
    /\ calculateTOTP 0 w1 = Ret (c1, w2)
    /\ calculateTOTP 1 w2 = Ret (c2, w3)
    /\ reads w3 = S (S (S (reads w)))
    /\ cred w3 = set_counter (cred w) (counter (cred w3)).
Proof.
  intros Hstep.
  destruct (calculateTOTP_returns (-1) w Hstep) as (c0 & n0 & H0).
  set (w1 := {| cred := set_counter (cred w) n0; reads := S (reads w) |}) in *.
  destruct (calculateTOTP_returns 0 w1 Hstep) as (c1 & n1 & H1).
  set (w2 := {| cred := set_counter (cred w1) n1; reads := S (reads w1) |}) in *.
  destruct (calculateTOTP_returns 1 w2 Hstep) as (c2 & n2 & H2).
  exists c0, c1, c2, w1, w2.
  eexists. repeat split; try eassumption; reflexivity.
Qed.

Lemma compare_tokens_cases (userCode : string) (w w1 w2 w3 : World)
    (c0 c1 c2 : string) :
  calculateTOTP (-1) w = Ret (c0, w1) ->
  calculateTOTP 0 w1 = Ret (c1, w2) ->
  calculateTOTP 1 w2 = Ret (c2, w3) ->
  compare_tokens userCode w
  = if String.eqb (token_hash c1) (token_hash userCode)
    then Ret (None, w3)
    else if String.eqb (token_hash c0) (token_hash userCode)
    then Ret (None, {| cred := set_clientOffset (cred w3) (-1);
                       reads := reads w3 |})
    else if String.eqb (token_hash c2) (token_hash userCode)
    then Ret (None, {| cred := set_clientOffset (cred w3) 1;
                       reads := reads w3 |})
    else Ret (Some err_mismatch,
              {| cred :=
                   set_lastVerificationTime
                     (set_totalVerificationFailures (cred w3)
                        (wrap_int (totalVerificationFailures (cred w3) + 1)))
                     (clock (reads w3));
                 reads := S (reads w3) |}).
Proof.
  intros H0 H1 H2. unfold compare_tokens, mbind.
  rewrite H0, H1, H2.
  destruct (String.eqb (token_hash c1) (token_hash userCode)); [reflexivity |].
  destruct (String.eqb (token_hash c0) (token_hash userCode)); [reflexivity |].
  destruct (String.eqb (token_hash c2) (token_hash userCode)); reflexivity.
Qed.

End Matching.

Section ClientOffset.
Context {E : Env}.

(** Whenever [calculateTOTP] returns, it has read the clock once and
    written the counter, and nothing else. *)
Lemma calculateTOTP_frame (i : Z) (w w' : World) (code : string) :
  calculateTOTP i w = Ret (code, w') ->
  exists c, w' = {| cred := set_counter (cred w) c; reads := S (reads w) |}.
Proof.
  unfold calculateTOTP, incrementCounter, mbind, this, time_Now, lift, assign.
  cbn [cred reads].
  destruct (increment _ _) as [n |]; [| discriminate].
  cbn [cred reads].
  destruct (calculateToken _ _ _) as [s |]; [| discriminate].
  intros H. inversion H. eexists. reflexivity.
Qed.

Lemma compare_tokens_clientOffset (userCode : string) (w0 w : World)
    (res : option error * World) :
  clientOffset (cred w) = clientOffset (cred w0) ->
  compare_tokens userCode w = Ret res ->
  offset_kept_or_resynchronized w0 res.
Proof.
  intros Hsame Hrun. unfold offset_kept_or_resynchronized.
  destruct (calculateTOTP (-1) w) as [[c0 w1] |] eqn:H0;
    [| unfold compare_tokens, mbind in Hrun; rewrite H0 in Hrun; discriminate].
  destruct (calculateTOTP 0 w1) as [[c1 w2] |] eqn:H1;
    [| unfold compare_tokens, mbind in Hrun; rewrite H0, H1 in Hrun; discriminate].
  destruct (calculateTOTP 1 w2) as [[c2 w3] |] eqn:H2;
    [| unfold compare_tokens, mbind in Hrun; rewrite H0, H1, H2 in Hrun; discriminate].
  rewrite (compare_tokens_cases userCode w w1 w2 w3 c0 c1 c2 H0 H1 H2) in Hrun.
  apply calculateTOTP_frame in H0, H1, H2.
  destruct H0 as [n0 ->]. destruct H1 as [n1 ->]. destruct H2 as [n2 ->].
  cbn [cred reads] in Hrun.
  destruct (String.eqb (token_hash c1) (token_hash userCode));
    [inversion Hrun; left; exact Hsame |].
  destruct (String.eqb (token_hash c0) (token_hash userCode));
    [inversion Hrun; right; cbn; auto |].
  destruct (String.eqb (token_hash c2) (token_hash userCode));
    [inversion Hrun; right; cbn; auto |].
  inversion Hrun. left. exact Hsame.
Qed.

(** On every path of [Validate] the client offset stays as it was, except
    where the call succeeds and sets it to -1 or to 1. *)
Lemma Validate_clientOffset (userCode : string) (w : World)
    (res : option error * World) :
  Validate userCode w = Ret res -> offset_kept_or_resynchronized w res.
Proof.
  unfold Validate.
  destruct (String.eqb userCode "");
    [intros H; inversion H; left; reflexivity |].
  unfold mbind, this, mret, validBackoffTime, time_Now, mbind, mret, assign.
  intros H.
  repeat (cbv beta iota in H; cbn [cred reads negb] in H;
          match type of H with
          | context [if ?b then _ else _] => destruct b
          end);
    cbv beta iota in H; cbn [cred reads negb] in H;
    try (inversion H; left; reflexivity);
    (eapply compare_tokens_clientOffset; [| exact H]; reflexivity).
Qed.

(** [OTP] does not touch the client offset. *)
Lemma OTP_clientOffset (w w' : World) (code : string) :
  OTP w = Ret (code, w') -> clientOffset (cred w') = clientOffset (cred w).
Proof.
  intros H. apply calculateTOTP_frame in H. destruct H as [c ->]. reflexivity.
Qed.

End ClientOffset.

Section Outcomes.
Context {E : Env}.
Hypothesis hmac_size : hmac_sized E.

(** What the three computations of a validation leave behind: three
    readings of the clock and a new counter. *)
Lemma three_tokens_frame (w w1 w2 w3 : World) (c0 c1 c2 : string) :
  calculateTOTP (-1) w = Ret (c0, w1) ->
  calculateTOTP 0 w1 = Ret (c1, w2) ->
  calculateTOTP 1 w2 = Ret (c2, w3) ->
  reads w3 = S (S (S (reads w)))
  /\ cred w3 = set_counter (cred w) (counter (cred w3)).
Proof.
  intros H0 H1 H2.
  apply calculateTOTP_frame in H0, H1, H2.
  destruct H0 as [n0 ->]. destruct H1 as [n1 ->]. destruct H2 as [n2 ->].
  split; reflexivity.
Qed.

(** C6, as the code has it: in the open state, with a code that is not
    empty and a step size that is not 0, the three tokens are computed, and
    they are compared in the order 0, -1, +1.  A code equal to the token of
    step 0 succeeds and leaves the client offset as it was; a code equal to
    the token of step -1 whose digest is not that of the token of step 0
    succeeds and leaves the client offset at -1; a code equal to the token
    of step +1 whose digest is that of neither of the two others succeeds
    and leaves the client offset at 1.  The failure count of the credential
    is the same after each of the three.  No other path of [Validate], and
    no path of [OTP], changes the client offset. *)
Theorem Validate_match (w : World) (userCode : string) :
  userCode <> ""%string ->
  totalVerificationFailures (cred w) < MAX_FAILURES ->
  stepSize (cred w) <> 0 ->
  (exists c0 c1 c2 w1 w2 w3,
      calculateTOTP (-1) w = Ret (c0, w1)
      /\ calculateTOTP 0 w1 = Ret (c1, w2)
      /\ calculateTOTP 1 w2 = Ret (c2, w3))
  /\ (forall c0 c1 c2 w1 w2 w3,
         calculateTOTP (-1) w = Ret (c0, w1) ->
         calculateTOTP 0 w1 = Ret (c1, w2) ->
         calculateTOTP 1 w2 = Ret (c2, w3) ->
         (userCode = c1 ->
          exists w',
            Validate userCode w = Ret (None, w')
            /\ clientOffset (cred w') = clientOffset (cred w)
            /\ totalVerificationFailures (cred w')
               = totalVerificationFailures (cred w))
         /\ (userCode = c0 ->
             token_hash c1 <> token_hash userCode ->
             exists w',
               Validate userCode w = Ret (None, w')
               /\ clientOffset (cred w') = -1
               /\ totalVerificationFailures (cred w')
                  = totalVerificationFailures (cred w))
         /\ (userCode = c2 ->
             token_hash c1 <> token_hash userCode ->
             token_hash c0 <> token_hash userCode ->
             exists w',
               Validate userCode w = Ret (None, w')
               /\ clientOffset (cred w') = 1
               /\ totalVerificationFailures (cred w')
                  = totalVerificationFailures (cred w)))
  /\ (forall code v res,
         Validate code v = Ret res -> offset_kept_or_resynchronized v res)
  /\ (forall v v' code,
         OTP v = Ret (code, v') ->
         clientOffset (cred v') = clientOffset (cred v)).
Proof.
  intros Hcode Hopen Hstep. split; [| split; [| split]].
  - destruct (three_tokens hmac_size w Hstep)
      as (c0 & c1 & c2 & w1 & w2 & w3 & H0 & H1 & H2 & _).
    exists c0, c1, c2, w1, w2, w3. repeat split; assumption.
  - intros c0 c1 c2 w1 w2 w3 H0 H1 H2.
    pose proof (compare_tokens_cases userCode w w1 w2 w3 c0 c1 c2 H0 H1 H2)
      as Hcases.
    rewrite <- (Validate_open userCode w Hcode Hopen) in Hcases.
    destruct (three_tokens_frame w w1 w2 w3 c0 c1 c2 H0 H1 H2)
      as [_ Hcred].
    split; [| split].
    + intros ->. rewrite Hcases, String.eqb_refl.
      eexists. split; [reflexivity |].
      rewrite Hcred. split; reflexivity.
    + intros -> Hn1. rewrite Hcases.
      apply String.eqb_neq in Hn1. rewrite Hn1, String.eqb_refl.
      eexists. split; [reflexivity |].
      cbn [cred]. rewrite Hcred. split; reflexivity.
    + intros -> Hn1 Hn0. rewrite Hcases.
      apply String.eqb_neq in Hn1, Hn0.
      rewrite Hn1, Hn0, String.eqb_refl.
      eexists. split; [reflexivity |].
      cbn [cred]. rewrite Hcred. split; reflexivity.
  - intros code v res. apply Validate_clientOffset.
  - intros v v' code. apply OTP_clientOffset.
Qed.

(** C7: in the open state, with a code that is not empty and a step size
    that is not 0, the three tokens are computed, and a code whose digest
    is that of none of them gets the mismatch error; the credential then
    has one failure more than before, and the time of its last verification
    is the reading of the clock taken then, the fourth of the call.  The
    client offset, the key, the digits, the issuer, the account, the step
    size and the hash stay as they were. *)
Theorem Validate_mismatch (w : World) (userCode : string) :
  userCode <> ""%string ->
  - 2 ^ 63 <= totalVerificationFailures (cred w) < MAX_FAILURES ->
  stepSize (cred w) <> 0 ->
  (exists c0 c1 c2 w1 w2 w3,
      calculateTOTP (-1) w = Ret (c0, w1)
      /\ calculateTOTP 0 w1 = Ret (c1, w2)
      /\ calculateTOTP 1 w2 = Ret (c2, w3))
  /\ (forall c0 c1 c2 w1 w2 w3,
         calculateTOTP (-1) w = Ret (c0, w1) ->
         calculateTOTP 0 w1 = Ret (c1, w2) ->
         calculateTOTP 1 w2 = Ret (c2, w3) ->
         token_hash c0 <> token_hash userCode ->
         token_hash c1 <> token_hash userCode ->
         token_hash c2 <> token_hash userCode ->
         exists w',
           Validate userCode w = Ret (Some err_mismatch, w')
           /\ totalVerificationFailures (cred w')
              = totalVerificationFailures (cred w) + 1
           /\ lastVerificationTime (cred w') = clock (3 + reads w)
           /\ reads w' = (4 + reads w)%nat
           /\ clientOffset (cred w') = clientOffset (cred w)
           /\ key (cred w') = key (cred w)
           /\ digits (cred w') = digits (cred w)
           /\ issuer (cred w') = issuer (cred w)
           /\ account (cred w') = account (cred w)
           /\ stepSize (cred w') = stepSize (cred w)
           /\ hashFunction (cred w') = hashFunction (cred w)).
Proof.
  intros Hcode Hopen Hstep. split.
  - destruct (three_tokens hmac_size w Hstep)
      as (c0 & c1 & c2 & w1 & w2 & w3 & H0 & H1 & H2 & _).
    exists c0, c1, c2, w1, w2, w3. repeat split; assumption.
  - intros c0 c1 c2 w1 w2 w3 H0 H1 H2 Hn0 Hn1 Hn2.
    destruct (three_tokens_frame w w1 w2 w3 c0 c1 c2 H0 H1 H2)
      as [Hreads Hcred].
    rewrite (Validate_open userCode w Hcode) by lia.
    rewrite (compare_tokens_cases userCode w w1 w2 w3 c0 c1 c2 H0 H1 H2).
    apply String.eqb_neq in Hn0, Hn1, Hn2. rewrite Hn0, Hn1, Hn2.
    eexists. split; [reflexivity |].
    cbn [cred reads]. rewrite Hreads, Hcred.
    cbn [totalVerificationFailures lastVerificationTime clientOffset key
         digits issuer account stepSize hashFunction
         set_counter set_totalVerificationFailures set_lastVerificationTime].
    unfold wrap_int. rewrite wrap_int64_small
      by (unfold in_int64, MAX_FAILURES in *; lia).
    repeat split.
Qed.

End Outcomes.

(** ** The codec *)

Lemma len_bytes_of_byte4 (a : byte4) : len (bytes_of_byte4 a) = 4.
Proof. destruct a as [[[b0 b1] b2] b3]. reflexivity. Qed.

Lemma len_bytes_of_byte8 (a : byte8) : len (bytes_of_byte8 a) = 8.
Proof. destruct a as [[[[[[[b0 b1] b2] b3] b4] b5] b6] b7]. reflexivity. Qed.

Lemma array4_bytes (a : byte4) : array4 (bytes_of_byte4 a) = Ret a.
Proof. destruct a as [[[b0 b1] b2] b3]. reflexivity. Qed.

Lemma array8_bytes (a : byte8) : array8 (bytes_of_byte8 a) = Ret a.
Proof. destruct a as [[[[[[[b0 b1] b2] b3] b4] b5] b6] b7]. reflexivity. Qed.

(** What [ToBytes] writes is the layout, and it never returns an error. *)
Lemma ToBytes_layout (otp : totp) : ToBytes otp = (layout otp, None).
Proof.
  unfold ToBytes, layout, or_return, Buffer_Write, Buffer_WriteString, getIntCounter.
  cbn [fst snd].
  rewrite bigEndianInt_wrap_int, bigEndianUint64_uint64FromBigEndian.
  unfold hashType_of.
  replace (4 + 4 + len (key otp) + 8 + 4 + 4
           + len (list_byte_of_string (issuer otp)) + 4
           + len (list_byte_of_string (account otp)) + 4 + 4 + 4 + 8 + 4)
    with (52 + len (key otp) + len (list_byte_of_string (issuer otp))
          + len (list_byte_of_string (account otp))) by lia.
  destruct (hashFunction otp =? crypto_SHA256);
    [| destruct (hashFunction otp =? crypto_SHA512)];
    cbn [fst snd]; rewrite <- !app_assoc; reflexivity.
Qed.

Lemma len_layout (otp : totp) :
  len (layout otp)
  = 52 + len (key otp) + len (list_byte_of_string (issuer otp))
    + len (list_byte_of_string (account otp)).
Proof.
  unfold layout. cbv zeta.
  rewrite !len_app, !len_bytes_of_byte4, !len_bytes_of_byte8. lia.
Qed.

(** C9, as the code has it: [ToBytes] always returns a nil error, and its
    output is 52 + keySize + issuerSize + accountSize bytes long (the fixed
    fields take 52 bytes), which is the number written, big-endian, in its
    first four bytes. *)
Theorem ToBytes_length (otp : totp) :
  snd (ToBytes otp) = None
  /\ len (fst (ToBytes otp))
     = 52 + len (key otp) + len (list_byte_of_string (issuer otp))
       + len (list_byte_of_string (account otp))
  /\ firstn 4 (fst (ToBytes otp))
     = bytes_of_byte4 (bigEndianInt (len (fst (ToBytes otp))))
  /\ array4 (firstn 4 (fst (ToBytes otp)))
     = Ret (bigEndianInt (len (fst (ToBytes otp))))
  /\ intFromBigEndian (bigEndianInt (len (fst (ToBytes otp))))
     = wrap_int32 (len (fst (ToBytes otp))).
Proof.
  rewrite ToBytes_layout. cbn [fst snd].
  assert (Hfirst : firstn 4 (layout otp)
                   = bytes_of_byte4 (bigEndianInt (len (layout otp)))).
  { rewrite len_layout. unfold layout. cbv zeta.
    match goal with
    | |- firstn 4 (bytes_of_byte4 ?a ++ ?rest) = _ =>
        generalize rest; destruct a as [[[b0 b1] b2] b3]
    end.
    reflexivity. }
  repeat split.
  - apply len_layout.
  - exact Hfirst.
  - rewrite Hfirst. apply array4_bytes.
  - apply intFromBigEndian_bigEndianInt.
Qed.

(** C9, as the specification states it, gives 44 for the fixed part; the
    record of an empty credential is 52 bytes long. *)
Lemma ToBytes_length_not_44 :
  len (fst (ToBytes new_totp)) = 52
  /\ len (fst (ToBytes new_totp))
     <> 44 + len (key new_totp) + len (list_byte_of_string (issuer new_totp))
        + len (list_byte_of_string (account new_totp)).
Proof. split; vm_compute; [reflexivity | discriminate]. Qed.

Lemma slice_field (B pre m post : list byte) (lo hi : Z) :
  B = pre ++ m ++ post -> lo = len pre -> hi = lo + len m ->
  slice B lo hi = Ret m.
Proof.
  intros -> -> ->. unfold slice.
  pose proof (len_nonneg pre). pose proof (len_nonneg m).
  pose proof (len_nonneg post).
  rewrite !len_app.
  destruct (Z.leb_spec 0 (len pre)); [| lia].
  destruct (Z.leb_spec (len pre) (len pre + len m)); [| lia].
  destruct (Z.leb_spec (len pre + len m) (len pre + (len m + len post))); [| lia].
  cbn [andb]. f_equal.
  replace (Z.to_nat (len pre)) with (List.length pre) by (unfold len; lia).
  replace (Z.to_nat (len pre + len m - len pre)) with (List.length m)
    by (unfold len; lia).
  rewrite skipn_app, skipn_all, Nat.sub_diag. cbn [skipn app].
  rewrite firstn_app, firstn_all, Nat.sub_diag. cbn [firstn].
  apply app_nil_r.
Qed.

Ltac len_solve :=
  rewrite ?len_app, ?len_bytes_of_byte4, ?len_bytes_of_byte8;
  try (unfold len; cbn [List.length]); unfold len in *; lia.

Ltac take_field pre m :=
  match goal with
  | |- context [slice ?B ?lo ?hi] =>
      let H := fresh "Hslice" in
      assert (H : slice B lo hi = Ret m)
        by (eapply (slice_field B pre m);
            [ rewrite <- ?app_assoc; reflexivity | len_solve | len_solve ]);
      rewrite H; clear H; cbn [obind]
  end.

Lemma Reader_Read_header (hdr body : list byte) :
  len hdr = 4 ->
  Reader_Read (bytes_NewReader (hdr ++ body)) (repeat Byte.x00 4)
  = ({| r_s := hdr ++ body; r_i := 4 |}, hdr, (4, None)).
Proof.
  intros Hhdr. unfold Reader_Read, bytes_NewReader. cbn [r_s r_i].
  pose proof (len_nonneg body). rewrite len_app.
  destruct (Z.leb_spec (len hdr + len body) 0); [lia |].
  cbn [Z.to_nat skipn].
  change (len (repeat Byte.x00 4)) with 4.
  rewrite len_app, Z.min_l by lia.
  change (Z.to_nat 4) with 4%nat.
  replace 4%nat with (List.length hdr) at 1 by (unfold len in Hhdr; lia).
  rewrite firstn_app, firstn_all, Nat.sub_diag. cbn [firstn skipn repeat].
  rewrite !app_nil_r. reflexivity.
Qed.

Lemma Reader_Read_body (hdr body : list byte) :
  len hdr = 4 -> 0 < len body ->
  Reader_Read {| r_s := hdr ++ body; r_i := 4 |}
    (repeat Byte.x00 (Z.to_nat (len body)))
  = ({| r_s := hdr ++ body; r_i := 4 + len body |}, body, (len body, None)).
Proof.
  intros Hhdr Hbody. unfold Reader_Read. cbn [r_s r_i].
  rewrite len_app.
  destruct (Z.leb_spec (len hdr + len body) 4); [lia |].
  replace (Z.to_nat 4) with (List.length hdr) by (unfold len in Hhdr; lia).
  rewrite skipn_app, skipn_all, Nat.sub_diag. cbn [skipn app].
  assert (Hrep : len (repeat Byte.x00 (Z.to_nat (len body))) = len body)
    by (unfold len; rewrite repeat_length; lia).
  rewrite Hrep, Z.min_id.
  replace (Z.to_nat (len body)) with (List.length body) by (unfold len; lia).
  rewrite firstn_all, skipn_all2 by (rewrite repeat_length; lia).
  rewrite app_nil_r. reflexivity.
Qed.

(** Decoding a buffer that has the layout gives the fields back. *)
Lemma TOTPFromBytes_of_fields
    (t kS : byte4) (k : list byte) (c : byte8) (dg iS : byte4)
    (iss : list byte) (aS : byte4) (acc : list byte) (st off fl : byte4)
    (tm : byte8) (hs : byte4) :
  let body :=
    bytes_of_byte4 kS ++ k ++ bytes_of_byte8 c ++ bytes_of_byte4 dg
    ++ bytes_of_byte4 iS ++ iss ++ bytes_of_byte4 aS ++ acc
    ++ bytes_of_byte4 st ++ bytes_of_byte4 off ++ bytes_of_byte4 fl
    ++ bytes_of_byte8 tm ++ bytes_of_byte4 hs in
  intFromBigEndian t = 4 + len body ->
  intFromBigEndian kS = len k ->
  intFromBigEndian iS = len iss ->
  intFromBigEndian aS = len acc ->
  TOTPFromBytes (bytes_of_byte4 t ++ body)
  = Ret ({| key := k; counter := c; digits := intFromBigEndian dg;
            issuer := string_of_list_byte iss;
            account := string_of_list_byte acc;
            stepSize := intFromBigEndian st;
            clientOffset := intFromBigEndian off;
            totalVerificationFailures := intFromBigEndian fl;
            lastVerificationTime := time_Unix (wrap_int64 (uint64FromBigEndian tm));
            hashFunction :=
              if intFromBigEndian hs =? 1 then crypto_SHA256
              else if intFromBigEndian hs =? 2 then crypto_SHA512
                   else crypto_SHA1 |}, None).
Proof.
  intros body Ht HkS HiS HaS.
  assert (Hbody : 48 <= len body).
  { subst body. pose proof (len_nonneg k). pose proof (len_nonneg iss).
    pose proof (len_nonneg acc).
    rewrite !len_app, !len_bytes_of_byte4, !len_bytes_of_byte8. lia. }
  unfold TOTPFromBytes.
  change (make 4) with (Ret (repeat Byte.x00 4)). cbn [obind].
  rewrite Reader_Read_header by apply len_bytes_of_byte4.
  cbn [is_other_error]. rewrite array4_bytes. cbn [obind].
  rewrite Ht. replace (4 + len body - 4) with (len body) by lia.
  unfold make. destruct (Z.leb_spec 0 (len body)); [| lia]. cbn [obind].
  rewrite Reader_Read_body by (rewrite ?len_bytes_of_byte4; lia).
  cbn [is_other_error]. unfold read_fields. cbv zeta.
  subst body.
  take_field (@nil byte) (bytes_of_byte4 kS).
  rewrite array4_bytes; cbn [obind]. rewrite HkS.
  take_field (bytes_of_byte4 kS) k.
  take_field (bytes_of_byte4 kS ++ k) (bytes_of_byte8 c).
  rewrite array8_bytes; cbn [obind].
  take_field (bytes_of_byte4 kS ++ k ++ bytes_of_byte8 c) (bytes_of_byte4 dg).
  rewrite array4_bytes; cbn [obind].
  take_field (bytes_of_byte4 kS ++ k ++ bytes_of_byte8 c ++ bytes_of_byte4 dg)
    (bytes_of_byte4 iS).
  rewrite array4_bytes; cbn [obind]. rewrite HiS.
  take_field (bytes_of_byte4 kS ++ k ++ bytes_of_byte8 c ++ bytes_of_byte4 dg
              ++ bytes_of_byte4 iS) iss.
  take_field (bytes_of_byte4 kS ++ k ++ bytes_of_byte8 c ++ bytes_of_byte4 dg
              ++ bytes_of_byte4 iS ++ iss) (bytes_of_byte4 aS).
  rewrite array4_bytes; cbn [obind]. rewrite HaS.
  take_field (bytes_of_byte4 kS ++ k ++ bytes_of_byte8 c ++ bytes_of_byte4 dg
              ++ bytes_of_byte4 iS ++ iss ++ bytes_of_byte4 aS) acc.
  take_field (bytes_of_byte4 kS ++ k ++ bytes_of_byte8 c ++ bytes_of_byte4 dg
              ++ bytes_of_byte4 iS ++ iss ++ bytes_of_byte4 aS ++ acc)
    (bytes_of_byte4 st).
  rewrite array4_bytes; cbn [obind].
  take_field (bytes_of_byte4 kS ++ k ++ bytes_of_byte8 c ++ bytes_of_byte4 dg
              ++ bytes_of_byte4 iS ++ iss ++ bytes_of_byte4 aS ++ acc
              ++ bytes_of_byte4 st) (bytes_of_byte4 off).
  rewrite array4_bytes; cbn [obind].
  take_field (bytes_of_byte4 kS ++ k ++ bytes_of_byte8 c ++ bytes_of_byte4 dg
              ++ bytes_of_byte4 iS ++ iss ++ bytes_of_byte4 aS ++ acc
              ++ bytes_of_byte4 st ++ bytes_of_byte4 off) (bytes_of_byte4 fl).
  rewrite array4_bytes; cbn [obind].
  take_field (bytes_of_byte4 kS ++ k ++ bytes_of_byte8 c ++ bytes_of_byte4 dg
              ++ bytes_of_byte4 iS ++ iss ++ bytes_of_byte4 aS ++ acc
              ++ bytes_of_byte4 st ++ bytes_of_byte4 off ++ bytes_of_byte4 fl)
    (bytes_of_byte8 tm).
  rewrite array8_bytes; cbn [obind].
  assert (Hlast : slice
    (bytes_of_byte4 kS ++ k ++ bytes_of_byte8 c ++ bytes_of_byte4 dg
     ++ bytes_of_byte4 iS ++ iss ++ bytes_of_byte4 aS ++ acc
     ++ bytes_of_byte4 st ++ bytes_of_byte4 off ++ bytes_of_byte4 fl
     ++ bytes_of_byte8 tm ++ bytes_of_byte4 hs)
    (0 + 4 + len k + 8 + 4 + 4 + len iss + 4 + len acc + 4 + 4 + 4 + 8)
    (0 + 4 + len k + 8 + 4 + 4 + len iss + 4 + len acc + 4 + 4 + 4 + 8 + 4)
    = Ret (bytes_of_byte4 hs)).
  { apply (slice_field _
             (bytes_of_byte4 kS ++ k ++ bytes_of_byte8 c ++ bytes_of_byte4 dg
              ++ bytes_of_byte4 iS ++ iss ++ bytes_of_byte4 aS ++ acc
              ++ bytes_of_byte4 st ++ bytes_of_byte4 off ++ bytes_of_byte4 fl
              ++ bytes_of_byte8 tm) (bytes_of_byte4 hs) []).
    - rewrite app_nil_r, <- ?app_assoc. reflexivity.
    - len_solve.
    - len_solve. }
  rewrite Hlast. cbn [obind]. rewrite array4_bytes. cbn [obind].
  reflexivity.
Qed.

Lemma wrap_int64_wrap_uint64 (u : Z) : in_int64 u -> wrap_int64 (wrap_uint64 u) = u.
Proof.
  unfold in_int64, wrap_int64, wrap_uint64. intros Hu.
  Z.div_mod_to_equations. lia.
Qed.

Lemma wrap_uint64_idem (u : Z) : wrap_uint64 (wrap_uint64 u) = wrap_uint64 u.
Proof. unfold wrap_uint64. apply Z.mod_mod. lia. Qed.

Lemma time_Unix_of_Unix (sec : Z) : time_Unix_of (time_Unix sec) = sec.
Proof. unfold time_Unix_of, time_Unix. apply Z.div_mul. discriminate. Qed.

Lemma intFromBigEndian_fits (n : Z) :
  in_int32 n -> intFromBigEndian (bigEndianInt n) = n.
Proof.
  intros Hn. rewrite intFromBigEndian_bigEndianInt. apply wrap_int32_small. exact Hn.
Qed.

Lemma decoded_hash (h : crypto_Hash) :
  h = crypto_SHA1 \/ h = crypto_SHA256 \/ h = crypto_SHA512 ->
  (if intFromBigEndian (bigEndianInt (hashType_of h)) =? 1 then crypto_SHA256
   else if intFromBigEndian (bigEndianInt (hashType_of h)) =? 2 then crypto_SHA512
        else crypto_SHA1) = h.
Proof. intros [-> | [-> | ->]]; reflexivity. Qed.

Lemma TOTPFromBytes_layout (x : totp) :
  wire_encodable x ->
  TOTPFromBytes (layout x)
  = Ret (set_lastVerificationTime x (to_the_second (lastVerificationTime x)), None).
Proof.
  intros (Hdigits & Hstep & Hoff & Hfail & Hsize & Htime & Hhash).
  pose proof (len_nonneg (key x)).
  pose proof (len_nonneg (list_byte_of_string (issuer x))).
  pose proof (len_nonneg (list_byte_of_string (account x))).
  unfold layout. cbv zeta.
  rewrite TOTPFromBytes_of_fields.
  - rewrite !intFromBigEndian_fits by assumption.
    rewrite uint64FromBigEndian_bigEndianUint64.
    rewrite wrap_uint64_idem.
    rewrite wrap_int64_wrap_uint64 by assumption.
    rewrite !string_of_list_byte_of_string, decoded_hash by assumption.
    reflexivity.
  - rewrite !len_app, !len_bytes_of_byte4, !len_bytes_of_byte8.
    rewrite intFromBigEndian_fits by (unfold in_int32; lia). lia.
  - apply intFromBigEndian_fits. unfold in_int32. lia.
  - apply intFromBigEndian_fits. unfold in_int32. lia.
  - apply intFromBigEndian_fits. unfold in_int32. lia.
Qed.

Lemma layout_to_the_second (x : totp) :
  layout (set_lastVerificationTime x (to_the_second (lastVerificationTime x)))
  = layout x.
Proof.
  unfold layout, to_the_second. cbn [set_lastVerificationTime key counter digits
    issuer account stepSize clientOffset totalVerificationFailures
    lastVerificationTime hashFunction].
  rewrite time_Unix_of_Unix. reflexivity.
Qed.

(** C3, as the code has it: for a credential whose [int] fields and total
    size fit the signed 4-byte fields of the format, whose time is a Unix
    time in [int64] and whose hash is SHA-1, SHA-256 or SHA-512,
    [TOTPFromBytes(ToBytes(x))] returns, with a nil error, the credential
    [x] with its last verification time cut to the second: key, counter,
    digits, step size, client offset, failures, issuer, account and hash are
    those of [x].  Encoding the decoded credential, or [x] again, gives the
    same bytes. *)
Theorem TOTPFromBytes_ToBytes (x : totp) :
  wire_encodable x ->
  exists y,
    TOTPFromBytes (fst (ToBytes x)) = Ret (y, None)
    /\ key y = key x /\ counter y = counter x /\ digits y = digits x
    /\ stepSize y = stepSize x /\ clientOffset y = clientOffset x
    /\ totalVerificationFailures y = totalVerificationFailures x
    /\ time_Unix_of (lastVerificationTime y)
       = time_Unix_of (lastVerificationTime x)
    /\ issuer y = issuer x /\ account y = account x
    /\ hashFunction y = hashFunction x
    /\ ToBytes y = ToBytes x
    /\ snd (ToBytes x) = None.
Proof.
  intros Hx.
  exists (set_lastVerificationTime x (to_the_second (lastVerificationTime x))).
  rewrite !ToBytes_layout. cbn [fst snd].
  rewrite TOTPFromBytes_layout by assumption.
  rewrite layout_to_the_second.
  repeat split.
  cbn [lastVerificationTime set_lastVerificationTime]. unfold to_the_second.
  apply time_Unix_of_Unix.
Qed.

(** C3, as the specification states it, fails for a field that does not fit
    its four bytes: a step size of 2^32 + 30 comes back as 30. *)
Lemma TOTPFromBytes_ToBytes_wide_step :
  exists y,
    TOTPFromBytes (fst (ToBytes wide_step_totp)) = Ret (y, None)
    /\ stepSize y = 30
    /\ stepSize y <> stepSize wide_step_totp.
Proof.
  eexists. split; [vm_compute; reflexivity |].
  split; [reflexivity | vm_compute; discriminate].
Qed.

(** A hash that has no tag on the wire is written as 0 and comes back as
    SHA-1. *)
Example TOTPFromBytes_ToBytes_other_hash :
  exists y,
    TOTPFromBytes
      (fst (ToBytes (fst (makeTOTP sha1Key "info@sec51.com" "Sec51" crypto_MD5 6))))
    = Ret (y, None)
    /\ hashFunction y = crypto_SHA1.
Proof. eexists. split; [vm_compute; reflexivity | reflexivity]. Qed.

(** *** Decoding without bounds checks *)

Lemma slice_cases (B : list byte) (lo hi : Z) :
  (0 <= lo /\ lo <= hi /\ hi <= len B
   /\ slice B lo hi
      = Ret (firstn (Z.to_nat (hi - lo)) (skipn (Z.to_nat lo) B)))
  \/ (~ (0 <= lo /\ lo <= hi /\ hi <= len B)
      /\ slice B lo hi = Panics SliceBoundsOutOfRange).
Proof.
  unfold slice.
  destruct (Z.leb_spec 0 lo); destruct (Z.leb_spec lo hi);
    destruct (Z.leb_spec hi (len B)); cbn [andb];
    solve [left; repeat split; (lia || reflexivity)
          | right; split; [lia | reflexivity]].
Qed.

Lemma len_sub (B : list byte) (lo n : Z) :
  0 <= lo -> 0 <= n -> lo + n <= len B ->
  len (firstn (Z.to_nat n) (skipn (Z.to_nat lo) B)) = n.
Proof.
  intros Hlo Hn Hhi. unfold len in *.
  rewrite length_firstn, length_skipn. lia.
Qed.

Lemma nth_sub (B : list byte) (lo n j : Z) :
  0 <= lo -> 0 <= j < n ->
  nth (Z.to_nat j) (firstn (Z.to_nat n) (skipn (Z.to_nat lo) B)) Byte.x00
  = nth (Z.to_nat (lo + j)) B Byte.x00.
Proof.
  intros Hlo Hj. rewrite nth_firstn.
  destruct (Nat.ltb_spec (Z.to_nat j) (Z.to_nat n)); [| lia].
  rewrite nth_skipn. f_equal. lia.
Qed.

Lemma array4_sub (B : list byte) (lo hi : Z) :
  0 <= lo -> hi = lo + 4 -> hi <= len B ->
  array4 (firstn (Z.to_nat (hi - lo)) (skipn (Z.to_nat lo) B))
  = Ret (bytes4_at B lo).
Proof.
  intros Hlo -> Hhi. replace (lo + 4 - lo) with 4 by lia.
  unfold array4.
  rewrite !index_in_range by (rewrite len_sub; lia). cbn [obind].
  rewrite !nth_sub by lia. unfold bytes4_at.
  replace (lo + 0) with lo by lia. reflexivity.
Qed.

Lemma array8_sub (B : list byte) (lo hi : Z) :
  0 <= lo -> hi = lo + 8 -> hi <= len B ->
  exists a, array8 (firstn (Z.to_nat (hi - lo)) (skipn (Z.to_nat lo) B)) = Ret a.
Proof.
  intros Hlo -> Hhi. replace (lo + 8 - lo) with 8 by lia.
  unfold array8.
  rewrite !index_in_range by (rewrite len_sub; lia). cbn [obind].
  eexists. reflexivity.
Qed.

Lemma panics_when_unfit (fit : Prop) (err : option error) :
  ~ fit -> returns_iff fit err (Panics SliceBoundsOutOfRange).
Proof. intros Hn. split; [intros Hf; contradiction | reflexivity]. Qed.

Ltac unfold_fits :=
  unfold fits_at, accountSize_at, issuerSize_at, keySize_at in *.

Ltac slice_step :=
  lazymatch goal with
  | |- returns_iff _ _ (obind (slice ?b ?lo ?hi) _) =>
      let Hb := fresh "Hb" in
      let Hs := fresh "Hs" in
      destruct (slice_cases b lo hi) as [(? & ? & Hb & Hs) | (Hb & Hs)];
      rewrite Hs; cbn [obind]; clear Hs;
      [| apply panics_when_unfit; unfold_fits;
         pose proof (len_nonneg b); lia]
  end.

Ltac array4_step :=
  rewrite array4_sub by (assumption || lia || reflexivity); cbn [obind];
  lazymatch goal with
  | |- context [intFromBigEndian (bytes4_at ?b ?off)] =>
      fold (field32 b off)
  | _ => idtac
  end.

Ltac array8_step :=
  lazymatch goal with
  | |- returns_iff _ _
         (obind (array8 (firstn (Z.to_nat (?hi - ?lo)) (skipn _ ?b))) _) =>
      let a := fresh "a" in
      let Ha := fresh "Ha" in
      destruct (array8_sub b lo hi) as [a Ha];
      [lia | reflexivity | assumption | rewrite Ha; cbn [obind]; clear Ha]
  end.

(** The fields are read when the sizes the buffer declares fit it, and a
    slice panics when they do not. *)
Lemma read_fields_unchecked (B : list byte) (err : option error) :
  returns_iff (fits_at B 0 (len B)) err (read_fields B err).
Proof.
  unfold read_fields. cbv zeta.
  slice_step. array4_step.
  slice_step. slice_step. array8_step.
  slice_step. array4_step.
  slice_step. array4_step.
  slice_step.
  slice_step. array4_step.
  slice_step.
  slice_step. array4_step.
  slice_step. array4_step.
  slice_step. array4_step.
  slice_step. array8_step.
  slice_step. array4_step.
  split.
  - intros _. eexists. reflexivity.
  - intros Hn. exfalso. apply Hn. unfold_fits. lia.
Qed.

Lemma len_cons {A} (a : A) (l : list A) : len (a :: l) = 1 + len l.
Proof. unfold len. cbn [List.length]. lia. Qed.

(** The first read: the four bytes of the total size, zero where the input
    has ended. *)
Lemma Reader_Read_first (data : list byte) :
  exists l n e,
    Reader_Read (bytes_NewReader data) (repeat Byte.x00 4)
    = ({| r_s := data; r_i := Z.min 4 (len data) |}, l, (n, e))
    /\ array4 l = Ret (bytes4_at data 0)
    /\ is_other_error e = false.
Proof.
  destruct data as [| a [| b [| c [| d rest]]]];
    try (do 3 eexists; split; [reflexivity | split; reflexivity]).
  unfold Reader_Read, bytes_NewReader. cbn [r_s r_i].
  pose proof (len_nonneg rest) as Hrest.
  rewrite !len_cons.
  destruct (Z.leb_spec (1 + (1 + (1 + (1 + len rest)))) 0); [lia |].
  change (len (repeat Byte.x00 4)) with 4.
  cbn [Z.to_nat skipn]. rewrite !len_cons.
  rewrite !Z.min_l by lia. rewrite Z.add_0_l.
  do 3 eexists. split; [reflexivity | split; reflexivity].
Qed.

(** The second read: a buffer of the asked length that holds the bytes
    after the header, and zero where the input has ended; the error is
    [io.EOF] when nothing follows the header. *)
Lemma Reader_Read_second (data : list byte) (N : Z) :
  0 <= N ->
  exists r B n,
    Reader_Read {| r_s := data; r_i := Z.min 4 (len data) |}
      (repeat Byte.x00 (Z.to_nat N))
    = (r, B, (n, if len data <=? 4 then Some io_EOF else None))
    /\ len B = N
    /\ forall i, 0 <= i < N ->
                 nth (Z.to_nat i) B Byte.x00
                 = nth (Z.to_nat (i + 4)) data Byte.x00.
Proof.
  intros HN. unfold Reader_Read. cbn [r_s r_i].
  pose proof (len_nonneg data) as Hdata.
  destruct (Z.leb_spec (len data) (Z.min 4 (len data))) as [Hend | Hmore].
  - destruct (Z.leb_spec (len data) 4); [| lia].
    do 3 eexists. split; [reflexivity | split].
    + unfold len. rewrite repeat_length. lia.
    + intros i Hi. rewrite nth_repeat.
      symmetry. apply nth_overflow. unfold len in *. lia.
  - destruct (Z.leb_spec (len data) 4); [lia |].
    rewrite Z.min_l by lia. change (Z.to_nat 4) with 4%nat.
    set (src := skipn 4 data).
    set (zeros := repeat Byte.x00 (Z.to_nat N)).
    assert (Hsrc : len src = len data - 4)
      by (unfold src, len in *; rewrite length_skipn; lia).
    assert (Hzeros : len zeros = N)
      by (unfold zeros, len; rewrite repeat_length; lia).
    rewrite Hzeros.
    do 3 eexists. split; [reflexivity | split].
    + rewrite len_app. unfold len in *.
      rewrite length_firstn, length_skipn. lia.
    + intros i Hi.
      destruct (Z.lt_ge_cases i (Z.min N (len src))) as [Hin | Hout].
      * rewrite app_nth1
          by (rewrite length_firstn; unfold len in *; lia).
        rewrite nth_firstn.
        destruct (Nat.ltb_spec (Z.to_nat i) (Z.to_nat (Z.min N (len src))));
          [| lia].
        unfold src. rewrite nth_skipn. f_equal. lia.
      * rewrite app_nth2
          by (rewrite length_firstn; unfold len in *; lia).
        rewrite nth_skipn. unfold zeros. rewrite nth_repeat.
        symmetry. apply nth_overflow. unfold len in *. lia.
Qed.

(** [TOTPFromBytes] up to the fields: a declared total size below 4 makes
    [make] panic; otherwise the fields are read from a buffer of
    [totalSize - 4] bytes, the input after its header filled up with
    zeros. *)
Lemma TOTPFromBytes_reads (data : list byte) :
  (declared_totalSize data < 4 ->
   TOTPFromBytes data = Panics MakesliceLenOutOfRange)
  /\ (4 <= declared_totalSize data ->
      exists B,
        len B = declared_totalSize data - 4
        /\ (forall i, 0 <= i < len B ->
                      nth (Z.to_nat i) B Byte.x00
                      = nth (Z.to_nat (i + 4)) data Byte.x00)
        /\ TOTPFromBytes data
           = read_fields B (if len data <=? 4 then Some io_EOF else None)).
Proof.
  unfold TOTPFromBytes. cbv zeta.
  change (make 4) with (Ret (repeat Byte.x00 4)). cbn [obind].
  destruct (Reader_Read_first data) as (l & n & e & Hread & Harr & Herr).
  rewrite Hread, Herr, Harr. cbn [obind].
  fold (field32 data 0). fold (declared_totalSize data).
  unfold make. split.
  - intros Hsmall.
    destruct (Z.leb_spec 0 (declared_totalSize data - 4)); [lia | reflexivity].
  - intros Hbig.
    destruct (Z.leb_spec 0 (declared_totalSize data - 4)) as [HN | ?]; [| lia].
    cbn [obind].
    destruct (Reader_Read_second data (declared_totalSize data - 4) HN)
      as (r & B & m & Hread2 & Hlen & Hagree).
    rewrite Hread2. exists B. split; [exact Hlen | split].
    + rewrite Hlen. exact Hagree.
    + destruct (len data <=? 4); reflexivity.
Qed.

Lemma field32_agree (B data : list byte) (off off' : Z) :
  (forall i, 0 <= i < len B ->
             nth (Z.to_nat i) B Byte.x00 = nth (Z.to_nat (i + 4)) data Byte.x00) ->
  0 <= off -> off + 4 <= len B -> off' = off + 4 ->
  field32 B off = field32 data off'.
Proof.
  intros Hagree Hoff Hend ->. unfold field32, bytes4_at.
  rewrite !Hagree by lia.
  replace (off + 1 + 4) with (off + 4 + 1) by lia.
  replace (off + 2 + 4) with (off + 4 + 2) by lia.
  replace (off + 3 + 4) with (off + 4 + 3) by lia.
  reflexivity.
Qed.

(** The sizes that the working buffer declares fit it exactly when the
    sizes that the input declares fit its total size. *)
Lemma fits_buffer_iff (B data : list byte) :
  len B = declared_totalSize data - 4 ->
  (forall i, 0 <= i < len B ->
             nth (Z.to_nat i) B Byte.x00 = nth (Z.to_nat (i + 4)) data Byte.x00) ->
  fits_at B 0 (len B) <-> sizes_fit data.
Proof.
  intros Hlen Hagree. unfold sizes_fit.
  assert (Hkey : 4 <= len B -> keySize_at B 0 = keySize_at data 4)
    by (intros; unfold keySize_at; apply (field32_agree B data); (assumption || lia)).
  assert (Hiss : 0 <= keySize_at data 4 -> 20 + keySize_at data 4 <= len B ->
                 issuerSize_at B 0 = issuerSize_at data 4).
  { intros ? ?. unfold issuerSize_at. rewrite Hkey by lia.
    apply (field32_agree B data); (assumption || lia). }
  assert (Hacc : 0 <= keySize_at data 4 -> 0 <= issuerSize_at data 4 ->
                 24 + keySize_at data 4 + issuerSize_at data 4 <= len B ->
                 accountSize_at B 0 = accountSize_at data 4).
  { intros ? ? ?. unfold accountSize_at. rewrite Hkey, Hiss by lia.
    apply (field32_agree B data); (assumption || lia). }
  unfold fits_at. split.
  - intros (Hk & Hi & Ha & Hsum).
    assert (Hk' : keySize_at B 0 = keySize_at data 4) by (apply Hkey; lia).
    rewrite Hk' in *.
    assert (Hi' : issuerSize_at B 0 = issuerSize_at data 4) by (apply Hiss; lia).
    rewrite Hi' in *.
    assert (Ha' : accountSize_at B 0 = accountSize_at data 4) by (apply Hacc; lia).
    rewrite Ha' in *. lia.
  - intros (Hk & Hi & Ha & Hsum).
    rewrite Hkey, Hiss, Hacc by lia. lia.
Qed.

(** C2, as the code has it: [TOTPFromBytes] checks no bounds and returns no
    decoding error.  When a declared size is negative or the fields do not
    end within the declared total size (so whenever the total is below 52),
    it panics, in [make] or on a slice.  Otherwise it returns a credential,
    also from a truncated input, whose missing bytes read as zero; the
    error is [io.EOF] when nothing follows the 4-byte header and nil in all
    other cases. *)
Theorem TOTPFromBytes_unchecked (data : list byte) :
  (sizes_fit data ->
   exists otp,
     TOTPFromBytes data
     = Ret (otp, if len data <=? 4 then Some io_EOF else None))
  /\ (~ sizes_fit data ->
      TOTPFromBytes data = Panics MakesliceLenOutOfRange
      \/ TOTPFromBytes data = Panics SliceBoundsOutOfRange).
Proof.
  destruct (TOTPFromBytes_reads data) as [Hsmall Hbig].
  destruct (Z.lt_ge_cases (declared_totalSize data) 4) as [Hlt | Hge].
  - split.
    + intros (Hk & Hi & Ha & Hsum). lia.
    + intros _. left. apply Hsmall. exact Hlt.
  - destruct (Hbig Hge) as (B & Hlen & Hagree & Hrun).
    pose proof (read_fields_unchecked B
                  (if len data <=? 4 then Some io_EOF else None))
      as [Hfit Hunfit].
    pose proof (fits_buffer_iff B data Hlen Hagree) as Hiff.
    rewrite Hrun. split.
    + intros Hs. apply Hfit. apply Hiff. exact Hs.
    + intros Hs. right. apply Hunfit. intros Hb. apply Hs, Hiff. exact Hb.
Qed.

(** C2, as the specification states it, fails on the empty input: the total
    size reads as 0 and [make([]byte, -4)] panics. *)
Lemma TOTPFromBytes_empty_panics :
  TOTPFromBytes [] = Panics MakesliceLenOutOfRange
  /\ (forall otp err, TOTPFromBytes [] <> Ret (otp, err)).
Proof. split; [reflexivity | intros otp err; discriminate]. Qed.

(** A truncated input whose declared sizes fit is decoded without any
    error: here 52 is declared and one byte follows the header. *)
Example TOTPFromBytes_truncated_accepted :
  exists otp,
    TOTPFromBytes [Byte.x00; Byte.x00; Byte.x00; Byte.x34; Byte.x00]
    = Ret (otp, None).
Proof. eexists. vm_compute. reflexivity. Qed.

(** ** The digests have their sizes *)

Lemma length_be_bytes (n : nat) (x : Z) : List.length (Crypto.be_bytes n x) = n.
Proof.
  revert x. induction n as [| n IH]; intros x; cbn [Crypto.be_bytes].
  - reflexivity.
  - rewrite length_app, IH. cbn [List.length]. lia.
Qed.

Lemma len_sha1 (msg : list byte) : len (Crypto.sha1 msg) = 20.
Proof.
  unfold Crypto.sha1.
  destruct (fold_left Crypto.sha1_block _ _) as [[[[h0 h1] h2] h3] h4].
  unfold len. rewrite !length_app, !length_be_bytes. reflexivity.
Qed.

Lemma len_sha2 (p : Crypto.sha2_params) (msg : list byte) :
  len (Crypto.sha2 p msg) = 8 * Z.of_nat (Crypto.wbytes p).
Proof.
  unfold Crypto.sha2.
  destruct (fold_left _ _ _) as [[[[[[[h0 h1] h2] h3] h4] h5] h6] h7].
  unfold len. rewrite !length_app, !length_be_bytes. lia.
Qed.

Lemma hmac_sized_crypto (clk : nat -> Time) : hmac_sized (crypto_env clk).
Proof.
  intros a k msg. cbn [hmac_digest crypto_env]. unfold Crypto.hmac.
  destruct a; cbn [Crypto.digest digest_Size].
  - apply len_sha1.
  - unfold Crypto.sha256. rewrite len_sha2. reflexivity.
  - unfold Crypto.sha512. rewrite len_sha2. reflexivity.
Qed.

(** ** The digests on the test vectors of FIPS 180 *)

Example sha1_abc :
  hex_EncodeToString (Crypto.sha1 (list_byte_of_string "abc"))
  = "a9993e364706816aba3e25717850c26c9cd0d89d"%string.
Proof. vm_compute. reflexivity. Qed.

Example sha256_abc :
  hex_EncodeToString (Crypto.sha256 (list_byte_of_string "abc"))
  = "ba7816bf8f01cfea414140de5dae2223b00361a396177a9cb410ff61f20015ad"%string.
Proof. vm_compute. reflexivity. Qed.

Example sha512_abc :
  hex_EncodeToString (Crypto.sha512 (list_byte_of_string "abc"))
  = ("ddaf35a193617abacc417349ae20413112e6fa4e89a97ea20a9eeee64b55d39a"
     ++ "2192992a274fc1a836ba3c23a3feebbd454d4423643ce80e2a9ac94fa54ca49f")%string.
Proof. vm_compute. reflexivity. Qed.

(** ** The tokens of the package's tests (RFC 6238, appendix B) *)

Example token_sha1_59 :
  exists n,
    increment 59 30 = Ret n
    /\ calculateToken (bytes_of_byte8 (bigEndianUint64 n)) 8
         (hmac_New (H := env_at 59) sha1_New sha1Key)
       = Ret "94287082"%string.
Proof. eexists. split; [vm_compute; reflexivity |]. vm_compute. reflexivity. Qed.

Example token_sha1_1111111109 :
  exists n,
    increment 1111111109 30 = Ret n
    /\ calculateToken (bytes_of_byte8 (bigEndianUint64 n)) 8
         (hmac_New (H := env_at 59) sha1_New sha1Key)
       = Ret "07081804"%string.
Proof. eexists. split; [vm_compute; reflexivity |]. vm_compute. reflexivity. Qed.

Example token_sha256_59 :
  exists n,
    increment 59 30 = Ret n
    /\ calculateToken (bytes_of_byte8 (bigEndianUint64 n)) 8
         (hmac_New (H := env_at 59) sha256_New sha256Key)
       = Ret "46119246"%string.
Proof. eexists. split; [vm_compute; reflexivity |]. vm_compute. reflexivity. Qed.

Example token_sha512_59 :
  exists n,
    increment 59 30 = Ret n
    /\ calculateToken (bytes_of_byte8 (bigEndianUint64 n)) 8
         (hmac_New (H := env_at 59) sha512_New sha512Key)
       = Ret "90693936"%string.
Proof. eexists. split; [vm_compute; reflexivity |]. vm_compute. reflexivity. Qed.

(** [OTP] of the test credential, 59 seconds after the epoch. *)
Example OTP_at_59 :
  exists w, OTP (H := env_at 59) (start test_totp) = Ret ("94287082"%string, w).
Proof. eexists. vm_compute. reflexivity. Qed.

(** ** The theorems at the data of the tests *)

Lemma calculateToken_rfc4226_witness :
  hmac_sized (env_at 59)
  /\ (8 = 6 \/ 8 = 7 \/ 8 = 8)
  /\ (let mac := hmac_digest (Env := env_at 59) sha1_New sha1Key
                   (bytes_of_byte8 (bigEndianUint64 1)) in
      let value := rfc4226_value mac in
      calculateToken (bytes_of_byte8 (bigEndianUint64 1)) 8
        (hmac_New (H := env_at 59) sha1_New sha1Key)
      = Ret (Sprintf_0d 8 (value mod 10 ^ 8))
      /\ Z.of_nat (String.length (Sprintf_0d 8 (value mod 10 ^ 8))) = 8
      /\ decimal_value (Sprintf_0d 8 (value mod 10 ^ 8))
         = Some (value mod 10 ^ 8)
      /\ 0 <= value < 2 ^ 31).
Proof.
  split; [apply hmac_sized_crypto |].
  split; [right; right; reflexivity |].
  apply (calculateToken_rfc4226 (E := env_at 59)).
  - apply hmac_sized_crypto.
  - right; right; reflexivity.
Defined.

Lemma wire_encodable_test_totp : wire_encodable test_totp.
Proof.
  unfold wire_encodable, in_int32, in_int64.
  repeat split; try (vm_compute; (reflexivity || discriminate)).
  left. reflexivity.
Qed.

Lemma TOTPFromBytes_ToBytes_witness :
  wire_encodable test_totp
  /\ exists y,
       TOTPFromBytes (fst (ToBytes test_totp)) = Ret (y, None)
       /\ key y = key test_totp /\ counter y = counter test_totp
       /\ digits y = digits test_totp
       /\ stepSize y = stepSize test_totp
       /\ clientOffset y = clientOffset test_totp
       /\ totalVerificationFailures y = totalVerificationFailures test_totp
       /\ time_Unix_of (lastVerificationTime y)
          = time_Unix_of (lastVerificationTime test_totp)
       /\ issuer y = issuer test_totp /\ account y = account test_totp
       /\ hashFunction y = hashFunction test_totp
       /\ ToBytes y = ToBytes test_totp
       /\ snd (ToBytes test_totp) = None.
Proof.
  split; [exact wire_encodable_test_totp |].
  apply (TOTPFromBytes_ToBytes test_totp). exact wire_encodable_test_totp.
Defined.

Lemma TOTPFromBytes_unchecked_witness :
  (~ sizes_fit [Byte.x00; Byte.x00; Byte.x00; Byte.x08]
   /\ (TOTPFromBytes [Byte.x00; Byte.x00; Byte.x00; Byte.x08]
       = Panics MakesliceLenOutOfRange
       \/ TOTPFromBytes [Byte.x00; Byte.x00; Byte.x00; Byte.x08]
          = Panics SliceBoundsOutOfRange))
  /\ (sizes_fit [Byte.x00; Byte.x00; Byte.x00; Byte.x34]
      /\ exists otp,
           TOTPFromBytes [Byte.x00; Byte.x00; Byte.x00; Byte.x34]
           = Ret (otp, if len [Byte.x00; Byte.x00; Byte.x00; Byte.x34] <=? 4
                       then Some io_EOF else None)).
Proof.
  assert (Hunfit : ~ sizes_fit [Byte.x00; Byte.x00; Byte.x00; Byte.x08]).
  { intros (_ & _ & _ & Hsum). vm_compute in Hsum. apply Hsum. reflexivity. }
  assert (Hfit : sizes_fit [Byte.x00; Byte.x00; Byte.x00; Byte.x34]).
  { repeat split; vm_compute; discriminate. }
  split; (split; [assumption |]).
  - apply (proj2 (TOTPFromBytes_unchecked _)). exact Hunfit.
  - apply (proj1 (TOTPFromBytes_unchecked _)). exact Hfit.
Defined.

Lemma Validate_lockout_witness :
  "94287082"%string <> ""%string
  /\ MAX_FAILURES <= totalVerificationFailures (cred (start failed_totp))
  /\ (clock (Env := env_at 301) (reads (start failed_totp))
      - lastVerificationTime (cred (start failed_totp)) <= backoff ->
      Validate (H := env_at 301) "94287082" (start failed_totp)
      = Ret (Some err_locked,
             {| cred := cred (start failed_totp);
                reads := S (reads (start failed_totp)) |}))
  /\ (backoff < clock (Env := env_at 301) (reads (start failed_totp))
                - lastVerificationTime (cred (start failed_totp)) ->
      clock (Env := env_at 301) (reads (start failed_totp))
      <= clock (Env := env_at 301) (S (reads (start failed_totp))) ->
      let reset :=
        {| cred := set_totalVerificationFailures (cred (start failed_totp)) 0;
           reads := S (S (reads (start failed_totp))) |} in
      Validate (H := env_at 301) "94287082" (start failed_totp)
      = compare_tokens (H := env_at 301) "94287082" reset
      /\ Validate (H := env_at 301) "94287082" (start failed_totp)
         = Validate (H := env_at 301) "94287082" reset).
Proof.
  assert (H1 : "94287082"%string <> ""%string) by discriminate.
  assert (H2 : MAX_FAILURES <= totalVerificationFailures (cred (start failed_totp)))
    by (vm_compute; discriminate).
  split; [exact H1 |]. split; [exact H2 |].
  exact (Validate_lockout (E := env_at 301) (start failed_totp) "94287082" H1 H2).
Defined.

(** After more than five minutes the lock is lifted: the failures of the
    locked test credential are reset and a wrong code counts as the first
    failure. *)
Example Validate_after_backoff :
  exists w,
    Validate (H := env_at 301) "1234567" (start failed_totp)
    = Ret (Some err_mismatch, w)
    /\ totalVerificationFailures (cred w) = 1.
Proof. eexists. split; [vm_compute; reflexivity | reflexivity]. Qed.

(** C4, as the specification states it, fails at exactly five minutes: [After]
    is strict, so the credential is still locked, its failures are not reset,
    and the validation does not go on. *)
Lemma Validate_locked_at_five_minutes :
  clock (Env := env_at 300) 0 - lastVerificationTime failed_totp = backoff
  /\ Validate (H := env_at 300) "94287082" (start failed_totp)
     = Ret (Some err_locked, {| cred := failed_totp; reads := 1 |})
  /\ totalVerificationFailures failed_totp = 3
  /\ Validate (H := env_at 300) "94287082" (start failed_totp)
     <> compare_tokens (H := env_at 300) "94287082"
          {| cred := set_totalVerificationFailures failed_totp 0; reads := 2 |}.
Proof.
  split; [reflexivity |]. split; [reflexivity |]. split; [reflexivity |].
  vm_compute. discriminate.
Qed.

Lemma Validate_empty_before_lockout_witness :
  MAX_FAILURES <= totalVerificationFailures (cred (start failed_totp))
  /\ clock (Env := env_at 60) (reads (start failed_totp))
     <= lastVerificationTime (cred (start failed_totp)) + backoff
  /\ "94287082"%string <> ""%string
  /\ Validate (H := env_at 60) "" (start failed_totp)
     = Ret (Some err_empty, start failed_totp)
  /\ Validate (H := env_at 60) "94287082" (start failed_totp)
     = Ret (Some err_locked,
            {| cred := cred (start failed_totp);
               reads := S (reads (start failed_totp)) |})
  /\ err_empty <> err_locked.
Proof.
  assert (H1 : MAX_FAILURES <= totalVerificationFailures (cred (start failed_totp)))
    by (vm_compute; discriminate).
  assert (H2 : clock (Env := env_at 60) (reads (start failed_totp))
               <= lastVerificationTime (cred (start failed_totp)) + backoff)
    by (vm_compute; discriminate).
  assert (H3 : "94287082"%string <> ""%string) by discriminate.
  split; [exact H1 |]. split; [exact H2 |]. split; [exact H3 |].
  exact (Validate_empty_before_lockout (E := env_at 60) (start failed_totp)
           "94287082" H1 H2 H3).
Defined.

Lemma Validate_match_witness :
  hmac_sized (env_at 59)
  /\ totalVerificationFailures (cred (start test_totp)) < MAX_FAILURES
  /\ stepSize (cred (start test_totp)) <> 0
  /\ calculateTOTP (H := env_at 59) (-1) (start test_totp)
     = Ret ("84755224"%string, counted test_totp 0 1)
  /\ calculateTOTP (H := env_at 59) 0 (counted test_totp 0 1)
     = Ret ("94287082"%string, counted test_totp 1 2)
  /\ calculateTOTP (H := env_at 59) 1 (counted test_totp 1 2)
     = Ret ("37359152"%string, counted test_totp 2 3)
  /\ token_hash (H := env_at 59) "94287082"
     <> token_hash (H := env_at 59) "84755224"
  /\ token_hash (H := env_at 59) "94287082"
     <> token_hash (H := env_at 59) "37359152"
  /\ token_hash (H := env_at 59) "84755224"
     <> token_hash (H := env_at 59) "37359152"
  /\ (exists w',
         Validate (H := env_at 59) "94287082" (start test_totp) = Ret (None, w')
         /\ clientOffset (cred w') = clientOffset (cred (start test_totp))
         /\ totalVerificationFailures (cred w')
            = totalVerificationFailures (cred (start test_totp)))
  /\ (exists w',
         Validate (H := env_at 59) "84755224" (start test_totp) = Ret (None, w')
         /\ clientOffset (cred w') = -1
         /\ totalVerificationFailures (cred w')
            = totalVerificationFailures (cred (start test_totp)))
  /\ (exists w',
         Validate (H := env_at 59) "37359152" (start test_totp) = Ret (None, w')
         /\ clientOffset (cred w') = 1
         /\ totalVerificationFailures (cred w')
            = totalVerificationFailures (cred (start test_totp))).
Proof.
  assert (Hs : hmac_sized (env_at 59)) by apply hmac_sized_crypto.
  assert (Hopen : totalVerificationFailures (cred (start test_totp))
                  < MAX_FAILURES) by reflexivity.
  assert (Hstep : stepSize (cred (start test_totp)) <> 0) by discriminate.
  assert (H0 : calculateTOTP (H := env_at 59) (-1) (start test_totp)
               = Ret ("84755224"%string, counted test_totp 0 1))
    by (vm_compute; reflexivity).
  assert (H1 : calculateTOTP (H := env_at 59) 0 (counted test_totp 0 1)
               = Ret ("94287082"%string, counted test_totp 1 2))
    by (vm_compute; reflexivity).
  assert (H2 : calculateTOTP (H := env_at 59) 1 (counted test_totp 1 2)
               = Ret ("37359152"%string, counted test_totp 2 3))
    by (vm_compute; reflexivity).
  assert (N10 : token_hash (H := env_at 59) "94287082"
                <> token_hash (H := env_at 59) "84755224")
    by (vm_compute; discriminate).
  assert (N12 : token_hash (H := env_at 59) "94287082"
                <> token_hash (H := env_at 59) "37359152")
    by (vm_compute; discriminate).
  assert (N02 : token_hash (H := env_at 59) "84755224"
                <> token_hash (H := env_at 59) "37359152")
    by (vm_compute; discriminate).
  repeat (split; [assumption |]).
  split; [| split].
  - exact (proj1
             (proj1 (proj2 (Validate_match (E := env_at 59) Hs
                              (start test_totp) "94287082"
                              ltac:(discriminate) Hopen Hstep))
                _ _ _ _ _ _ H0 H1 H2)
             eq_refl).
  - exact (proj1
             (proj2
                (proj1 (proj2 (Validate_match (E := env_at 59) Hs
                                 (start test_totp) "84755224"
                                 ltac:(discriminate) Hopen Hstep))
                   _ _ _ _ _ _ H0 H1 H2))
             eq_refl N10).
  - exact (proj2
             (proj2
                (proj1 (proj2 (Validate_match (E := env_at 59) Hs
                                 (start test_totp) "37359152"
                                 ltac:(discriminate) Hopen Hstep))
                   _ _ _ _ _ _ H0 H1 H2))
             eq_refl N12 N02).
Defined.

(** C6, as the specification states it, fails where the token of step -1 is
    also the token of step 0.  Ten seconds after the epoch both steps have
    the counter 0, since Go's division truncates -20 / 30 to 0: the token
    of step -1 is accepted at the comparison with step 0, which comes first,
    and the client offset stays 0. *)
Lemma Validate_step_before_matched_at_step_0 :
  calculateTOTP (H := env_at 10) (-1) (start test_totp)
  = Ret ("84755224"%string, counted test_totp 0 1)
  /\ calculateTOTP (H := env_at 10) 0 (counted test_totp 0 1)
     = Ret ("84755224"%string, counted test_totp 0 2)
  /\ Validate (H := env_at 10) "84755224" (start test_totp)
     = Ret (None, counted test_totp 1 3)
  /\ clientOffset (cred (start test_totp)) = 0
  /\ clientOffset (cred (counted test_totp 1 3)) = 0
  /\ clientOffset (cred (counted test_totp 1 3)) <> -1.
Proof.
  split; [vm_compute; reflexivity |].
  split; [vm_compute; reflexivity |].
  split; [vm_compute; reflexivity |].
  split; [reflexivity |]. split; [reflexivity | discriminate].
Qed.

(** The same happens after the epoch wherever two successive tokens are
    equal, as those of the counters 84919628 and 84919629 are for the key of
    the tests. *)
Example Validate_equal_successive_tokens :
  calculateTOTP (H := env_at 2547588870) (-1) (start test_totp)
  = Ret ("17204716"%string, counted test_totp 84919628 1)
  /\ calculateTOTP (H := env_at 2547588870) 0 (counted test_totp 84919628 1)
     = Ret ("17204716"%string, counted test_totp 84919629 2)
  /\ Validate (H := env_at 2547588870) "17204716" (start test_totp)
     = Ret (None, counted test_totp 84919630 3)
  /\ clientOffset (cred (counted test_totp 84919630 3)) = 0.
Proof.
  split; [vm_compute; reflexivity |].
  split; [vm_compute; reflexivity |].
  split; [vm_compute; reflexivity | reflexivity].
Qed.

Lemma Validate_mismatch_witness :
  hmac_sized (env_at 59)
  /\ "1234567"%string <> ""%string
  /\ - 2 ^ 63 <= totalVerificationFailures (cred (start test_totp)) < MAX_FAILURES
  /\ stepSize (cred (start test_totp)) <> 0
  /\ calculateTOTP (H := env_at 59) (-1) (start test_totp)
     = Ret ("84755224"%string, counted test_totp 0 1)
  /\ calculateTOTP (H := env_at 59) 0 (counted test_totp 0 1)
     = Ret ("94287082"%string, counted test_totp 1 2)
  /\ calculateTOTP (H := env_at 59) 1 (counted test_totp 1 2)
     = Ret ("37359152"%string, counted test_totp 2 3)
  /\ token_hash (H := env_at 59) "84755224"
     <> token_hash (H := env_at 59) "1234567"
  /\ token_hash (H := env_at 59) "94287082"
     <> token_hash (H := env_at 59) "1234567"
  /\ token_hash (H := env_at 59) "37359152"
     <> token_hash (H := env_at 59) "1234567"
  /\ exists w',
       Validate (H := env_at 59) "1234567" (start test_totp)
       = Ret (Some err_mismatch, w')
       /\ totalVerificationFailures (cred w')
          = totalVerificationFailures (cred (start test_totp)) + 1
       /\ lastVerificationTime (cred w')
          = clock (Env := env_at 59) (3 + reads (start test_totp))
       /\ reads w' = (4 + reads (start test_totp))%nat
       /\ clientOffset (cred w') = clientOffset (cred (start test_totp))
       /\ key (cred w') = key (cred (start test_totp))
       /\ digits (cred w') = digits (cred (start test_totp))
       /\ issuer (cred w') = issuer (cred (start test_totp))
       /\ account (cred w') = account (cred (start test_totp))
       /\ stepSize (cred w') = stepSize (cred (start test_totp))
       /\ hashFunction (cred w') = hashFunction (cred (start test_totp)).
Proof.
  assert (Hs : hmac_sized (env_at 59)) by apply hmac_sized_crypto.
  assert (Hcode : "1234567"%string <> ""%string) by discriminate.
  assert (Hopen : - 2 ^ 63 <= totalVerificationFailures (cred (start test_totp))
                  < MAX_FAILURES)
    by (split; [discriminate | reflexivity]).
  assert (Hstep : stepSize (cred (start test_totp)) <> 0) by discriminate.
  assert (H0 : calculateTOTP (H := env_at 59) (-1) (start test_totp)
               = Ret ("84755224"%string, counted test_totp 0 1))
    by (vm_compute; reflexivity).
  assert (H1 : calculateTOTP (H := env_at 59) 0 (counted test_totp 0 1)
               = Ret ("94287082"%string, counted test_totp 1 2))
    by (vm_compute; reflexivity).
  assert (H2 : calculateTOTP (H := env_at 59) 1 (counted test_totp 1 2)
               = Ret ("37359152"%string, counted test_totp 2 3))
    by (vm_compute; reflexivity).
  assert (N0 : token_hash (H := env_at 59) "84755224"
               <> token_hash (H := env_at 59) "1234567")
    by (vm_compute; discriminate).
  assert (N1 : token_hash (H := env_at 59) "94287082"
               <> token_hash (H := env_at 59) "1234567")
    by (vm_compute; discriminate).
  assert (N2 : token_hash (H := env_at 59) "37359152"
               <> token_hash (H := env_at 59) "1234567")
    by (vm_compute; discriminate).
  repeat (split; [assumption |]).
  exact (proj2 (Validate_mismatch (E := env_at 59) Hs (start test_totp)
                  "1234567" Hcode Hopen Hstep)
           _ _ _ _ _ _ H0 H1 H2 N0 N1 N2).
Defined.

(** The run of the package's test of the failures, with the clock at 59
    seconds: the right code passes, a wrong code fails with one more
    failure, and after three failures the right code is refused. *)
Example Validate_right_code :
  exists w,
    Validate (H := env_at 59) "94287082" (start test_totp) = Ret (None, w)
    /\ totalVerificationFailures (cred w) = 0
    /\ clientOffset (cred w) = 0.
Proof. eexists. split; [vm_compute; reflexivity |]. split; reflexivity. Qed.

Example Validate_wrong_code :
  exists w,
    Validate (H := env_at 59) "1234567" (start test_totp)
    = Ret (Some err_mismatch, w)
    /\ totalVerificationFailures (cred w) = 1
    /\ lastVerificationTime (cred w) = time_Unix 59.
Proof. eexists. split; [vm_compute; reflexivity |]. split; reflexivity. Qed.

(** The code of the step before is accepted and moves the client offset. *)
Example Validate_previous_step :
  exists w,
    Validate (H := env_at 89) "94287082" (start test_totp) = Ret (None, w)
    /\ clientOffset (cred w) = -1.
Proof. eexists. split; [vm_compute; reflexivity |]. reflexivity. Qed.

(** A credential whose step size is zero, as [new(totp)] and a decoded
    record can have it, makes [Validate] panic on the division. *)
Example Validate_zero_step_panics :
  Validate (H := env_at 59) "94287082" (start new_totp)
  = Panics IntegerDivideByZero.
Proof. reflexivity. Qed.

(** Three wrong codes lock the credential: the right code is then refused
    and the failures stay at three. *)
Example Validate_three_failures_lock :
  exists w,
    (Validate (H := env_at 59) "1234567";;;
     Validate (H := env_at 59) "1234567";;;
     Validate (H := env_at 59) "1234567";;;
     Validate (H := env_at 59) "94287082")%method (start test_totp)
    = Ret (Some err_locked, w)
    /\ totalVerificationFailures (cred w) = 3.
Proof. eexists. split; [vm_compute; reflexivity | reflexivity]. Qed.

(** ** More of the token engine *)

Section Tokens.
Context {E : Env}.

(** [calculateTOTP], step by step: the counter of the shifted reading of
    the clock, then the token of the credential at that counter. *)
Lemma calculateTOTP_run (i : Z) (w : World) :
  calculateTOTP i w
  = (n <- increment (shifted_Unix (cred w) i (clock (reads w)))
            (stepSize (cred w));;
     code <- token_of (cred w) n;;
     Ret (code, counted (cred w) n (S (reads w))))%outcome.
Proof.
  unfold calculateTOTP, incrementCounter, mbind, this, time_Now, lift, assign.
  cbn [cred reads]. fold (shifted_Unix (cred w) i (clock (reads w))).
  destruct (increment _ _) as [n |]; [| reflexivity].
  cbn [obind cred reads counter set_counter digits].
  unfold token_of, hash_of.
  destruct (calculateToken _ _ _); reflexivity.
Qed.

Lemma calculateTOTP_code (i : Z) (w : World) :
  code_of (calculateTOTP i w) = totp_at (cred w) i (clock (reads w)).
Proof.
  rewrite calculateTOTP_run. unfold code_of, totp_at.
  destruct (increment _ _) as [n |]; [| reflexivity].
  cbn [obind]. destruct (token_of _ _); reflexivity.
Qed.

(** X1: a credential whose step size is 0, as the zero value of the type
    and a decoded record can have it, makes [OTP] panic on the division,
    and [Validate] too once it gets to the tokens. *)
Theorem zero_stepSize_panics (w : World) (userCode : string) :
  stepSize (cred w) = 0 ->
  userCode <> ""%string ->
  totalVerificationFailures (cred w) < MAX_FAILURES ->
  OTP w = Panics IntegerDivideByZero
  /\ Validate userCode w = Panics IntegerDivideByZero.
Proof.
  intros Hstep Hcode Hopen.
  assert (Hrun : forall i, calculateTOTP i w = Panics IntegerDivideByZero).
  { intros i. rewrite calculateTOTP_run. unfold increment.
    rewrite Hstep. reflexivity. }
  split; [apply Hrun |].
  rewrite (Validate_open userCode w Hcode Hopen).
  unfold compare_tokens, mbind. rewrite Hrun. reflexivity.
Qed.

Lemma replicate_snoc (n : nat) (c : ascii) :
  (replicate n c ++ String c "")%string = replicate (S n) c.
Proof. induction n as [| n IH]; [reflexivity |]. cbn. f_equal. exact IH. Qed.

Lemma Sprintf_0d_zero (digits : Z) :
  1 <= digits ->
  Sprintf_0d digits 0 = replicate (Z.to_nat digits) "0".
Proof.
  intros Hd. unfold Sprintf_0d.
  destruct (Z.leb_spec 0 digits); [| lia].
  change (FormatUint 0) with (String "0" "").
  rewrite Z.abs_eq by lia. cbn [String.length].
  replace (Z.to_nat digits) with (S (Z.to_nat digits - 1)) at 2 by lia.
  apply replicate_snoc.
Qed.

Hypothesis hmac_size : hmac_sized E.

Lemma truncateHash_hmac (a : hash_New) (k cnt : list byte) :
  truncateHash (hmac_digest a k cnt) (digest_Size a)
  = Ret (rfc4226_value (hmac_digest a k cnt)).
Proof.
  rewrite <- (hmac_size a k cnt).
  apply truncateHash_rfc4226.
  rewrite hmac_size. destruct a; cbn; lia.
Qed.

(** X2: with a number of digits that is not 6, 7 or 8 (here from 1 to a
    million, the widths that [fmt] takes), the token is that many zeros,
    whatever the key, the hash and the counter are; so is the password of
    every credential with such digits, at any time. *)
Theorem calculateToken_other_digits (d : Z) :
  1 <= d <= 1000000 -> d <> 6 -> d <> 7 -> d <> 8 ->
  (forall (a : hash_New) (k cnt : list byte),
      calculateToken cnt d (hmac_New a k) = Ret (replicate (Z.to_nat d) "0"))
  /\ (forall w : World,
         digits (cred w) = d -> stepSize (cred w) <> 0 ->
         exists w', OTP w = Ret (replicate (Z.to_nat d) "0", w')).
Proof.
  intros Hd H6 H7 H8.
  assert (Htoken : forall (a : hash_New) (k cnt : list byte),
             calculateToken cnt d (hmac_New a k)
             = Ret (replicate (Z.to_nat d) "0")).
  { intros a k cnt. unfold calculateToken, hmac_New, Write, Sum.
    cbn [digest_of Size written app].
    rewrite truncateHash_hmac. cbn [obind].
    destruct (Z.eqb_spec d 8); [contradiction |].
    destruct (Z.eqb_spec d 7); [contradiction |].
    destruct (Z.eqb_spec d 6); [contradiction |].
    rewrite Sprintf_0d_zero by lia. reflexivity. }
  split; [exact Htoken |].
  intros w Hdigits Hstep. unfold OTP. rewrite calculateTOTP_run.
  unfold increment.
  destruct (Z.eqb_spec (stepSize (cred w)) 0); [contradiction |].
  cbn [obind]. unfold token_of, hash_of. rewrite Hdigits.
  destruct (hashFunction (cred w) =? crypto_SHA256);
    [| destruct (hashFunction (cred w) =? crypto_SHA512)];
    rewrite Htoken; cbn [obind]; eexists; reflexivity.
Qed.

Lemma token_of_returns (otp : totp) (n : Z) :
  exists code, token_of otp n = Ret code.
Proof.
  unfold token_of, hash_of.
  destruct (hashFunction otp =? crypto_SHA256);
    [| destruct (hashFunction otp =? crypto_SHA512)];
    apply (calculateToken_returns hmac_size).
Qed.

(** The shifted time, in seconds, when the two durations fit [int64]. *)
Lemma shifted_Unix_seconds (otp : totp) (index : Z) (t : Time) :
  in_int64 (index * stepSize otp * time_Second) ->
  in_int64 (clientOffset otp * stepSize otp * time_Second) ->
  shifted_Unix otp index t
  = time_Unix_of t + (index + clientOffset otp) * stepSize otp.
Proof.
  intros Hi Ho. unfold shifted_Unix, time_Add, wrap_int.
  set (x := index * stepSize otp) in *.
  set (y := clientOffset otp * stepSize otp) in *.
  assert (Hx : in_int64 x) by (unfold in_int64, time_Second in *; lia).
  assert (Hy : in_int64 y) by (unfold in_int64, time_Second in *; lia).
  rewrite (wrap_int64_small x Hx), (wrap_int64_small y Hy).
  rewrite (wrap_int64_small _ Hi), (wrap_int64_small _ Ho).
  unfold time_Unix_of.
  replace (t + x * time_Second + y * time_Second)
    with (t + (x + y) * time_Second) by ring.
  rewrite Z.div_add by (unfold time_Second; lia).
  subst x y. ring.
Qed.

(** X3: for a positive step size, durations that fit [int64] and a
    shifted time from the epoch on and below 2^52 seconds,
    [calculateTOTP] returns; the counter it leaves is the step of the
    clock's reading plus the index and the client offset, the code it
    returns is the token of that counter, and it writes nothing but the
    counter.  [OTP] is the case of index 0. *)
Theorem calculateTOTP_counter (index : Z) (w : World) :
  0 < stepSize (cred w) ->
  in_int64 (index * stepSize (cred w) * time_Second) ->
  in_int64 (clientOffset (cred w) * stepSize (cred w) * time_Second) ->
  0 <= time_Unix_of (clock (reads w))
       + (index + clientOffset (cred w)) * stepSize (cred w) < 2 ^ 52 ->
  exists code w',
    calculateTOTP index w = Ret (code, w')
    /\ getIntCounter (cred w')
       = time_Unix_of (clock (reads w)) / stepSize (cred w)
         + index + clientOffset (cred w)
    /\ token_of (cred w) (getIntCounter (cred w')) = Ret code
    /\ reads w' = S (reads w)
    /\ same_configuration (cred w') (cred w)
    /\ clientOffset (cred w') = clientOffset (cred w)
    /\ totalVerificationFailures (cred w')
       = totalVerificationFailures (cred w)
    /\ lastVerificationTime (cred w') = lastVerificationTime (cred w).
Proof.
  intros Hstep Hi Ho Hrange.
  rewrite calculateTOTP_run.
  rewrite (shifted_Unix_seconds _ _ _ Hi Ho).
  rewrite increment_quotient by assumption. cbn [obind].
  rewrite Z.div_add by lia.
  set (n := time_Unix_of (clock (reads w)) / stepSize (cred w)
            + (index + clientOffset (cred w))).
  assert (Hn : 0 <= n < 2 ^ 64).
  { subst n. rewrite <- Z.div_add by lia. split.
    - apply Z.div_pos; lia.
    - apply Z.div_lt_upper_bound; [lia |]. nia. }
  destruct (token_of_returns (cred w) n) as [code Hcode].
  rewrite Hcode. cbn [obind].
  exists code. eexists. split; [reflexivity |].
  unfold counted, getIntCounter, same_configuration.
  cbn [cred reads counter set_counter key digits issuer account stepSize
       hashFunction clientOffset totalVerificationFailures
       lastVerificationTime].
  rewrite uint64FromBigEndian_bigEndianUint64, wrap_uint64_small by exact Hn.
  repeat split; try reflexivity; [subst n; ring | exact Hcode].
Qed.

End Tokens.

(** ** More of the verification *)

Lemma format_uint_S (fuel : nat) (n : Z) (acc : string) :
  format_uint (S fuel) n acc
  = if n <? 10 then String (digit_char (n mod 10)) acc
    else format_uint fuel (n / 10) (String (digit_char (n mod 10)) acc).
Proof. reflexivity. Qed.

Lemma format_uint_nonempty (fuel : nat) :
  forall (n : Z) (acc : string),
    acc <> ""%string -> format_uint fuel n acc <> ""%string.
Proof.
  induction fuel as [| fuel IH]; intros n acc Hacc; [exact Hacc |].
  rewrite format_uint_S.
  destruct (n <? 10); [discriminate |]. apply IH. discriminate.
Qed.

Lemma FormatUint_nonempty (n : Z) : FormatUint n <> ""%string.
Proof.
  unfold FormatUint. rewrite format_uint_S.
  destruct (n <? 10); [discriminate |].
  apply format_uint_nonempty. discriminate.
Qed.

Lemma append_nonempty_l (s t : string) :
  s <> ""%string -> (s ++ t)%string <> ""%string.
Proof. destruct s; [contradiction | discriminate]. Qed.

Lemma append_nonempty_r (s t : string) :
  t <> ""%string -> (s ++ t)%string <> ""%string.
Proof. destruct s; [intros H; exact H | discriminate]. Qed.

(** A token is never the empty string. *)
Lemma Sprintf_0d_nonempty (digits n : Z) : Sprintf_0d digits n <> ""%string.
Proof.
  unfold Sprintf_0d. pose proof (FormatUint_nonempty n).
  destruct (0 <=? digits);
    [apply append_nonempty_r | apply append_nonempty_l]; assumption.
Qed.

Lemma calculateToken_nonempty (cnt : list byte) (d : Z) (h : hash_Hash)
    (code : string) :
  calculateToken cnt d h = Ret code -> code <> ""%string.
Proof.
  unfold calculateToken.
  destruct (truncateHash _ _) as [v |]; [| discriminate].
  cbn [obind]. intros H. inversion H. apply Sprintf_0d_nonempty.
Qed.

(** [increment] takes of a time its quotient by the step size only. *)
Lemma increment_same_step (ts ts' stepSize : Z) :
  Z.quot ts stepSize = Z.quot ts' stepSize ->
  increment ts stepSize = increment ts' stepSize.
Proof. intros H. unfold increment. rewrite H. reflexivity. Qed.

Section Acceptance.
Context {E : Env}.
Hypothesis hmac_size : hmac_sized E.

(** The token of step 0 in a validation: it is computed at the second
    reading of the clock, for the credential as it was. *)
Lemma current_token (w w1 w2 : World) (c0 c1 : string) :
  calculateTOTP (-1) w = Ret (c0, w1) ->
  calculateTOTP 0 w1 = Ret (c1, w2) ->
  totp_at (cred w) 0 (clock (S (reads w))) = Ret c1.
Proof.
  intros H0 H1.
  destruct (calculateTOTP_frame _ _ _ _ H0) as [n0 ->].
  pose proof (calculateTOTP_code 0
                {| cred := set_counter (cred w) n0; reads := S (reads w) |})
    as Hcode.
  rewrite H1 in Hcode. unfold code_of in Hcode.
  cbn [obind fst cred reads] in Hcode. symmetry. exact Hcode.
Qed.

(** X4: the code that [OTP] returns is accepted by the [Validate] that
    follows, when the credential is open, its step size is not 0, and the
    reading of the clock at which [Validate] computes the current token is
    in the time step of the reading of [OTP]; the client offset, the
    failures and the time of the last verification stay as they were. *)
Theorem Validate_OTP (w : World) :
  totalVerificationFailures (cred w) < MAX_FAILURES ->
  stepSize (cred w) <> 0 ->
  time_step (cred w) (clock (2 + reads w))
  = time_step (cred w) (clock (reads w)) ->
  exists code w1 w2,
    OTP w = Ret (code, w1)
    /\ Validate code w1 = Ret (None, w2)
    /\ clientOffset (cred w2) = clientOffset (cred w)
    /\ totalVerificationFailures (cred w2)
       = totalVerificationFailures (cred w)
    /\ lastVerificationTime (cred w2) = lastVerificationTime (cred w)
    /\ same_configuration (cred w2) (cred w).
Proof.
  intros Hopen Hstep Hsame.
  destruct (calculateTOTP_returns hmac_size 0 w Hstep) as (code & n & Hotp).
  set (w1 := {| cred := set_counter (cred w) n; reads := S (reads w) |}) in *.
  assert (Hcode : code <> ""%string).
  { pose proof (calculateTOTP_code 0 w) as Hc. rewrite Hotp in Hc.
    unfold code_of in Hc. cbn [obind fst] in Hc. unfold totp_at in Hc.
    destruct (increment _ _) as [m |]; [| discriminate].
    cbn [obind] in Hc. symmetry in Hc.
    apply calculateToken_nonempty in Hc. exact Hc. }
  destruct (three_tokens hmac_size w1 Hstep)
    as (c0 & c1 & c2 & v1 & v2 & v3 & H0 & H1 & H2 & Hreads & Hcred).
  assert (Hc1 : c1 = code).
  { pose proof (current_token w1 v1 v2 c0 c1 H0 H1) as Hcur.
    pose proof (calculateTOTP_code 0 w) as Hc. rewrite Hotp in Hc.
    unfold code_of in Hc. cbn [obind fst] in Hc.
    unfold totp_at in Hcur, Hc.
    unfold time_step in Hsame. apply increment_same_step in Hsame.
    change (shifted_Unix (cred w1) 0 (clock (S (reads w1))))
      with (shifted_Unix (cred w) 0 (clock (2 + reads w))) in Hcur.
    change (stepSize (cred w1)) with (stepSize (cred w)) in Hcur.
    rewrite Hsame in Hcur.
    change (token_of (cred w1)) with (token_of (cred w)) in Hcur.
    rewrite <- Hc in Hcur. inversion Hcur. reflexivity. }
  exists code, w1, v3. split; [exact Hotp |].
  rewrite (Validate_open code w1 Hcode Hopen).
  rewrite (compare_tokens_cases code w1 v1 v2 v3 c0 c1 c2 H0 H1 H2).
  rewrite Hc1, String.eqb_refl. split; [reflexivity |].
  rewrite Hcred. unfold same_configuration. repeat split.
Qed.

End Acceptance.

(** ** Sequences of validations *)

Section Sequences.
Context {E : Env}.

(** X5: while a credential with three failures or more is inside the
    backoff window, every code that is not empty is refused with the
    lock-down error, the right one too, and the credential stays exactly as
    it was: an attempt made during the lock does not prolong it. *)
Theorem Validate_each_locked (codes : list string) (w : World) :
  Forall (fun code => code <> ""%string) codes ->
  MAX_FAILURES <= totalVerificationFailures (cred w) ->
  (forall k, (reads w <= k < reads w + List.length codes)%nat ->
             clock k <= lastVerificationTime (cred w) + backoff) ->
  Validate_each codes w
  = Ret (map (fun _ => Some err_locked) codes,
         {| cred := cred w; reads := (List.length codes + reads w)%nat |}).
Proof.
  revert w. induction codes as [| code rest IH]; intros w Hcodes Hmax Hclock.
  - destruct w. reflexivity.
  - inversion Hcodes as [| ? ? Hcode Hrest]; subst.
    cbn [Validate_each]. unfold mbind at 1.
    rewrite (Validate_locked code w Hcode Hmax)
      by (apply Hclock; cbn [List.length]; lia).
    unfold mbind at 1.
    rewrite (IH {| cred := cred w; reads := S (reads w) |} Hrest Hmax)
      by (intros k Hk; apply Hclock; cbn [List.length reads] in *; lia).
    unfold mret. cbn [map List.length cred reads].
    rewrite Nat.add_succ_r. reflexivity.
Qed.

Hypothesis hmac_size : hmac_sized E.

(** X6: there is no protection against replay: while the current token of
    an open credential is [code] at every reading of the clock, [Validate]
    accepts [code] as many times as it is asked, and the client offset,
    the failures and the time of the last verification stay as they
    were. *)
Theorem Validate_each_accepted_again (code : string) (n : nat) (w : World) :
  totalVerificationFailures (cred w) < MAX_FAILURES ->
  (forall k, (reads w <= k)%nat ->
             totp_at (cred w) 0 (clock k) = Ret code) ->
  exists w',
    Validate_each (repeat code n) w = Ret (repeat None n, w')
    /\ reads w' = (3 * n + reads w)%nat
    /\ clientOffset (cred w') = clientOffset (cred w)
    /\ totalVerificationFailures (cred w')
       = totalVerificationFailures (cred w)
    /\ lastVerificationTime (cred w') = lastVerificationTime (cred w)
    /\ same_configuration (cred w') (cred w).
Proof.
  revert w. induction n as [| n IH]; intros w Hopen Hcur.
  - exists w. unfold same_configuration. repeat split.
  - assert (Hnow := Hcur (reads w) (Nat.le_refl _)).
    assert (Hstep : stepSize (cred w) <> 0).
    { intros Hz. unfold totp_at, increment in Hnow. rewrite Hz in Hnow.
      discriminate. }
    assert (Hcode : code <> ""%string).
    { unfold totp_at in Hnow.
      destruct (increment _ _) as [m |]; [| discriminate].
      cbn [obind] in Hnow. apply calculateToken_nonempty in Hnow.
      exact Hnow. }
    destruct (three_tokens hmac_size w Hstep)
      as (c0 & c1 & c2 & v1 & v2 & v3 & H0 & H1 & H2 & Hreads & Hcred).
    assert (Hc1 : c1 = code).
    { pose proof (current_token w v1 v2 c0 c1 H0 H1) as Hc.
      rewrite Hcur in Hc by lia. inversion Hc. reflexivity. }
    destruct (IH v3) as (w' & Hrun & Hr & Ho & Hf & Ht & Hconf).
    { rewrite Hcred. exact Hopen. }
    { intros k Hk. rewrite Hcred.
      change (totp_at (set_counter (cred w) (counter (cred v3))) 0 (clock k))
        with (totp_at (cred w) 0 (clock k)).
      apply Hcur. lia. }
    exists w'. cbn [repeat Validate_each]. unfold mbind at 1.
    rewrite (Validate_open code w Hcode Hopen).
    rewrite (compare_tokens_cases code w v1 v2 v3 c0 c1 c2 H0 H1 H2).
    rewrite Hc1, String.eqb_refl. unfold mbind at 1. rewrite Hrun.
    split; [reflexivity |]. split; [lia |].
    rewrite Ho, Hf, Ht. rewrite Hcred.
    split; [reflexivity |]. split; [reflexivity |]. split; [reflexivity |].
    unfold same_configuration in *. rewrite Hcred in Hconf. exact Hconf.
Qed.

(** What one validation keeps, from the computation of the tokens on. *)
Lemma compare_tokens_keeps (code : string) (v : World) :
  stepSize (cred v) <> 0 ->
  0 <= totalVerificationFailures (cred v) < MAX_FAILURES ->
  exists e w',
    compare_tokens code v = Ret (e, w')
    /\ (e = None \/ e = Some err_mismatch)
    /\ same_configuration (cred w') (cred v)
    /\ 0 <= totalVerificationFailures (cred w') <= MAX_FAILURES
    /\ (clientOffset (cred w') = clientOffset (cred v)
        \/ clientOffset (cred w') = -1 \/ clientOffset (cred w') = 1).
Proof.
  intros Hstep Hfail.
  destruct (three_tokens hmac_size v Hstep)
    as (c0 & c1 & c2 & v1 & v2 & v3 & H0 & H1 & H2 & Hreads & Hcred).
  rewrite (compare_tokens_cases code v v1 v2 v3 c0 c1 c2 H0 H1 H2).
  destruct v3 as [c3 r3]. cbn [cred reads] in Hcred |- *.
  rewrite Hcred. unfold same_configuration, MAX_FAILURES in *.
  destruct (String.eqb (token_hash c1) (token_hash code));
    [| destruct (String.eqb (token_hash c0) (token_hash code));
       [| destruct (String.eqb (token_hash c2) (token_hash code))]];
    eexists; eexists; (split; [reflexivity |]);
    cbn [cred key digits issuer account stepSize hashFunction clientOffset
         totalVerificationFailures set_counter set_clientOffset
         set_totalVerificationFailures set_lastVerificationTime];
    try (unfold wrap_int; rewrite wrap_int64_small by (unfold in_int64; lia));
    repeat split; auto; lia.
Qed.

(** What one validation keeps. *)
Lemma Validate_keeps (code : string) (w : World) :
  stepSize (cred w) <> 0 ->
  0 <= totalVerificationFailures (cred w) <= MAX_FAILURES ->
  clock (reads w) <= clock (S (reads w)) ->
  exists e w',
    Validate code w = Ret (e, w')
    /\ Validate_error e
    /\ same_configuration (cred w') (cred w)
    /\ 0 <= totalVerificationFailures (cred w') <= MAX_FAILURES
    /\ (clientOffset (cred w') = clientOffset (cred w)
        \/ clientOffset (cred w') = -1 \/ clientOffset (cred w') = 1).
Proof.
  intros Hstep Hfail Hmono. unfold Validate_error.
  destruct (String.eqb_spec code "") as [-> | Hcode].
  { exists (Some err_empty), w. rewrite Validate_empty.
    unfold same_configuration. repeat split; auto; lia. }
  destruct (Z.lt_ge_cases (totalVerificationFailures (cred w)) MAX_FAILURES)
    as [Hopen | Hmax].
  { rewrite (Validate_open code w Hcode Hopen).
    destruct (compare_tokens_keeps code w Hstep ltac:(lia))
      as (e & w' & Hrun & He & Hrest).
    exists e, w'. split; [exact Hrun |].
    split; [destruct He; auto | exact Hrest]. }
  destruct (Z.le_gt_cases (clock (reads w))
              (lastVerificationTime (cred w) + backoff)) as [Hin | Hout].
  { rewrite (Validate_locked code w Hcode Hmax Hin).
    eexists. eexists. split; [reflexivity |].
    unfold same_configuration. cbn [cred]. repeat split; auto; lia. }
  rewrite (Validate_expired code w Hcode Hmax) by lia.
  set (v := {| cred := set_totalVerificationFailures (cred w) 0;
               reads := S (S (reads w)) |}).
  destruct (compare_tokens_keeps code v Hstep)
    as (e & w' & Hrun & He & Hconf & Hbound & Hoff).
  { cbn. unfold MAX_FAILURES. lia. }
  exists e, w'. split; [exact Hrun |].
  split; [destruct He; auto |].
  split; [exact Hconf |]. split; [exact Hbound | exact Hoff].
Qed.

(** X7: with a step size that is not 0, failures between 0 and 3 and a
    clock that does not go back, every sequence of validations returns as
    many results as it has codes, each one nil or one of the three errors
    of [Validate]; the key, the digits, the issuer, the account, the step
    size and the hash are never written, the failures stay between 0 and
    3, and the client offset is what it was, or -1, or 1. *)
Theorem Validate_each_keeps (codes : list string) (w : World) :
  stepSize (cred w) <> 0 ->
  0 <= totalVerificationFailures (cred w) <= MAX_FAILURES ->
  (forall k, clock k <= clock (S k)) ->
  exists errs w',
    Validate_each codes w = Ret (errs, w')
    /\ List.length errs = List.length codes
    /\ Forall Validate_error errs
    /\ same_configuration (cred w') (cred w)
    /\ 0 <= totalVerificationFailures (cred w') <= MAX_FAILURES
    /\ (clientOffset (cred w') = clientOffset (cred w)
        \/ clientOffset (cred w') = -1 \/ clientOffset (cred w') = 1).
Proof.
  intros Hstep Hfail Hmono. revert w Hstep Hfail.
  induction codes as [| code rest IH]; intros w Hstep Hfail.
  - exists [], w. unfold same_configuration. repeat split; auto; lia.
  - destruct (Validate_keeps code w Hstep Hfail (Hmono _))
      as (e & w1 & Hrun & He & Hconf1 & Hbound1 & Hoff1).
    destruct (IH w1) as (errs & w' & Hrest & Hlen & Hall & Hconf & Hbound & Hoff).
    { destruct Hconf1 as (_ & _ & _ & _ & Hs & _). rewrite Hs. exact Hstep. }
    { exact Hbound1. }
    exists (e :: errs), w'. cbn [Validate_each]. unfold mbind at 1.
    rewrite Hrun. unfold mbind at 1. rewrite Hrest.
    split; [reflexivity |].
    split; [cbn [List.length]; rewrite Hlen; reflexivity |].
    split; [constructor; assumption |].
    split.
    { unfold same_configuration in *.
      destruct Hconf as (A1 & A2 & A3 & A4 & A5 & A6).
      destruct Hconf1 as (B1 & B2 & B3 & B4 & B5 & B6).
      repeat split; congruence. }
    split; [exact Hbound |].
    destruct Hoff as [Hoff | [Hoff | Hoff]]; auto.
    rewrite Hoff. exact Hoff1.
Qed.

End Sequences.

(** ** More of the codec *)

Lemma list_eq_nth (B1 B2 : list byte) :
  len B1 = len B2 ->
  (forall i, 0 <= i < len B1 ->
             nth (Z.to_nat i) B1 Byte.x00 = nth (Z.to_nat i) B2 Byte.x00) ->
  B1 = B2.
Proof.
  intros Hlen Hnth. apply (nth_ext B1 B2 Byte.x00 Byte.x00).
  - unfold len in Hlen. lia.
  - intros n Hn. rewrite <- (Nat2Z.id n). apply Hnth. unfold len. lia.
Qed.

Lemma nth_app_data (data junk : list byte) (i : Z) :
  0 <= i < len data ->
  nth (Z.to_nat i) (data ++ junk) Byte.x00 = nth (Z.to_nat i) data Byte.x00.
Proof. intros Hi. apply app_nth1. unfold len in Hi. lia. Qed.

(** X8: [TOTPFromBytes] reads the bytes that the total size declares and no
    more: when an input holds all of them, what follows them changes neither
    the credential nor the error nor the panic. *)
Theorem TOTPFromBytes_trailing_bytes (data junk : list byte) :
  4 <= len data ->
  declared_totalSize data <= len data ->
  TOTPFromBytes (data ++ junk) = TOTPFromBytes data.
Proof.
  intros H4 Hdecl.
  assert (Hd : declared_totalSize (data ++ junk) = declared_totalSize data).
  { unfold declared_totalSize, field32, bytes4_at.
    rewrite !nth_app_data by lia. reflexivity. }
  destruct (TOTPFromBytes_reads data) as [Hs1 Hb1].
  destruct (TOTPFromBytes_reads (data ++ junk)) as [Hs2 Hb2].
  rewrite Hd in Hs2, Hb2.
  destruct (Z.lt_ge_cases (declared_totalSize data) 4) as [Hsmall | Hbig].
  { rewrite Hs1, Hs2 by assumption. reflexivity. }
  destruct (Hb1 Hbig) as (B1 & L1 & N1 & R1).
  destruct (Hb2 Hbig) as (B2 & L2 & N2 & R2).
  rewrite R1, R2.
  assert (HB : B2 = B1).
  { apply list_eq_nth; [lia |].
    intros i Hi. rewrite N2 by exact Hi. rewrite N1 by lia.
    apply nth_app_data. lia. }
  subst B2.
  pose proof (len_nonneg junk) as Hjunk.
  destruct (Z.leb_spec (len data) 4) as [Hfour | Hmore].
  - assert (HB : B1 = []).
    { destruct B1 as [| b B1]; [reflexivity |].
      rewrite len_cons in L1. pose proof (len_nonneg B1). lia. }
    subst B1. destruct (len (data ++ junk) <=? 4); reflexivity.
  - destruct (Z.leb_spec (len (data ++ junk)) 4) as [Hle |]; [| reflexivity].
    rewrite len_app in Hle. lia.
Qed.

Lemma bigEndianInt_intFromBigEndian (d : byte4) :
  bigEndianInt (intFromBigEndian d) = d.
Proof.
  destruct d as [[[b0 b1] b2] b3]. unfold intFromBigEndian.
  rewrite be32_sum. unfold bigEndianInt, wrap_int32. byte_ranges.
  rewrite !Z.shiftr_div_pow2 by lia.
  repeat match goal with |- (_, _) = (_, _) => f_equal end;
    apply of_Z_eq; Z.div_mod_to_equations; lia.
Qed.

Lemma wrap_uint64_wrap_int64 (u : Z) :
  0 <= u < 2 ^ 64 -> wrap_uint64 (wrap_int64 u) = u.
Proof.
  intros Hu. unfold wrap_uint64, wrap_int64.
  Z.div_mod_to_equations. lia.
Qed.

(** X9: the other way round of the codec.  A record made of the fields in
    the order of the layout, whose total size is its length, whose three
    size fields are the lengths of the key, the issuer and the account, and
    whose hash tag is 0, 1 or 2, is decoded with a nil error, and the
    credential it gives is encoded as the same bytes. *)
Theorem ToBytes_TOTPFromBytes
    (t kS : byte4) (k : list byte) (c : byte8) (dg iS : byte4)
    (iss : list byte) (aS : byte4) (acc : list byte) (st off fl : byte4)
    (tm : byte8) (hs : byte4) :
  let data :=
    bytes_of_byte4 t ++ bytes_of_byte4 kS ++ k ++ bytes_of_byte8 c
    ++ bytes_of_byte4 dg ++ bytes_of_byte4 iS ++ iss ++ bytes_of_byte4 aS
    ++ acc ++ bytes_of_byte4 st ++ bytes_of_byte4 off ++ bytes_of_byte4 fl
    ++ bytes_of_byte8 tm ++ bytes_of_byte4 hs in
  intFromBigEndian t = len data ->
  intFromBigEndian kS = len k ->
  intFromBigEndian iS = len iss ->
  intFromBigEndian aS = len acc ->
  0 <= intFromBigEndian hs <= 2 ->
  exists y,
    TOTPFromBytes data = Ret (y, None)
    /\ ToBytes y = (data, None).
Proof.
  intros data Ht Hk Hi Ha Hh. subst data.
  assert (Htotal : intFromBigEndian t = 52 + len k + len iss + len acc).
  { rewrite Ht. rewrite !len_app, !len_bytes_of_byte4, !len_bytes_of_byte8.
    lia. }
  eexists. split.
  - apply TOTPFromBytes_of_fields; try assumption.
    rewrite Htotal. rewrite !len_app, !len_bytes_of_byte4, !len_bytes_of_byte8.
    lia.
  - rewrite ToBytes_layout. f_equal. unfold layout.
    cbn [key counter digits issuer account stepSize clientOffset
         totalVerificationFailures lastVerificationTime hashFunction].
    rewrite !list_byte_of_string_of_list_byte.
    rewrite <- Htotal, <- Hk, <- Hi, <- Ha.
    rewrite time_Unix_of_Unix.
    rewrite wrap_uint64_wrap_int64 by apply uint64FromBigEndian_range.
    rewrite bigEndianUint64_uint64FromBigEndian.
    assert (Hhash :
              bigEndianInt
                (hashType_of
                   (if intFromBigEndian hs =? 1 then crypto_SHA256
                    else if intFromBigEndian hs =? 2 then crypto_SHA512
                         else crypto_SHA1)) = hs).
    { destruct (Z.eqb_spec (intFromBigEndian hs) 1) as [H1 | H1];
        [rewrite <- (bigEndianInt_intFromBigEndian hs), H1; reflexivity |].
      destruct (Z.eqb_spec (intFromBigEndian hs) 2) as [H2 | H2];
        [rewrite <- (bigEndianInt_intFromBigEndian hs), H2; reflexivity |].
      rewrite <- (bigEndianInt_intFromBigEndian hs).
      replace (intFromBigEndian hs) with 0 by lia. reflexivity. }
    rewrite Hhash. rewrite !bigEndianInt_intFromBigEndian. reflexivity.
Qed.

(** X10: a credential that was encoded and decoded gives the passwords of
    the original: at every reading of the clock and for every index,
    [calculateTOTP] returns the same code for both, or panics for both. *)
Theorem calculateTOTP_after_round_trip {E : Env} (x : totp) :
  wire_encodable x ->
  exists y,
    TOTPFromBytes (fst (ToBytes x)) = Ret (y, None)
    /\ forall (index : Z) (r : nat),
         code_of (calculateTOTP index {| cred := y; reads := r |})
         = code_of (calculateTOTP index {| cred := x; reads := r |}).
Proof.
  intros Hx. rewrite ToBytes_layout. cbn [fst].
  rewrite (TOTPFromBytes_layout x Hx).
  eexists. split; [reflexivity |].
  intros index r. rewrite !calculateTOTP_code. reflexivity.
Qed.

Lemma read_fields_shape (B : list byte) (err e : option error) (otp : totp) :
  read_fields B err = Ret (otp, e) ->
  e = err
  /\ (hashFunction otp = crypto_SHA1 \/ hashFunction otp = crypto_SHA256
      \/ hashFunction otp = crypto_SHA512)
  /\ lastVerificationTime otp = to_the_second (lastVerificationTime otp).
Proof.
  unfold read_fields. cbv zeta.
  repeat match goal with
         | |- context [obind ?o _] =>
             lazymatch o with
             | obind _ _ => fail
             | _ => destruct o; cbn [obind]; [| discriminate]
             end
         end.
  intros H. inversion H. subst. clear H.
  cbn [hashFunction lastVerificationTime].
  split; [reflexivity |]. split.
  - match goal with
    | |- context [?x =? 1] => destruct (x =? 1); [auto |]
    end.
    match goal with
    | |- context [?x =? 2] => destruct (x =? 2); auto
    end.
  - unfold to_the_second. rewrite time_Unix_of_Unix. reflexivity.
Qed.

(** X11: every credential that [TOTPFromBytes] returns has one of the three
    hashes of the package, a hash tag that is neither 1 nor 2 being read as
    SHA-1, and a time of last verification in whole seconds; the error that
    comes with it is nil or [io.EOF]. *)
Theorem TOTPFromBytes_shape (data : list byte) (otp : totp) (e : option error) :
  TOTPFromBytes data = Ret (otp, e) ->
  (e = None \/ e = Some io_EOF)
  /\ (hashFunction otp = crypto_SHA1 \/ hashFunction otp = crypto_SHA256
      \/ hashFunction otp = crypto_SHA512)
  /\ lastVerificationTime otp = to_the_second (lastVerificationTime otp).
Proof.
  intros Hrun. destruct (TOTPFromBytes_reads data) as [Hsmall Hbig].
  destruct (Z.lt_ge_cases (declared_totalSize data) 4) as [Hlt | Hge].
  { rewrite (Hsmall Hlt) in Hrun. discriminate. }
  destruct (Hbig Hge) as (B & _ & _ & Hfields).
  rewrite Hfields in Hrun. apply read_fields_shape in Hrun.
  destruct Hrun as (-> & Hhash & Htime).
  split; [destruct (len data <=? 4); auto |].
  split; assumption.
Qed.

(** ** The creation of a credential *)

(** X12: when the hash is registered and the generator fills the key,
    [NewTOTP] returns a credential with a nil error: its key is what the
    generator returned, its digits are the digits asked when they are 6, 7 or
    8 and 8 otherwise, its step size is 30, and its client offset, its
    failures and its counter are 0.  When the generator fails, [NewTOTP]
    returns no credential and an error that tells the number of bytes it
    got. *)
Theorem NewTOTP_result {P : Platform} (account_ issuer_ : string)
    (hash : crypto_Hash) (digits_ keySize : Z) :
  Hash_Size hash = Some keySize ->
  0 <= keySize ->
  (forall k total,
      rand_Read (repeat Byte.x00 (Z.to_nat keySize)) = (k, (total, None)) ->
      exists otp,
        NewTOTP account_ issuer_ hash digits_ = Some (Ret (Some otp, None))
        /\ key otp = k
        /\ 6 <= digits otp <= 8
        /\ (6 <= digits_ <= 8 -> digits otp = digits_)
        /\ (digits_ < 6 \/ 8 < digits_ -> digits otp = 8)
        /\ stepSize otp = 30
        /\ clientOffset otp = 0
        /\ totalVerificationFailures otp = 0
        /\ getIntCounter otp = 0
        /\ account otp = account_ /\ issuer otp = issuer_
        /\ hashFunction otp = hash)
  /\ (forall k total e,
         rand_Read (repeat Byte.x00 (Z.to_nat keySize)) = (k, (total, Some e)) ->
         NewTOTP account_ issuer_ hash digits_
         = Some (Ret (None,
                      Some (errors_New
                              ("TOTP failed to create because there is not enough entropy, we got only "
                               ++ FormatInt total ++ " random bytes"))))).
Proof.
  intros Hsize Hpos. unfold NewTOTP. rewrite Hsize. unfold make.
  destruct (Z.leb_spec 0 keySize); [| lia]. cbn [obind].
  split.
  - intros k total Hrand. rewrite Hrand. eexists. split; [reflexivity |].
    cbn [key digits stepSize clientOffset totalVerificationFailures account
         issuer hashFunction].
    split; [reflexivity |].
    destruct (Z.ltb_spec digits_ 6); destruct (Z.ltb_spec 8 digits_);
      cbn [orb]; repeat split; try reflexivity; lia.
  - intros k total e Hrand. rewrite Hrand. reflexivity.
Qed.

(** ** The lock *)

Section Lock.
Context {E : Env}.

(** A mismatch of an open credential counts once, and is dated at the
    fourth reading of the clock. *)
Lemma Validate_mismatch_counts (code : string) (w w' : World) :
  0 <= totalVerificationFailures (cred w) < MAX_FAILURES ->
  Validate code w = Ret (Some err_mismatch, w') ->
  totalVerificationFailures (cred w')
  = totalVerificationFailures (cred w) + 1
  /\ lastVerificationTime (cred w') = clock (3 + reads w)
  /\ reads w' = (4 + reads w)%nat.
Proof.
  intros Hfail Hrun.
  destruct (String.eqb_spec code "") as [-> | Hcode].
  { rewrite Validate_empty in Hrun. discriminate. }
  rewrite (Validate_open code w Hcode) in Hrun by lia.
  destruct (calculateTOTP (-1) w) as [[c0 w1] |] eqn:H0;
    [| unfold compare_tokens, mbind in Hrun; rewrite H0 in Hrun;
       discriminate].
  destruct (calculateTOTP 0 w1) as [[c1 w2] |] eqn:H1;
    [| unfold compare_tokens, mbind in Hrun; rewrite H0, H1 in Hrun;
       discriminate].
  destruct (calculateTOTP 1 w2) as [[c2 w3] |] eqn:H2;
    [| unfold compare_tokens, mbind in Hrun; rewrite H0, H1, H2 in Hrun;
       discriminate].
  rewrite (compare_tokens_cases code w w1 w2 w3 c0 c1 c2 H0 H1 H2) in Hrun.
  destruct (three_tokens_frame w w1 w2 w3 c0 c1 c2 H0 H1 H2)
    as [Hreads Hcred].
  destruct (String.eqb (token_hash c1) (token_hash code)); [discriminate |].
  destruct (String.eqb (token_hash c0) (token_hash code)); [discriminate |].
  destruct (String.eqb (token_hash c2) (token_hash code)); [discriminate |].
  inversion Hrun as [Hw']. cbn [cred reads].
  rewrite Hreads, Hcred.
  cbn [totalVerificationFailures lastVerificationTime set_counter
       set_totalVerificationFailures set_lastVerificationTime].
  unfold wrap_int. rewrite wrap_int64_small
    by (unfold in_int64, MAX_FAILURES in *; lia).
  repeat split.
Qed.

(** X13: three mismatches in a row lock a credential that had no failure:
    the failures are then 3, the time of the last verification is the
    reading of the clock at the third mismatch, and every code that is not
    empty is refused with the lock-down error as long as the clock is not
    more than five minutes past that reading. *)
Theorem three_mismatches_lock (a b c code : string) (w w' : World) :
  totalVerificationFailures (cred w) = 0 ->
  Validate_each [a; b; c] w
  = Ret ([Some err_mismatch; Some err_mismatch; Some err_mismatch], w') ->
  code <> ""%string ->
  clock (reads w') <= clock (11 + reads w) + backoff ->
  totalVerificationFailures (cred w') = 3
  /\ lastVerificationTime (cred w') = clock (11 + reads w)
  /\ Validate code w'
     = Ret (Some err_locked, {| cred := cred w'; reads := S (reads w') |}).
Proof.
  intros Hzero Hrun Hcode Hclock.
  cbn [Validate_each] in Hrun. unfold mbind, mret in Hrun.
  destruct (Validate a w) as [[e1 w1] |] eqn:Ha; [| discriminate].
  destruct (Validate b w1) as [[e2 w2] |] eqn:Hb; [| discriminate].
  destruct (Validate c w2) as [[e3 w3] |] eqn:Hc; [| discriminate].
  inversion Hrun; subst e1 e2 e3 w3. clear Hrun.
  destruct (Validate_mismatch_counts a w w1) as (F1 & _ & R1);
    [unfold MAX_FAILURES; lia | exact Ha |].
  destruct (Validate_mismatch_counts b w1 w2) as (F2 & _ & R2);
    [unfold MAX_FAILURES; lia | exact Hb |].
  destruct (Validate_mismatch_counts c w2 w') as (F3 & T3 & R3);
    [unfold MAX_FAILURES; lia | exact Hc |].
  assert (Hlast : lastVerificationTime (cred w') = clock (11 + reads w)).
  { rewrite T3, R2, R1. reflexivity. }
  split; [lia |]. split; [exact Hlast |].
  apply Validate_locked; [exact Hcode | unfold MAX_FAILURES; lia |].
  rewrite Hlast. exact Hclock.
Qed.

End Lock.

(** ** The theorems of this part at the data of the tests *)

Lemma zero_stepSize_panics_witness :
  stepSize (cred (start new_totp)) = 0
  /\ "94287082"%string <> ""%string
  /\ totalVerificationFailures (cred (start new_totp)) < MAX_FAILURES
  /\ OTP (H := env_at 59) (start new_totp) = Panics IntegerDivideByZero
  /\ Validate (H := env_at 59) "94287082" (start new_totp)
     = Panics IntegerDivideByZero.
Proof.
  assert (H1 : stepSize (cred (start new_totp)) = 0) by reflexivity.
  assert (H2 : "94287082"%string <> ""%string) by discriminate.
  assert (H3 : totalVerificationFailures (cred (start new_totp))
               < MAX_FAILURES) by reflexivity.
  split; [exact H1 |]. split; [exact H2 |]. split; [exact H3 |].
  exact (zero_stepSize_panics (E := env_at 59) (start new_totp) "94287082"
           H1 H2 H3).
Defined.

(** A record whose step size is 0 is decoded without an error, and the
    credential it gives panics at its first password. *)
Example TOTPFromBytes_zero_stepSize :
  exists otp,
    TOTPFromBytes (fst (ToBytes new_totp)) = Ret (otp, None)
    /\ stepSize otp = 0
    /\ OTP (H := env_at 59) (start otp) = Panics IntegerDivideByZero.
Proof.
  eexists. split; [vm_compute; reflexivity |].
  split; reflexivity.
Qed.

Lemma calculateToken_other_digits_witness :
  hmac_sized (env_at 59)
  /\ 1 <= 5 <= 1000000 /\ 5 <> 6 /\ 5 <> 7 /\ 5 <> 8
  /\ digits (cred (start five_digits_totp)) = 5
  /\ stepSize (cred (start five_digits_totp)) <> 0
  /\ calculateToken (bytes_of_byte8 (bigEndianUint64 1)) 5
       (hmac_New (H := env_at 59) sha1_New sha1Key)
     = Ret "00000"%string
  /\ exists w',
       OTP (H := env_at 59) (start five_digits_totp)
       = Ret ("00000"%string, w').
Proof.
  assert (Hs : hmac_sized (env_at 59)) by apply hmac_sized_crypto.
  assert (H1 : 1 <= 5 <= 1000000) by lia.
  assert (H6 : 5 <> 6) by lia.
  assert (H7 : 5 <> 7) by lia.
  assert (H8 : 5 <> 8) by lia.
  assert (Hd : digits (cred (start five_digits_totp)) = 5) by reflexivity.
  assert (Hp : stepSize (cred (start five_digits_totp)) <> 0) by discriminate.
  repeat (split; [assumption |]).
  split.
  - exact (proj1 (calculateToken_other_digits (E := env_at 59) Hs 5
                    H1 H6 H7 H8)
             sha1_New sha1Key (bytes_of_byte8 (bigEndianUint64 1))).
  - exact (proj2 (calculateToken_other_digits (E := env_at 59) Hs 5
                    H1 H6 H7 H8)
             (start five_digits_totp) Hd Hp).
Defined.

Lemma calculateTOTP_counter_witness :
  hmac_sized (env_at 59)
  /\ 0 < stepSize (cred (start test_totp))
  /\ in_int64 (1 * stepSize (cred (start test_totp)) * time_Second)
  /\ in_int64 (clientOffset (cred (start test_totp))
               * stepSize (cred (start test_totp)) * time_Second)
  /\ 0 <= time_Unix_of (clock (Env := env_at 59) (reads (start test_totp)))
          + (1 + clientOffset (cred (start test_totp)))
            * stepSize (cred (start test_totp)) < 2 ^ 52
  /\ exists code w',
       calculateTOTP (H := env_at 59) 1 (start test_totp) = Ret (code, w')
       /\ getIntCounter (cred w')
          = time_Unix_of (clock (Env := env_at 59) (reads (start test_totp)))
            / stepSize (cred (start test_totp))
            + 1 + clientOffset (cred (start test_totp))
       /\ token_of (H := env_at 59) (cred (start test_totp))
            (getIntCounter (cred w')) = Ret code
       /\ reads w' = S (reads (start test_totp))
       /\ same_configuration (cred w') (cred (start test_totp))
       /\ clientOffset (cred w') = clientOffset (cred (start test_totp))
       /\ totalVerificationFailures (cred w')
          = totalVerificationFailures (cred (start test_totp))
       /\ lastVerificationTime (cred w')
          = lastVerificationTime (cred (start test_totp)).
Proof.
  assert (Hs : hmac_sized (env_at 59)) by apply hmac_sized_crypto.
  assert (H1 : 0 < stepSize (cred (start test_totp))) by reflexivity.
  assert (H2 : in_int64 (1 * stepSize (cred (start test_totp)) * time_Second))
    by (split; vm_compute; (reflexivity || discriminate)).
  assert (H3 : in_int64 (clientOffset (cred (start test_totp))
                         * stepSize (cred (start test_totp)) * time_Second))
    by (split; vm_compute; (reflexivity || discriminate)).
  assert (H4 : 0 <= time_Unix_of
                      (clock (Env := env_at 59) (reads (start test_totp)))
                    + (1 + clientOffset (cred (start test_totp)))
                      * stepSize (cred (start test_totp)) < 2 ^ 52)
    by (split; vm_compute; (reflexivity || discriminate)).
  repeat (split; [assumption |]).
  exact (calculateTOTP_counter (E := env_at 59) Hs 1 (start test_totp)
           H1 H2 H3 H4).
Defined.

Lemma Validate_OTP_witness :
  hmac_sized (crypto_env (ticking_from 60))
  /\ totalVerificationFailures (cred (start test_totp)) < MAX_FAILURES
  /\ stepSize (cred (start test_totp)) <> 0
  /\ time_step (cred (start test_totp))
       (clock (Env := crypto_env (ticking_from 60))
          (2 + reads (start test_totp)))
     = time_step (cred (start test_totp))
         (clock (Env := crypto_env (ticking_from 60))
            (reads (start test_totp)))
  /\ exists code w1 w2,
       OTP (H := crypto_env (ticking_from 60)) (start test_totp)
       = Ret (code, w1)
       /\ Validate (H := crypto_env (ticking_from 60)) code w1 = Ret (None, w2)
       /\ clientOffset (cred w2) = clientOffset (cred (start test_totp))
       /\ totalVerificationFailures (cred w2)
          = totalVerificationFailures (cred (start test_totp))
       /\ lastVerificationTime (cred w2)
          = lastVerificationTime (cred (start test_totp))
       /\ same_configuration (cred w2) (cred (start test_totp)).
Proof.
  assert (Hs : hmac_sized (crypto_env (ticking_from 60)))
    by apply hmac_sized_crypto.
  assert (H1 : totalVerificationFailures (cred (start test_totp))
               < MAX_FAILURES) by reflexivity.
  assert (H2 : stepSize (cred (start test_totp)) <> 0) by discriminate.
  assert (H3 : time_step (cred (start test_totp))
                 (clock (Env := crypto_env (ticking_from 60))
                    (2 + reads (start test_totp)))
               = time_step (cred (start test_totp))
                   (clock (Env := crypto_env (ticking_from 60))
                      (reads (start test_totp))))
    by (vm_compute; reflexivity).
  repeat (split; [assumption |]).
  exact (Validate_OTP (E := crypto_env (ticking_from 60)) Hs
           (start test_totp) H1 H2 H3).
Defined.

Lemma Validate_each_locked_witness :
  Forall (fun code => code <> ""%string)
    ["94287082"%string; "1234567"%string; "94287082"%string]
  /\ MAX_FAILURES <= totalVerificationFailures (cred (start failed_totp))
  /\ (forall k,
         (reads (start failed_totp) <= k < reads (start failed_totp) + 3)%nat ->
         clock (Env := env_at 60) k
         <= lastVerificationTime (cred (start failed_totp)) + backoff)
  /\ Validate_each (H := env_at 60)
       ["94287082"%string; "1234567"%string; "94287082"%string]
       (start failed_totp)
     = Ret ([Some err_locked; Some err_locked; Some err_locked],
            {| cred := failed_totp; reads := 3 |}).
Proof.
  assert (H1 : Forall (fun code => code <> ""%string)
                 ["94287082"%string; "1234567"%string; "94287082"%string])
    by (repeat constructor; discriminate).
  assert (H2 : MAX_FAILURES
               <= totalVerificationFailures (cred (start failed_totp)))
    by (vm_compute; discriminate).
  assert (H3 : forall k,
             (reads (start failed_totp) <= k
              < reads (start failed_totp) + 3)%nat ->
             clock (Env := env_at 60) k
             <= lastVerificationTime (cred (start failed_totp)) + backoff)
    by (intros k _; vm_compute; discriminate).
  repeat (split; [assumption |]).
  exact (Validate_each_locked (E := env_at 60)
           ["94287082"%string; "1234567"%string; "94287082"%string]
           (start failed_totp) H1 H2 H3).
Defined.

Lemma Validate_each_accepted_again_witness :
  hmac_sized (env_at 59)
  /\ totalVerificationFailures (cred (start test_totp)) < MAX_FAILURES
  /\ (forall k, (reads (start test_totp) <= k)%nat ->
                totp_at (H := env_at 59) (cred (start test_totp)) 0
                  (clock (Env := env_at 59) k)
                = Ret "94287082"%string)
  /\ exists w',
       Validate_each (H := env_at 59) (repeat "94287082"%string 10)
         (start test_totp)
       = Ret (repeat None 10, w')
       /\ reads w' = (3 * 10 + reads (start test_totp))%nat
       /\ clientOffset (cred w') = clientOffset (cred (start test_totp))
       /\ totalVerificationFailures (cred w')
          = totalVerificationFailures (cred (start test_totp))
       /\ lastVerificationTime (cred w')
          = lastVerificationTime (cred (start test_totp))
       /\ same_configuration (cred w') (cred (start test_totp)).
Proof.
  assert (Hs : hmac_sized (env_at 59)) by apply hmac_sized_crypto.
  assert (H1 : totalVerificationFailures (cred (start test_totp))
               < MAX_FAILURES) by reflexivity.
  assert (H2 : forall k, (reads (start test_totp) <= k)%nat ->
                         totp_at (H := env_at 59) (cred (start test_totp)) 0
                           (clock (Env := env_at 59) k)
                         = Ret "94287082"%string)
    by (intros k _; vm_compute; reflexivity).
  repeat (split; [assumption |]).
  exact (Validate_each_accepted_again (E := env_at 59) Hs "94287082" 10
           (start test_totp) H1 H2).
Defined.

Lemma Validate_each_keeps_witness :
  hmac_sized (env_at 59)
  /\ stepSize (cred (start test_totp)) <> 0
  /\ 0 <= totalVerificationFailures (cred (start test_totp)) <= MAX_FAILURES
  /\ (forall k, clock (Env := env_at 59) k <= clock (Env := env_at 59) (S k))
  /\ exists errs w',
       Validate_each (H := env_at 59)
         ["94287082"%string; ""%string; "1234567"%string] (start test_totp)
       = Ret (errs, w')
       /\ List.length errs
          = List.length ["94287082"%string; ""%string; "1234567"%string]
       /\ Forall (Validate_error) errs
       /\ same_configuration (cred w') (cred (start test_totp))
       /\ 0 <= totalVerificationFailures (cred w') <= MAX_FAILURES
       /\ (clientOffset (cred w') = clientOffset (cred (start test_totp))
           \/ clientOffset (cred w') = -1 \/ clientOffset (cred w') = 1).
Proof.
  assert (Hs : hmac_sized (env_at 59)) by apply hmac_sized_crypto.
  assert (H1 : stepSize (cred (start test_totp)) <> 0) by discriminate.
  assert (H2 : 0 <= totalVerificationFailures (cred (start test_totp))
               <= MAX_FAILURES)
    by (split; vm_compute; discriminate).
  assert (H3 : forall k, clock (Env := env_at 59) k
                         <= clock (Env := env_at 59) (S k))
    by (intros k; vm_compute; discriminate).
  repeat (split; [assumption |]).
  exact (Validate_each_keeps (E := env_at 59) Hs
           ["94287082"%string; ""%string; "1234567"%string]
           (start test_totp) H1 H2 H3).
Defined.

(** With a clock that goes back between the two readings that [Validate]
    takes for the lock, the failures are not reset, and the mismatch that
    follows is the fourth. *)
Example Validate_clock_back_fourth_failure :
  exists w,
    Validate (H := crypto_env clock_back) "1234567" (start failed_totp)
    = Ret (Some err_mismatch, w)
    /\ totalVerificationFailures (cred w) = 4.
Proof. eexists. split; [vm_compute; reflexivity | reflexivity]. Qed.

Lemma TOTPFromBytes_trailing_bytes_witness :
  4 <= len (fst (ToBytes test_totp))
  /\ declared_totalSize (fst (ToBytes test_totp))
     <= len (fst (ToBytes test_totp))
  /\ TOTPFromBytes (fst (ToBytes test_totp) ++ [Byte.xff; Byte.xff])
     = TOTPFromBytes (fst (ToBytes test_totp)).
Proof.
  assert (H1 : 4 <= len (fst (ToBytes test_totp)))
    by (vm_compute; discriminate).
  assert (H2 : declared_totalSize (fst (ToBytes test_totp))
               <= len (fst (ToBytes test_totp)))
    by (vm_compute; discriminate).
  repeat (split; [assumption |]).
  exact (TOTPFromBytes_trailing_bytes (fst (ToBytes test_totp))
           [Byte.xff; Byte.xff] H1 H2).
Defined.

(** The bytes that follow a record are read when the record is cut short:
    the condition of the theorem is needed. *)
Example short_input_reads_what_follows :
  TOTPFromBytes
    ([Byte.x00; Byte.x00; Byte.x00; Byte.x34]
     ++ [Byte.x00; Byte.x00; Byte.x00; Byte.x01])
  <> TOTPFromBytes [Byte.x00; Byte.x00; Byte.x00; Byte.x34].
Proof. vm_compute. discriminate. Qed.

Lemma ToBytes_TOTPFromBytes_witness :
  let t := bigEndianInt 95 in
  let kS := bigEndianInt 20 in
  let iS := bigEndianInt 5 in
  let iss := list_byte_of_string "Sec51" in
  let aS := bigEndianInt 18 in
  let acc := list_byte_of_string "no-reply@sec51.com" in
  let hs := bigEndianInt 2 in
  let data :=
    bytes_of_byte4 t ++ bytes_of_byte4 kS ++ sha1Key
    ++ bytes_of_byte8 (bigEndianUint64 47953379)
    ++ bytes_of_byte4 (bigEndianInt 7) ++ bytes_of_byte4 iS ++ iss
    ++ bytes_of_byte4 aS ++ acc ++ bytes_of_byte4 (bigEndianInt 27)
    ++ bytes_of_byte4 (bigEndianInt (-1)) ++ bytes_of_byte4 (bigEndianInt 2)
    ++ bytes_of_byte8 (bigEndianUint64 1438601387) ++ bytes_of_byte4 hs in
  intFromBigEndian t = len data
  /\ intFromBigEndian kS = len sha1Key
  /\ intFromBigEndian iS = len iss
  /\ intFromBigEndian aS = len acc
  /\ 0 <= intFromBigEndian hs <= 2
  /\ exists y,
       TOTPFromBytes data = Ret (y, None)
       /\ ToBytes y = (data, None).
Proof.
  intros t kS iS iss aS acc hs data.
  assert (H1 : intFromBigEndian t = len data) by (vm_compute; reflexivity).
  assert (H2 : intFromBigEndian kS = len sha1Key) by (vm_compute; reflexivity).
  assert (H3 : intFromBigEndian iS = len iss) by (vm_compute; reflexivity).
  assert (H4 : intFromBigEndian aS = len acc) by (vm_compute; reflexivity).
  assert (H5 : 0 <= intFromBigEndian hs <= 2)
    by (split; vm_compute; discriminate).
  repeat (split; [assumption |]).
  exact (ToBytes_TOTPFromBytes t kS sha1Key (bigEndianUint64 47953379)
           (bigEndianInt 7) iS iss aS acc (bigEndianInt 27)
           (bigEndianInt (-1)) (bigEndianInt 2) (bigEndianUint64 1438601387)
           hs H1 H2 H3 H4 H5).
Defined.

(** A hash tag that is not 0, 1 or 2 is read as SHA-1 and written as 0: the
    record of the witness with the tag 3 does not come back. *)
Example other_hash_tag_not_restored :
  exists y data',
    TOTPFromBytes (fst (ToBytes test_totp)) = Ret (y, None)
    /\ TOTPFromBytes
         (firstn 91 (fst (ToBytes test_totp)) ++ bytes_of_byte4 (bigEndianInt 3))
       = Ret (y, None)
    /\ ToBytes y = (data', None)
    /\ data'
       <> firstn 91 (fst (ToBytes test_totp)) ++ bytes_of_byte4 (bigEndianInt 3).
Proof.
  eexists. eexists. split; [vm_compute; reflexivity |].
  split; [vm_compute; reflexivity |].
  split; [vm_compute; reflexivity |].
  vm_compute. discriminate.
Qed.

Lemma calculateTOTP_after_round_trip_witness :
  wire_encodable test_totp
  /\ exists y,
       TOTPFromBytes (fst (ToBytes test_totp)) = Ret (y, None)
       /\ forall (index : Z) (r : nat),
            code_of (calculateTOTP (H := env_at 59) index
                       {| cred := y; reads := r |})
            = code_of (calculateTOTP (H := env_at 59) index
                         {| cred := test_totp; reads := r |}).
Proof.
  assert (H1 : wire_encodable test_totp).
  { unfold wire_encodable, in_int32, in_int64.
    repeat split; try (vm_compute; (reflexivity || discriminate)).
    left. reflexivity. }
  split; [exact H1 |].
  exact (calculateTOTP_after_round_trip (E := env_at 59) test_totp H1).
Defined.

Lemma TOTPFromBytes_shape_witness :
  TOTPFromBytes (fst (ToBytes test_totp))
  = Ret (set_lastVerificationTime test_totp (time_Unix (-62135596800)), None)
  /\ (@None error = None \/ @None error = Some io_EOF)
  /\ (hashFunction
        (set_lastVerificationTime test_totp (time_Unix (-62135596800)))
      = crypto_SHA1
      \/ hashFunction
           (set_lastVerificationTime test_totp (time_Unix (-62135596800)))
         = crypto_SHA256
      \/ hashFunction
           (set_lastVerificationTime test_totp (time_Unix (-62135596800)))
         = crypto_SHA512)
  /\ lastVerificationTime
       (set_lastVerificationTime test_totp (time_Unix (-62135596800)))
     = to_the_second
         (lastVerificationTime
            (set_lastVerificationTime test_totp (time_Unix (-62135596800)))).
Proof.
  assert (H1 : TOTPFromBytes (fst (ToBytes test_totp))
               = Ret (set_lastVerificationTime test_totp
                        (time_Unix (-62135596800)), None))
    by (vm_compute; reflexivity).
  split; [exact H1 |].
  exact (TOTPFromBytes_shape (fst (ToBytes test_totp))
           (set_lastVerificationTime test_totp (time_Unix (-62135596800)))
           None H1).
Defined.

Lemma NewTOTP_result_witness :
  Hash_Size (Platform := sample_platform) crypto_SHA1 = Some 20
  /\ Hash_Size (Platform := dry_platform) crypto_SHA1 = Some 20
  /\ 0 <= 20
  /\ rand_Read (Platform := sample_platform) (repeat Byte.x00 (Z.to_nat 20))
     = (repeat Byte.x2a 20, (20, None))
  /\ rand_Read (Platform := dry_platform) (repeat Byte.x00 (Z.to_nat 20))
     = (repeat Byte.x2a 3 ++ repeat Byte.x00 17,
        (3, Some (errors_New "unexpected EOF")))
  /\ (exists otp,
         NewTOTP (H := sample_platform) "info@sec51.com" "Sec51" crypto_SHA1 12
         = Some (Ret (Some otp, None))
         /\ key otp = repeat Byte.x2a 20
         /\ 6 <= digits otp <= 8
         /\ (6 <= 12 <= 8 -> digits otp = 12)
         /\ (12 < 6 \/ 8 < 12 -> digits otp = 8)
         /\ stepSize otp = 30
         /\ clientOffset otp = 0
         /\ totalVerificationFailures otp = 0
         /\ getIntCounter otp = 0
         /\ account otp = "info@sec51.com"%string
         /\ issuer otp = "Sec51"%string
         /\ hashFunction otp = crypto_SHA1)
  /\ NewTOTP (H := dry_platform) "info@sec51.com" "Sec51" crypto_SHA1 7
     = Some (Ret (None,
                  Some (errors_New
                          ("TOTP failed to create because there is not enough entropy, we got only "
                           ++ FormatInt 3 ++ " random bytes")))).
Proof.
  assert (H1 : Hash_Size (Platform := sample_platform) crypto_SHA1 = Some 20)
    by reflexivity.
  assert (H2 : Hash_Size (Platform := dry_platform) crypto_SHA1 = Some 20)
    by reflexivity.
  assert (H3 : 0 <= 20) by lia.
  assert (H4 : rand_Read (Platform := sample_platform)
                 (repeat Byte.x00 (Z.to_nat 20))
               = (repeat Byte.x2a 20, (20, None))) by reflexivity.
  assert (H5 : rand_Read (Platform := dry_platform)
                 (repeat Byte.x00 (Z.to_nat 20))
               = (repeat Byte.x2a 3 ++ repeat Byte.x00 17,
                  (3, Some (errors_New "unexpected EOF")))) by reflexivity.
  repeat (split; [assumption |]).
  split.
  - exact (proj1 (NewTOTP_result (P := sample_platform) "info@sec51.com"
                    "Sec51" crypto_SHA1 12 20 H1 H3)
             _ _ H4).
  - exact (proj2 (NewTOTP_result (P := dry_platform) "info@sec51.com"
                    "Sec51" crypto_SHA1 7 20 H2 H3)
             _ _ _ H5).
Defined.

Lemma three_mismatches_lock_witness :
  totalVerificationFailures (cred (start test_totp)) = 0
  /\ Validate_each (H := env_at 59)
       ["1234567"%string; "1234567"%string; "1234567"%string]
       (start test_totp)
     = Ret ([Some err_mismatch; Some err_mismatch; Some err_mismatch],
            thrice_failed)
  /\ "94287082"%string <> ""%string
  /\ clock (Env := env_at 59) (reads thrice_failed)
     <= clock (Env := env_at 59) (11 + reads (start test_totp)) + backoff
  /\ totalVerificationFailures (cred thrice_failed) = 3
  /\ lastVerificationTime (cred thrice_failed)
     = clock (Env := env_at 59) (11 + reads (start test_totp))
  /\ Validate (H := env_at 59) "94287082" thrice_failed
     = Ret (Some err_locked,
            {| cred := cred thrice_failed; reads := S (reads thrice_failed) |}).
Proof.
  assert (H1 : totalVerificationFailures (cred (start test_totp)) = 0)
    by reflexivity.
  assert (H2 : Validate_each (H := env_at 59)
                 ["1234567"%string; "1234567"%string; "1234567"%string]
                 (start test_totp)
               = Ret ([Some err_mismatch; Some err_mismatch; Some err_mismatch],
                      thrice_failed))
    by (vm_compute; reflexivity).
  assert (H3 : "94287082"%string <> ""%string) by discriminate.
  assert (H4 : clock (Env := env_at 59) (reads thrice_failed)
               <= clock (Env := env_at 59) (11 + reads (start test_totp))
                  + backoff)
    by (vm_compute; discriminate).
  repeat (split; [assumption |]).
  exact (three_mismatches_lock (E := env_at 59) "1234567" "1234567" "1234567"
           "94287082" (start test_totp) thrice_failed H1 H2 H3 H4).
Defined.
